(** * Windows Event Log input plugin: a shallow embedding

    The development follows [plugins/inputs/win_services/win_services.go],
    whose second half is the [win_eventlog] package: the glob filters
    ([shouldExclude], [shouldProcessField], [shouldExcludeEmptyField]), the
    sized-buffer native calls ([renderEvent], [formatEventString]), the
    batch pull ([fetchEventHandles], [fetchEvents]) and the poll cycle
    ([Gather], [createDescriptionFromEvent]).

    Go values are modelled as follows: [string] and [[]byte] as [string]
    (a sequence of bytes), [int] and [uint32] as [Z] with the wrap-around of
    [uint32] written out, [error] as an inductive type, [map] as [gmap],
    multiple results as tuples.  Native calls and the clock go through an
    environment that answers each call from the history of calls made so
    far; a run-time panic (index or slice out of range, failed type
    assertion) ends the computation. *)

From Stdlib Require Import ZArith String Ascii List Lia.
From stdpp Require Import base option gmap strings list.

Local Open Scope Z_scope.
Local Open Scope string_scope.

(** ** Values carried by [interface{}] *)

(** The dynamic types that reach the filters and the accumulator. *)
Inductive Value : Type :=
| VString (s : string)
| VInt (n : Z)
| VUint32 (n : Z)
| VOther (repr : string).

(** ** Glob filters *)

Module Filter.
Section WithMatch.

(** [filepath.Match] is the Go library's matcher.  Every call site discards
    its error ([matched, _ := filepath.Match(...)]), so a pattern that does
    not compile simply matches nothing: the parameter is the [matched]
    result alone. *)
Variable filepath_Match : string -> string -> bool.

(** [func (w *WinEventLog) shouldExclude(field string) (should bool)],
    a loop over [w.ExcludeFields]. *)
Fixpoint shouldExclude (ExcludeFields : list string) (field : string) : bool :=
  match ExcludeFields with
  | [] => false
  | excludePattern :: rest =>
      if filepath_Match excludePattern field then true
      else shouldExclude rest field
  end.

(** The second loop of [shouldProcessField], over [w.EventFields]. *)
Fixpoint processFieldLoop (EventFields ExcludeFields : list string)
  (field : string) : bool * string :=
  match EventFields with
  | [] => (false, "excluded")
  | pattern :: rest =>
      if filepath_Match pattern field then
        if shouldExclude ExcludeFields field then (false, "excluded")
        else (true, "fields")
      else processFieldLoop rest ExcludeFields field
  end.

(** [func (w *WinEventLog) shouldProcessField(field string)
     (should bool, list string)]: the loop over [w.EventTags] comes first
    and falls through to the loop over [w.EventFields]. *)
Fixpoint shouldProcessField (EventTags EventFields ExcludeFields : list string)
  (field : string) : bool * string :=
  match EventTags with
  | [] => processFieldLoop EventFields ExcludeFields field
  | pattern :: rest =>
      if filepath_Match pattern field then (true, "tags")
      else shouldProcessField rest EventFields ExcludeFields field
  end.

(** [func (w *WinEventLog) shouldExcludeEmptyField(field string,
     fieldType string, fieldValue interface{}) (should bool)].
    The type assertions [fieldValue.(string)], [fieldValue.(int)] and
    [fieldValue.(uint32)] panic on another dynamic type: [None].  A matched
    pattern with a [fieldType] outside the three cases leaves the [switch]
    and the loop goes on. *)
Fixpoint shouldExcludeEmptyField (ExcludeEmpty : list string)
  (field fieldType : string) (fieldValue : Value) : option bool :=
  match ExcludeEmpty with
  | [] => Some false
  | pattern :: rest =>
      if filepath_Match pattern field then
        if String.eqb fieldType "string" then
          match fieldValue with
          | VString s => Some (Z.ltb (Z.of_nat (String.length s)) 1)
          | _ => None
          end
        else if String.eqb fieldType "int" then
          match fieldValue with
          | VInt n => Some (Z.eqb n 0)
          | _ => None
          end
        else if String.eqb fieldType "uint32" then
          match fieldValue with
          | VUint32 n => Some (Z.eqb n 0)
          | _ => None
          end
        else shouldExcludeEmptyField rest field fieldType fieldValue
      else shouldExcludeEmptyField rest field fieldType fieldValue
  end.

(** Some pattern of the list matches the name. *)
Definition matchesAny (patterns : list string) (field : string) : bool :=
  existsb (fun pattern => filepath_Match pattern field) patterns.

(** The zero value of the three semantic types the [switch] knows. *)
Definition isZeroOf (fieldType : string) (fieldValue : Value) : Prop :=
  (fieldType = "string" /\ fieldValue = VString "") \/
  (fieldType = "int" /\ fieldValue = VInt 0) \/
  (fieldType = "uint32" /\ fieldValue = VUint32 0).

End WithMatch.
End Filter.

(** ** Errors, events and metrics *)

(** Go's [error]: a [syscall.Errno] returned by a native call, or an error
    value built from a message ([fmt.Errorf], the XML and UTF-16 decoders). *)
Inductive error : Type :=
| Errno (code : Z)
| ErrorString (msg : string).

(** [err == c] for a constant [c] of type [syscall.Errno]: an interface
    comparison, true when the dynamic type is [syscall.Errno] and the codes
    agree. *)
Definition isErrno (err : error) (c : Z) : bool :=
  match err with
  | Errno code => Z.eqb code c
  | ErrorString _ => false
  end.

(** [uint32(x)] *)
Definition uint32 (x : Z) : Z := x mod 2 ^ 32.

(** [len(s)] *)
Definition len (s : string) : Z := Z.of_nat (String.length s).

(** [EvtFormatMessageFlag], the five kinds the renderer asks for. *)
Inductive EvtFormatMessageFlag : Type :=
| EvtFormatMessageEvent
| EvtFormatMessageLevel
| EvtFormatMessageTask
| EvtFormatMessageOpcode
| EvtFormatMessageKeyword.

Record Provider : Type := { Name : string }.
Record TimeCreated : Type := { SystemTime : string }.
Record EventData : Type := { InnerXML : string }.

(** Modelled from the spec: the [Event] struct is declared in a file of the
    package that is not among the sources.  The fields are those the spec
    lists for the System section, the ones [renderEvent] and [Gather] read
    or write under the names the code uses for them, the others
    ([ActivityID], [RelatedActivityID], [ProcessID], [ThreadID], [UserID])
    under the names of the configuration sample; the numeric System fields
    are Go [int]s, the identifiers are texts, and [TimeCreated.SystemTime]
    is the text of the creation time. *)
Record Event : Type := {
  Source : Provider;
  EventID : Z;
  Version : Z;
  Level : Z;
  Task : Z;
  Opcode : Z;
  Keywords : string;
  TimeCreated_ : TimeCreated;
  EventRecordID : Z;
  ActivityID : string;
  RelatedActivityID : string;
  ProcessID : Z;
  ThreadID : Z;
  Channel : string;
  Computer : string;
  UserID : string;
  UserData_ : EventData;
  EventData_ : EventData;
  Message : string;
  LevelText : string;
  TaskText : string;
  OpcodeText : string
}.

(** [Event{}] *)
Definition Event_zero : Event :=
  {| Source := {| Name := "" |}; EventID := 0; Version := 0; Level := 0;
     Task := 0; Opcode := 0; Keywords := "";
     TimeCreated_ := {| SystemTime := "" |}; EventRecordID := 0;
     ActivityID := ""; RelatedActivityID := ""; ProcessID := 0; ThreadID := 0;
     Channel := ""; Computer := ""; UserID := "";
     UserData_ := {| InnerXML := "" |}; EventData_ := {| InnerXML := "" |};
     Message := ""; LevelText := ""; TaskText := ""; OpcodeText := "" |}.

Definition set_Keywords (event : Event) (v : string) : Event :=
  {| Source := Source event; EventID := EventID event;
     Version := Version event; Level := Level event; Task := Task event;
     Opcode := Opcode event; Keywords := v;
     TimeCreated_ := TimeCreated_ event;
     EventRecordID := EventRecordID event;
     ActivityID := ActivityID event;
     RelatedActivityID := RelatedActivityID event;
     ProcessID := ProcessID event; ThreadID := ThreadID event;
     Channel := Channel event; Computer := Computer event;
     UserID := UserID event; UserData_ := UserData_ event;
     EventData_ := EventData_ event; Message := Message event;
     LevelText := LevelText event; TaskText := TaskText event;
     OpcodeText := OpcodeText event |}.

Definition set_Message (event : Event) (v : string) : Event :=
  {| Source := Source event; EventID := EventID event;
     Version := Version event; Level := Level event; Task := Task event;
     Opcode := Opcode event; Keywords := Keywords event;
     TimeCreated_ := TimeCreated_ event;
     EventRecordID := EventRecordID event;
     ActivityID := ActivityID event;
     RelatedActivityID := RelatedActivityID event;
     ProcessID := ProcessID event; ThreadID := ThreadID event;
     Channel := Channel event; Computer := Computer event;
     UserID := UserID event; UserData_ := UserData_ event;
     EventData_ := EventData_ event; Message := v;
     LevelText := LevelText event; TaskText := TaskText event;
     OpcodeText := OpcodeText event |}.

Definition set_LevelText (event : Event) (v : string) : Event :=
  {| Source := Source event; EventID := EventID event;
     Version := Version event; Level := Level event; Task := Task event;
     Opcode := Opcode event; Keywords := Keywords event;
     TimeCreated_ := TimeCreated_ event;
     EventRecordID := EventRecordID event;
     ActivityID := ActivityID event;
     RelatedActivityID := RelatedActivityID event;
     ProcessID := ProcessID event; ThreadID := ThreadID event;
     Channel := Channel event; Computer := Computer event;
     UserID := UserID event; UserData_ := UserData_ event;
     EventData_ := EventData_ event; Message := Message event;
     LevelText := v; TaskText := TaskText event;
     OpcodeText := OpcodeText event |}.

Definition set_TaskText (event : Event) (v : string) : Event :=
  {| Source := Source event; EventID := EventID event;
     Version := Version event; Level := Level event; Task := Task event;
     Opcode := Opcode event; Keywords := Keywords event;
     TimeCreated_ := TimeCreated_ event;
     EventRecordID := EventRecordID event;
     ActivityID := ActivityID event;
     RelatedActivityID := RelatedActivityID event;
     ProcessID := ProcessID event; ThreadID := ThreadID event;
     Channel := Channel event; Computer := Computer event;
     UserID := UserID event; UserData_ := UserData_ event;
     EventData_ := EventData_ event; Message := Message event;
     LevelText := LevelText event; TaskText := v;
     OpcodeText := OpcodeText event |}.

Definition set_OpcodeText (event : Event) (v : string) : Event :=
  {| Source := Source event; EventID := EventID event;
     Version := Version event; Level := Level event; Task := Task event;
     Opcode := Opcode event; Keywords := Keywords event;
     TimeCreated_ := TimeCreated_ event;
     EventRecordID := EventRecordID event;
     ActivityID := ActivityID event;
     RelatedActivityID := RelatedActivityID event;
     ProcessID := ProcessID event; ThreadID := ThreadID event;
     Channel := Channel event; Computer := Computer event;
     UserID := UserID event; UserData_ := UserData_ event;
     EventData_ := EventData_ event; Message := Message event;
     LevelText := LevelText event; TaskText := TaskText event;
     OpcodeText := v |}.

(** The System section of an event and its two XML fragments: every field
    but the five that text resolution writes. *)
Definition sameSystem (a b : Event) : Prop :=
  Source a = Source b /\ EventID a = EventID b /\ Version a = Version b /\
  Level a = Level b /\ Task a = Task b /\ Opcode a = Opcode b /\
  TimeCreated_ a = TimeCreated_ b /\ EventRecordID a = EventRecordID b /\
  ActivityID a = ActivityID b /\ RelatedActivityID a = RelatedActivityID b /\
  ProcessID a = ProcessID b /\ ThreadID a = ThreadID b /\
  Channel a = Channel b /\ Computer a = Computer b /\ UserID a = UserID b /\
  UserData_ a = UserData_ b /\ EventData_ a = EventData_ b.

(** One element of the result of [UnrollXMLFields]. *)
Record EventField : Type := { FieldName : string; FieldValue : string }.

(** One call of [acc.AddFields(measurement, fields, tags, t)]. *)
Record Metric : Type := {
  measurement : string;
  fields : gmap string Value;
  tags : gmap string string;
  timestamp : Z
}.

(** [WinEventLog], the configuration and the two mutable fields
    [subscription] and [buf]. *)
Record WinEventLog : Type := {
  Locale : Z;
  EventlogName : string;
  Query : string;
  ProcessUserData : bool;
  ProcessEventData : bool;
  Separator : string;
  OnlyFirstLineOfMessage : bool;
  TimeStampFromEvent : bool;
  EventTags : list string;
  EventFields : list string;
  ExcludeFields : list string;
  ExcludeEmpty : list string;
  subscription : Z;
  buf : string
}.

Definition set_subscription (w : WinEventLog) (h : Z) : WinEventLog :=
  {| Locale := Locale w; EventlogName := EventlogName w; Query := Query w;
     ProcessUserData := ProcessUserData w;
     ProcessEventData := ProcessEventData w; Separator := Separator w;
     OnlyFirstLineOfMessage := OnlyFirstLineOfMessage w;
     TimeStampFromEvent := TimeStampFromEvent w; EventTags := EventTags w;
     EventFields := EventFields w; ExcludeFields := ExcludeFields w;
     ExcludeEmpty := ExcludeEmpty w; subscription := h; buf := buf w |}.

Definition set_buf (w : WinEventLog) (b : string) : WinEventLog :=
  {| Locale := Locale w; EventlogName := EventlogName w; Query := Query w;
     ProcessUserData := ProcessUserData w;
     ProcessEventData := ProcessEventData w; Separator := Separator w;
     OnlyFirstLineOfMessage := OnlyFirstLineOfMessage w;
     TimeStampFromEvent := TimeStampFromEvent w; EventTags := EventTags w;
     EventFields := EventFields w; ExcludeFields := ExcludeFields w;
     ExcludeEmpty := ExcludeEmpty w; subscription := subscription w;
     buf := b |}.

(** ** Byte-string helpers of the Go library used by the renderer *)

Definition isCRLF (c : ascii) : bool :=
  Ascii.eqb c "013"%char || Ascii.eqb c "010"%char.

Definition isNUL (c : ascii) : bool := Ascii.eqb c "000"%char.

Definition isEmpty (s : string) : bool :=
  match s with EmptyString => true | String _ _ => false end.

(** [regexp.MustCompile(`[\r\n]+`).ReplaceAllString(s, "|")]: every maximal
    run of carriage returns and line feeds becomes one ["|"].  [inRun] tells
    that the previous byte belonged to such a run. *)
Fixpoint replaceCRLF (inRun : bool) (s : string) : string :=
  match s with
  | EmptyString => EmptyString
  | String c rest =>
      if isCRLF c then
        if inRun then replaceCRLF true rest
        else String "|"%char (replaceCRLF true rest)
      else String c (replaceCRLF false rest)
  end.

Definition crlfRe_ReplaceAllString (s : string) : string := replaceCRLF false s.

Fixpoint trimLeftNUL (s : string) : string :=
  match s with
  | EmptyString => EmptyString
  | String c rest => if isNUL c then trimLeftNUL rest else s
  end.

Fixpoint trimRightNUL (s : string) : string :=
  match s with
  | EmptyString => EmptyString
  | String c rest =>
      let rest' := trimRightNUL rest in
      if isNUL c && isEmpty rest' then EmptyString else String c rest'
  end.

(** [bytes.Trim(b, "\x00")] *)
Definition bytes_Trim_NUL (b : string) : string := trimRightNUL (trimLeftNUL b).

(** [strings.FieldsFunc(s, func(c rune) bool { return c == '\x00' })]:
    the maximal runs of bytes other than NUL; [cur] is the run being read. *)
Fixpoint fieldsNUL (cur : string) (s : string) : list string :=
  match s with
  | EmptyString => if isEmpty cur then [] else [cur]
  | String c rest =>
      if isNUL c then
        if isEmpty cur then fieldsNUL EmptyString rest
        else cur :: fieldsNUL EmptyString rest
      else fieldsNUL (cur ++ String c EmptyString) rest
  end.

Definition strings_FieldsFunc_NUL (s : string) : list string :=
  fieldsNUL EmptyString s.

(** [strings.Join(elems, sep)] *)
Fixpoint strings_Join (elems : list string) (sep : string) : string :=
  match elems with
  | [] => EmptyString
  | [x] => x
  | x :: rest => x ++ sep ++ strings_Join rest sep
  end.

(** The text [formatEventString] makes of the decoded buffer: the keywords,
    a list of NUL-terminated strings, joined with commas; the other kinds
    with the NULs at both ends removed. *)
Definition formatted (messageFlag : EvtFormatMessageFlag) (result : string)
  : string :=
  match messageFlag with
  | EvtFormatMessageKeyword =>
      strings_Join (strings_FieldsFunc_NUL result) ","
  | _ => bytes_Trim_NUL result
  end.

(** [make([]byte, n)] *)
Definition make_bytes (n : Z) : string :=
  string_of_list_ascii (repeat "000"%char (Z.to_nat n)).

(** The buffer after a native call has written [written] at its start; what
    does not fit is not written. *)
Definition overwrite (b written : string) : string :=
  let n := String.length b in
  let k := String.length written in
  substring 0 n (written ++ substring k (n - k) b).

(** [b[:n]] for a slice whose capacity is its length: out of range
    panics ([None]). *)
Definition sliceTo (b : string) (n : Z) : option string :=
  if ((0 <=? n) && (n <=? len b))%Z then Some (substring 0 (Z.to_nat n) b)
  else None.

(** [time.RFC3339Nano] *)
Definition RFC3339Nano : string := "2006-01-02T15:04:05.999999999Z07:00".

(** ** The Go library and the native API *)

(** Functions of the Go library and of the package's other files that the
    code calls and that are not part of the sources; each is a parameter.
    [filepath_Match] gives the [matched] result (the error is discarded at
    every call site); [Error] is the method [err.Error()]. *)
Record Lib : Type := {
  filepath_Match : string -> string -> bool;
  strings_TrimSpace : string -> string;
  time_Parse : string -> string -> Z * option error;
  xml_Unmarshal : string -> Event -> Event * option error;
  DecodeUTF16 : string -> string * option error;
  UnrollXMLFields :
    string -> gmap string Z -> string -> list EventField * option error;
  UTF16PtrFromString : string -> option error;
  Error : error -> string
}.

(** A native call, as recorded in the history. *)
Inductive Call : Type :=
| CreateEventCall
| CloseHandleCall (h : Z)
| EvtSubscribeCall (signalEvent : Z) (logName xquery : string)
| EvtNextCall (subsHandle eventsNumber : Z)
| EvtRenderCall (eventHandle bufferSize : Z)
| EvtOpenPublisherMetadataCall (publisherName : string) (lang : Z)
| EvtFormatMessageCall (publisherHandle eventHandle : Z)
    (messageFlag : EvtFormatMessageFlag) (bufferSize : Z)
| EvtCloseCall (h : Z)
| NowCall.

(** The native API and the clock.  Every answer may depend on the calls made
    before ([list Call]) and on the arguments.  A call that fills a buffer
    answers with the bytes it wrote, the [bufferUsed] (or [evtReturned])
    count it reports and its error. *)
Record Native : Type := {
  CreateEvent : list Call -> Z * option error;
  _EvtSubscribe : list Call -> Z -> string -> string -> Z * option error;
  _EvtNext : list Call -> Z -> Z -> list Z * Z * option error;
  _EvtRender : list Call -> Z -> Z -> string * Z * option error;
  _EvtOpenPublisherMetadata : list Call -> string -> Z -> Z * option error;
  _EvtFormatMessage :
    list Call -> Z -> Z -> EvtFormatMessageFlag -> Z ->
    string * Z * option error;
  _EvtClose : list Call -> Z -> option error;
  time_Now : list Call -> Z
}.

(** ** Computations: receiver, history, panics *)

Record State : Type := { self : WinEventLog; history : list Call }.

Inductive Outcome (A : Type) : Type :=
| Returns (a : A) (s : State)
| Panics
| OutOfFuel.
Arguments Returns {A} a s.
Arguments Panics {A}.
Arguments OutOfFuel {A}.

Definition M (A : Type) : Type := State -> Outcome A.

#[global] Instance M_ret : MRet M := fun A a s => Returns a s.

#[global] Instance M_bind : MBind M := fun A B f m s =>
  match m s with
  | Returns a s' => f a s'
  | Panics => Panics
  | OutOfFuel => OutOfFuel
  end.

Definition panic {A : Type} : M A := fun _ => Panics.

Definition getSelf : M WinEventLog := fun s => Returns (self s) s.

Definition putSelf (w : WinEventLog) : M unit :=
  fun s => Returns tt {| self := w; history := history s |}.

(** The state of the receiver once [renderEvent] has made its native call:
    the buffer holds what the call wrote. *)
Definition rendered (s : State) (eventHandle : Z) (written : string) : State :=
  {| self := set_buf (self s) (overwrite (buf (self s)) written);
     history := history s ++
                [EvtRenderCall eventHandle (uint32 (len (buf (self s))))] |}.

(** The state once the call [c] has been made. *)
Definition after (s : State) (c : Call) : State :=
  {| self := self s; history := history s ++ [c] |}.

(** The state once the calls [cs] have been made, in order. *)
Definition afterAll (s : State) (cs : list Call) : State :=
  {| self := self s; history := history s ++ cs |}.

(** A native call: the answer is computed from the history, then the call is
    appended to it. *)
Definition native {A : Type} (c : Call) (answer : list Call -> A) : M A :=
  fun s => Returns (answer (history s)) (after s c).

(** A value that exists unless the Go code panics. *)
Definition orPanic {A : Type} (o : option A) : M A :=
  match o with
  | Some a => mret a
  | None => panic
  end.

(** ** The plugin *)

Module EventLog.
Section WithEnvironment.

Variable lib : Lib.
Variable env : Native.

(** The three [syscall.Errno] constants the code compares errors with; they
    are declared in the package's syscall file, outside the sources. *)
Variables ERROR_INSUFFICIENT_BUFFER ERROR_NO_MORE_ITEMS : Z.
Variable ERROR_INVALID_OPERATION : Z.

(** [&b[0]]: the index expression panics on an empty slice. *)
Definition addressOfFirst (b : string) : M unit :=
  if isEmpty b then panic else mret tt.

(** [err != nil && err != c] *)
Definition isOtherThan (err : option error) (c : Z) : bool :=
  match err with
  | Some e => negb (isErrno e c)
  | None => false
  end.

(** [func formatEventString(messageFlag, eventHandle, publisherHandle)
     (string, error)].  The first call passes no buffer; the second one a
    buffer of twice the reported count of bytes. *)
Definition formatEventString (messageFlag : EvtFormatMessageFlag)
  (eventHandle publisherHandle : Z) : M (string * option error) :=
  '(_, bufferUsed, err) ←
    native (EvtFormatMessageCall publisherHandle eventHandle messageFlag 0)
      (fun t => _EvtFormatMessage env t publisherHandle eventHandle
                  messageFlag 0);
  if isOtherThan err ERROR_INSUFFICIENT_BUFFER then mret (EmptyString, err)
  else
    let bufferUsed := uint32 (bufferUsed * 2) in
    let buffer := make_bytes bufferUsed in
    _ ← addressOfFirst buffer;
    let bufferSize := uint32 (len buffer / 2) in
    '(written, bufferUsed, err) ←
      native
        (EvtFormatMessageCall publisherHandle eventHandle messageFlag
           bufferSize)
        (fun t => _EvtFormatMessage env t publisherHandle eventHandle
                    messageFlag bufferSize);
    let buffer := overwrite buffer written in
    let bufferUsed := uint32 (bufferUsed * 2) in
    match err with
    | Some e => mret (EmptyString, Some e)
    | None =>
        slice ← orPanic (sliceTo buffer bufferUsed);
        let '(result, err) := DecodeUTF16 lib slice in
        match err with
        | Some e => mret (EmptyString, Some e)
        | None =>
            mret (formatted messageFlag result, None)
        end
    end.

(** [func openPublisherMetadata(session, publisherName, lang)
     (EvtHandle, error)] *)
Definition openPublisherMetadata (session : Z) (publisherName : string)
  (lang : Z) : M (Z * option error) :=
  match UTF16PtrFromString lib publisherName with
  | Some e => mret (0, Some e)
  | None =>
      '(h, err) ←
        native (EvtOpenPublisherMetadataCall publisherName lang)
          (fun t => _EvtOpenPublisherMetadata env t publisherName lang);
      match err with
      | Some e => mret (0, Some e)
      | None => mret (h, None)
      end
  end.

(** One text field of [renderEvent]: [v, err := formatEventString(...);
    if err == nil { event.F = post(v) }]. *)
Definition populate (messageFlag : EvtFormatMessageFlag)
  (eventHandle publisherHandle : Z) (set : Event -> string -> Event)
  (post : string -> string) (event : Event) : M Event :=
  '(v, err) ← formatEventString messageFlag eventHandle publisherHandle;
  match err with
  | None => mret (set event (post v))
  | Some _ => mret event
  end.

(** The post-processing of the message text in [renderEvent]. *)
Definition cleanMessage (message : string) : string :=
  crlfRe_ReplaceAllString (strings_TrimSpace lib message).

(** The end of [renderEvent], once the publisher is open: the five text
    fields in the order keyword, message, level, task, opcode, then the
    deferred [_EvtClose(publisherHandle)] and [return event, nil]. *)
Definition resolveText (eventHandle publisherHandle : Z) (event : Event)
  : M (Event * option error) :=
  event ← populate EvtFormatMessageKeyword eventHandle publisherHandle
            set_Keywords id event;
  event ← populate EvtFormatMessageEvent eventHandle publisherHandle
            set_Message cleanMessage event;
  event ← populate EvtFormatMessageLevel eventHandle publisherHandle
            set_LevelText id event;
  event ← populate EvtFormatMessageTask eventHandle publisherHandle
            set_TaskText id event;
  event ← populate EvtFormatMessageOpcode eventHandle publisherHandle
            set_OpcodeText id event;
  _ ← native (EvtCloseCall publisherHandle)
        (fun t => _EvtClose env t publisherHandle);
  mret (event, None).

(** [func (w *WinEventLog) renderEvent(eventHandle EvtHandle)
     (Event, error)]. *)
Definition renderEvent (eventHandle : Z) : M (Event * option error) :=
  w ← getSelf;
  let event := Event_zero in
  _ ← addressOfFirst (buf w);
  let bufferSize := uint32 (len (buf w)) in
  '(written, bufferUsed, err) ←
    native (EvtRenderCall eventHandle bufferSize)
      (fun t => _EvtRender env t eventHandle bufferSize);
  let b := overwrite (buf w) written in
  _ ← putSelf (set_buf w b);
  match err with
  | Some e => mret (event, Some e)
  | None =>
      slice ← orPanic (sliceTo b (uint32 bufferUsed));
      let '(eventXML, err) := DecodeUTF16 lib slice in
      match err with
      | Some e => mret (event, Some e)
      | None =>
          let '(event, err) := xml_Unmarshal lib eventXML event in
          match err with
          | Some _ => mret (event, None)
          | None =>
              '(publisherHandle, err) ←
                openPublisherMetadata 0 (Name (Source event)) (Locale w);
              match err with
              | Some _ => mret (event, None)
              | None => resolveText eventHandle publisherHandle event
              end
          end
      end
  end.

(** [eventsNumber = 5] in [fetchEventHandles]. *)
Definition eventsNumber : Z := 5.

(** [func (w *WinEventLog) fetchEventHandles(subsHandle EvtHandle)
     ([]EvtHandle, error)].  [eventHandles[:evtReturned]] panics when the
    reported count exceeds the five slots. *)
Definition fetchEventHandles (subsHandle : Z) : M (list Z * option error) :=
  let eventHandles := repeat 0 (Z.to_nat eventsNumber) in
  '(written, evtReturned, err) ←
    native (EvtNextCall subsHandle eventsNumber)
      (fun t => _EvtNext env t subsHandle eventsNumber);
  let eventHandles :=
    firstn (Z.to_nat eventsNumber)
      (written ++ skipn (length written) eventHandles) in
  let evtReturned := uint32 evtReturned in
  match err with
  | Some e =>
      if isErrno e ERROR_INVALID_OPERATION && Z.eqb evtReturned 0
      then mret ([], Some (Errno ERROR_NO_MORE_ITEMS))
      else mret ([], Some e)
  | None =>
      if Z.leb evtReturned eventsNumber
      then mret (firstn (Z.to_nat evtReturned) eventHandles, None)
      else panic
  end.

(** The first loop of [fetchEvents]: render every non-null handle, keep the
    events whose render returned no error. *)
Fixpoint renderLoop (eventHandles : list Z) (events : list Event)
  : M (list Event) :=
  match eventHandles with
  | [] => mret events
  | eventHandle :: rest =>
      if Z.eqb eventHandle 0 then renderLoop rest events
      else
        '(event, err) ← renderEvent eventHandle;
        match err with
        | None => renderLoop rest (events ++ [event])
        | Some _ => renderLoop rest events
        end
  end.

(** The second loop of [fetchEvents]: close the handles in order, return at
    the first error. *)
Fixpoint closeLoop (eventHandles : list Z) : M (option error) :=
  match eventHandles with
  | [] => mret None
  | h :: rest =>
      err ← native (EvtCloseCall h) (fun t => _EvtClose env t h);
      match err with
      | Some e => mret (Some e)
      | None => closeLoop rest
      end
  end.

(** [func (w *WinEventLog) fetchEvents(subsHandle EvtHandle)
     ([]Event, error)] *)
Definition fetchEvents (subsHandle : Z) : M (list Event * option error) :=
  '(eventHandles, err) ← fetchEventHandles subsHandle;
  match err with
  | Some e => mret ([], Some e)
  | None =>
      events ← renderLoop eventHandles [];
      err ← closeLoop eventHandles;
      mret (events, err)
  end.

(** [func (w *WinEventLog) evtSubscribe(logName, xquery string)
     (EvtHandle, error)]; the deferred [windows.CloseHandle(sigEvent)] runs
    on every return after the event object was created. *)
Definition evtSubscribe (logName xquery : string) : M (Z * option error) :=
  '(sigEvent, err) ← native CreateEventCall (CreateEvent env);
  match err with
  | Some e => mret (0, Some e)
  | None =>
      result ←
        match UTF16PtrFromString lib logName with
        | Some e => mret (0, Some e)
        | None =>
            match UTF16PtrFromString lib xquery with
            | Some e => mret (0, Some e)
            | None =>
                '(subsHandle, err) ←
                  native (EvtSubscribeCall sigEvent logName xquery)
                    (fun t => _EvtSubscribe env t sigEvent logName xquery);
                match err with
                | Some e => mret (0, Some e)
                | None => mret (subsHandle, None)
                end
            end
        end;
      _ ← native (CloseHandleCall sigEvent) (fun _ => tt);
      mret result
  end.

(** [func createDescriptionFromEvent(event Event) (string)] *)
Definition createDescriptionFromEvent (event : Event) : string :=
  let fieldsUsage : gmap string Z := ∅ in
  let '(fieldsEventData, _) :=
    UnrollXMLFields lib (InnerXML (EventData_ event)) fieldsUsage "_" in
  let eventDataValues := map FieldValue fieldsEventData in
  let description := strings_Join eventDataValues "|" in
  crlfRe_ReplaceAllString description.

(** The fields of the record [Gather] emits for one event. *)
Definition eventFields (event : Event) (description : string)
  : gmap string Value :=
  <["record_id" := VInt (EventRecordID event)]>
  (<["event_id" := VInt (EventID event)]>
  (<["level" := VInt (Level event)]>
  (<["message" := VString (Message event)]>
  (<["description" := VString description]>
  (<["source" := VString (Name (Source event))]>
  (<["created" := VString (SystemTime (TimeCreated_ event))]> ∅)))))).

(** The body of the loop over [events] in [Gather]: one call of
    [acc.AddFields]. *)
Definition addEvent (event : Event) (acc : list Metric) : M (list Metric) :=
  let eventTime := SystemTime (TimeCreated_ event) in
  let '(timeStamp, err) := time_Parse lib RFC3339Nano eventTime in
  timeStamp ←
    match err with
    | Some _ => native NowCall (time_Now env)
    | None => mret timeStamp
    end;
  let description := createDescriptionFromEvent event in
  mret (acc ++
        [ {| measurement := "win_event";
             fields := eventFields event description;
             tags := {[ "eventlog_name" := Channel event ]};
             timestamp := timeStamp |} ])%list.

Fixpoint addEvents (events : list Event) (acc : list Metric)
  : M (list Metric) :=
  match events with
  | [] => mret acc
  | event :: rest => acc ← addEvent event acc; addEvents rest acc
  end.

(** The labelled [for] loop of [Gather]; [fuel] bounds the number of
    pulls. *)
Fixpoint gatherLoop (fuel : nat) (acc : list Metric)
  : M (list Metric * option error) :=
  match fuel with
  | O => fun _ => OutOfFuel
  | S fuel' =>
      w ← getSelf;
      '(events, err) ← fetchEvents (subscription w);
      match err with
      | Some e =>
          if isErrno e ERROR_NO_MORE_ITEMS then mret (acc, None)
          else mret (acc, Some e)
      | None =>
          acc ← addEvents events acc;
          gatherLoop fuel' acc
      end
  end.

(** [func (w *WinEventLog) Gather(acc telegraf.Accumulator) error]; the
    accumulator is the list of the records added so far. *)
Definition Gather (fuel : nat) (acc : list Metric)
  : M (list Metric * option error) :=
  w ← getSelf;
  err ←
    (if Z.eqb (subscription w) 0 then
       '(subsHandle, err) ← evtSubscribe (EventlogName w) (Query w);
       _ ← putSelf (set_subscription w subsHandle);
       mret err
     else mret None);
  match err with
  | Some e =>
      mret (acc,
            Some (ErrorString
                    ("Windows Event Log subscription error: " ++ Error lib e)))
  | None => gatherLoop fuel acc
  end.

(** Every close of [handles], made in order from the history [t] on,
    succeeds. *)
Fixpoint closesSucceed (t : list Call) (handles : list Z) : bool :=
  match handles with
  | [] => true
  | h :: rest =>
      match _EvtClose env t h with
      | None => closesSucceed (t ++ [EvtCloseCall h]) rest
      | Some _ => false
      end
  end.

(** [iterates k acc s acc' s']: from the accumulator [acc] and the state
    [s], the loop of [Gather] goes through [k] iterations whose pull returns
    without error, and is then back at its head with [acc'] and [s']. *)
Inductive iterates :
  nat -> list Metric -> State -> list Metric -> State -> Prop :=
| iterates_O acc s : iterates O acc s acc s
| iterates_S k acc s events s1 acc1 s2 acc' s' :
    fetchEvents (subscription (self s)) s = Returns (events, None) s1 ->
    addEvents events acc s1 = Returns acc1 s2 ->
    iterates k acc1 s2 acc' s' ->
    iterates (S k) acc s acc' s'.

(** The pull made in state [s] reports the invalid-operation condition with
    zero events returned. *)
Definition pullReportsInvalidOperation (s : State) : Prop :=
  exists written evtReturned,
    _EvtNext env (history s) (subscription (self s)) eventsNumber =
      (written, evtReturned, Some (Errno ERROR_INVALID_OPERATION)) /\
    uint32 evtReturned = 0.

(** The contract of the native formatting call that keeps
    [formatEventString] within its buffer: a probe (size 0) that succeeds
    or reports an insufficient buffer reports a size that is not zero
    modulo 2^31, and a successful call reports no more than the size it was
    given. *)
Definition wellSized : Prop :=
  forall t publisherHandle eventHandle messageFlag size written used err,
    _EvtFormatMessage env t publisherHandle eventHandle messageFlag size =
      (written, used, err) ->
    (size = 0 -> isOtherThan err ERROR_INSUFFICIENT_BUFFER = false ->
     0 < uint32 (used * 2)) /\
    (0 < size -> err = None -> uint32 (used * 2) <= 2 * size).

End WithEnvironment.
End EventLog.

(** ** A concrete library and scripted native environments

    Instances of the two parameters, used to run the code on concrete
    inputs. *)

Module Sample.

Definition isSeparator (c : ascii) : bool := Ascii.eqb c "\"%char.

(** The matching of [filepath.Match] for patterns made of literal bytes,
    [?] and [*] (no character class); neither wildcard matches the path
    separator. *)
Fixpoint globMatch (pattern : list ascii) : list ascii -> bool :=
  match pattern with
  | [] => fun name => match name with [] => true | _ :: _ => false end
  | p :: pattern' =>
      if Ascii.eqb p "*"%char then
        fix star (name : list ascii) : bool :=
          globMatch pattern' name ||
          match name with
          | [] => false
          | c :: rest => negb (isSeparator c) && star rest
          end
      else if Ascii.eqb p "?"%char then
        fun name =>
          match name with
          | [] => false
          | c :: rest => negb (isSeparator c) && globMatch pattern' rest
          end
      else
        fun name =>
          match name with
          | [] => false
          | c :: rest => Ascii.eqb c p && globMatch pattern' rest
          end
  end.

Definition Match (pattern name : string) : bool :=
  globMatch (list_ascii_of_string pattern) (list_ascii_of_string name).

(** ASCII text as UTF-16LE bytes, and back. *)
Fixpoint utf16 (s : string) : string :=
  match s with
  | EmptyString => EmptyString
  | String c rest => String c (String "000"%char (utf16 rest))
  end.

Fixpoint decodeUTF16 (b : string) : string * option error :=
  match b with
  | EmptyString => (EmptyString, None)
  | String _ EmptyString => (EmptyString, Some (ErrorString "odd length"))
  | String lo (String hi rest) =>
      let '(s, err) := decodeUTF16 rest in
      (String (if isNUL hi then lo else "?"%char) s, err)
  end.

Definition isSpace (c : ascii) : bool :=
  Ascii.eqb c " "%char || Ascii.eqb c "009"%char || Ascii.eqb c "010"%char ||
  Ascii.eqb c "011"%char || Ascii.eqb c "012"%char || Ascii.eqb c "013"%char.

Fixpoint trimLeftSpace (s : string) : string :=
  match s with
  | EmptyString => EmptyString
  | String c rest => if isSpace c then trimLeftSpace rest else s
  end.

Fixpoint trimRightSpace (s : string) : string :=
  match s with
  | EmptyString => EmptyString
  | String c rest =>
      let rest' := trimRightSpace rest in
      if isSpace c && isEmpty rest' then EmptyString else String c rest'
  end.

Definition trimSpace (s : string) : string := trimRightSpace (trimLeftSpace s).

(** An event of the Application channel: [Level=2], [Source="App"]. *)
Definition appEvent : Event :=
  {| Source := {| Name := "App" |}; EventID := 1000; Version := 0; Level := 2;
     Task := 0; Opcode := 0; Keywords := "0x80000000000000";
     TimeCreated_ := {| SystemTime := "2020-01-01T00:00:00.000000000Z" |};
     EventRecordID := 4711;
     ActivityID := "{a1b2c3d4-0000-0000-0000-000000000001}";
     RelatedActivityID := ""; ProcessID := 612; ThreadID := 4020;
     Channel := "Application"; Computer := "host"; UserID := "S-1-5-18";
     UserData_ := {| InnerXML := "" |};
     EventData_ := {| InnerXML := "<Data>disk full</Data><Data>C:</Data>" |};
     Message := ""; LevelText := ""; TaskText := ""; OpcodeText := "" |}.

(** What the sample decoder reads from a truncated document: the fields
    before the point of the error. *)
Definition partialEvent : Event :=
  {| Source := {| Name := "App" |}; EventID := 1000; Version := 0; Level := 0;
     Task := 0; Opcode := 0; Keywords := "";
     TimeCreated_ := {| SystemTime := "" |};
     EventRecordID := 0;
     ActivityID := ""; RelatedActivityID := ""; ProcessID := 0; ThreadID := 0;
     Channel := ""; Computer := ""; UserID := "";
     UserData_ := {| InnerXML := "" |}; EventData_ := {| InnerXML := "" |};
     Message := ""; LevelText := ""; TaskText := ""; OpcodeText := "" |}.

Definition appEventXML : string := "<Event>app</Event>".
Definition truncatedXML : string := "<Event>app".

Definition lib : Lib :=
  {| filepath_Match := Match;
     strings_TrimSpace := trimSpace;
     time_Parse := fun layout value =>
       if String.eqb value "2020-01-01T00:00:00.000000000Z"
       then (1577836800000000000, None)
       else (0, Some (ErrorString "parsing time"));
     xml_Unmarshal := fun data event =>
       if String.eqb data appEventXML then (appEvent, None)
       else if String.eqb data truncatedXML
       then (partialEvent, Some (ErrorString "unexpected EOF"))
       else (event, Some (ErrorString "syntax error"));
     DecodeUTF16 := decodeUTF16;
     UnrollXMLFields := fun innerXML fieldsUsage separator =>
       if String.eqb innerXML "<Data>disk full</Data><Data>C:</Data>"
       then ([ {| FieldName := "Data"; FieldValue := "disk full" |};
               {| FieldName := "Data_1"; FieldValue := "C:" |} ], None)
       else ([], None);
     UTF16PtrFromString := fun _ => None;
     Error := fun err =>
       match err with
       | Errno _ => "errno"
       | ErrorString msg => msg
       end |}.

(** The values of the three error codes in the Windows headers. *)
Definition ERROR_INSUFFICIENT_BUFFER : Z := 122.
Definition ERROR_NO_MORE_ITEMS : Z := 259.
Definition ERROR_INVALID_OPERATION : Z := 4317.

Definition isEvtNext (c : Call) : bool :=
  match c with EvtNextCall _ _ => true | _ => false end.

(** A scripted environment: successive answers of [_EvtNext], and answers of
    the other calls by handle. *)
Record Script : Type := {
  pulls : list (list Z * Z * option error);
  renders : Z -> Z -> string * Z * option error;
  publishers : string -> Z * option error;
  formats : Z -> EvtFormatMessageFlag -> Z -> string * Z * option error;
  closes : Z -> option error;
  clock : Z
}.

Definition scripted (sc : Script) : Native :=
  {| CreateEvent := fun _ => (1, None);
     _EvtSubscribe := fun _ _ _ _ => (7, None);
     _EvtNext := fun t _ _ =>
       nth (length (filter isEvtNext t)) (pulls sc)
         ([], 0, Some (Errno ERROR_NO_MORE_ITEMS));
     _EvtRender := fun _ h size => renders sc h size;
     _EvtOpenPublisherMetadata := fun _ name _ => publishers sc name;
     _EvtFormatMessage := fun _ _ h flag size => formats sc h flag size;
     _EvtClose := fun _ h => closes sc h;
     time_Now := fun _ => clock sc |}.

Definition NUL : string := String "000"%char EmptyString.
Definition CR : string := String "013"%char EmptyString.
Definition LF : string := String "010"%char EmptyString.

(** The text the publisher of ["App"] resolves for each kind, as the native
    call returns it: NUL-terminated, the keywords as a list of
    NUL-terminated strings. *)
Definition appText (flag : EvtFormatMessageFlag) : string :=
  match flag with
  | EvtFormatMessageEvent => LF ++ "disk" ++ CR ++ LF ++ "full" ++ NUL
  | EvtFormatMessageLevel => "Error" ++ NUL
  | EvtFormatMessageTask => "None" ++ NUL
  | EvtFormatMessageOpcode => "Info" ++ NUL
  | EvtFormatMessageKeyword => "Classic" ++ NUL ++ "Audit" ++ NUL ++ NUL
  end.

(** A well-behaved sized-buffer call: the text fits or the call reports the
    size it needs (in 16-bit units) with the insufficient-buffer code. *)
Definition sized (text : string) (size : Z) : string * Z * option error :=
  if Z.leb (len text) size then (utf16 text, len text, None)
  else (EmptyString, len text, Some (Errno ERROR_INSUFFICIENT_BUFFER)).

(** Rendering answers in bytes. *)
Definition sizedBytes (data : string) (size : Z) : string * Z * option error :=
  if Z.leb (len data) size then (data, len data, None)
  else (EmptyString, len data, Some (Errno ERROR_INSUFFICIENT_BUFFER)).

(** One event, handle 101, then the end of the backlog reported as the
    invalid-operation condition with zero events. *)
Definition oneEvent : Script :=
  {| pulls := [ ([101], 1, None);
                ([], 0, Some (Errno ERROR_INVALID_OPERATION)) ];
     renders := fun _ size => sizedBytes (utf16 appEventXML) size;
     publishers := fun _ => (900, None);
     formats := fun _ flag size => sized (appText flag) size;
     closes := fun _ => None;
     clock := 1600000000000000000 |}.

(** The configuration of the scenario: tags ["Level*"], fields ["*"]. *)
Definition config (timeStampFromEvent processEventData : bool) (bufLen : Z)
  : WinEventLog :=
  {| Locale := 0; EventlogName := "Application"; Query := "*";
     ProcessUserData := true; ProcessEventData := processEventData;
     Separator := "_"; OnlyFirstLineOfMessage := true;
     TimeStampFromEvent := timeStampFromEvent;
     EventTags := ["Level*"]; EventFields := ["*"]; ExcludeFields := [];
     ExcludeEmpty := []; subscription := 7;
     buf := make_bytes bufLen |}.

Definition start (w : WinEventLog) : State := {| self := w; history := [] |}.

(** A batch of two events; the close of the first handle fails with [e]. *)
Definition closeFails (e : error) : Script :=
  {| pulls := [ ([101; 102], 2, None);
                ([], 0, Some (Errno ERROR_INVALID_OPERATION)) ];
     renders := fun _ size => sizedBytes (utf16 appEventXML) size;
     publishers := fun _ => (900, None);
     formats := fun _ flag size => sized (appText flag) size;
     closes := fun h => if Z.eqb h 101 then Some e else None;
     clock := 1600000000000000000 |}.

(** An event whose XML needs 40000 bytes. *)
Definition largeEvent : Script :=
  {| pulls := [ ([101], 1, None);
                ([], 0, Some (Errno ERROR_INVALID_OPERATION)) ];
     renders := fun _ size =>
       if Z.leb 40000 size then (utf16 appEventXML, 40000, None)
       else (EmptyString, 40000, Some (Errno ERROR_INSUFFICIENT_BUFFER));
     publishers := fun _ => (900, None);
     formats := fun _ flag size => sized (appText flag) size;
     closes := fun _ => None;
     clock := 1600000000000000000 |}.

(** The probe of a formatting call asks for six units; the second call
    fails with the code of a message that is not found. *)
Definition retryFails : Script :=
  {| pulls := [ ([101], 1, None) ];
     renders := fun _ size => sizedBytes (utf16 appEventXML) size;
     publishers := fun _ => (900, None);
     formats := fun _ _ size =>
       if Z.eqb size 0
       then (EmptyString, 6, Some (Errno ERROR_INSUFFICIENT_BUFFER))
       else (EmptyString, 0, Some (Errno 15027));
     closes := fun _ => None;
     clock := 1600000000000000000 |}.

(** The probe of a formatting call reports an insufficient buffer and a
    required size of zero. *)
Definition zeroProbe : Script :=
  {| pulls := [ ([101], 1, None) ];
     renders := fun _ size => sizedBytes (utf16 appEventXML) size;
     publishers := fun _ => (900, None);
     formats := fun _ _ _ =>
       (EmptyString, 0, Some (Errno ERROR_INSUFFICIENT_BUFFER));
     closes := fun _ => None;
     clock := 1600000000000000000 |}.

(** The XML of the event is cut short: the decoder stops with an error. *)
Definition truncatedEvent : Script :=
  {| pulls := [ ([101], 1, None) ];
     renders := fun _ size => sizedBytes (utf16 truncatedXML) size;
     publishers := fun _ => (900, None);
     formats := fun _ flag size => sized (appText flag) size;
     closes := fun _ => None;
     clock := 1600000000000000000 |}.

(** The publisher of the event cannot be opened. *)
Definition noPublisher : Script :=
  {| pulls := [ ([101], 1, None) ];
     renders := fun _ size => sizedBytes (utf16 appEventXML) size;
     publishers := fun _ => (0, Some (Errno 15002));
     formats := fun _ flag size => sized (appText flag) size;
     closes := fun _ => None;
     clock := 1600000000000000000 |}.

(** The plugin on the sample library, with the Windows error codes. *)
Definition Gather (sc : Script) :=
  EventLog.Gather lib (scripted sc) ERROR_INSUFFICIENT_BUFFER
    ERROR_NO_MORE_ITEMS ERROR_INVALID_OPERATION.

Definition gatherLoop (sc : Script) :=
  EventLog.gatherLoop lib (scripted sc) ERROR_INSUFFICIENT_BUFFER
    ERROR_NO_MORE_ITEMS ERROR_INVALID_OPERATION.

Definition fetchEvents (sc : Script) :=
  EventLog.fetchEvents lib (scripted sc) ERROR_INSUFFICIENT_BUFFER
    ERROR_NO_MORE_ITEMS ERROR_INVALID_OPERATION.

Definition renderEvent (sc : Script) :=
  EventLog.renderEvent lib (scripted sc) ERROR_INSUFFICIENT_BUFFER.

Definition formatEventString (sc : Script) :=
  EventLog.formatEventString lib (scripted sc) ERROR_INSUFFICIENT_BUFFER.

(** The records a computation added and the error it returned. *)
Definition emitted (o : Outcome (list Metric * option error))
  : option (list Metric * option error) :=
  match o with
  | Returns r _ => Some r
  | _ => None
  end.

(** The value a computation returned, [d] if it did not return. *)
Definition valueOf {A : Type} (o : Outcome A) (d : A) : A :=
  match o with
  | Returns a _ => a
  | _ => d
  end.

(** The state a computation ended in, [d] if it did not return. *)
Definition stateOf {A : Type} (o : Outcome A) (d : State) : State :=
  match o with
  | Returns _ s => s
  | _ => d
  end.

(** The first record of an accumulator. *)
Definition firstMetric (o : Outcome (list Metric * option error)) : Metric :=
  hd {| measurement := EmptyString; fields := ∅; tags := ∅; timestamp := 0 |}
    (fst (valueOf o ([], None))).

(** The history a computation ended with. *)
Definition calls {A : Type} (o : Outcome A) : option (list Call) :=
  match o with
  | Returns _ s => Some (history s)
  | _ => None
  end.

End Sample.

(** ** Predicates on texts and on runs *)

(** No byte of [s] satisfies [p]. *)
Fixpoint noneOf (p : ascii -> bool) (s : string) : bool :=
  match s with
  | EmptyString => true
  | String c rest => negb (p c) && noneOf p rest
  end.

(** The first byte of [s] satisfies [p]. *)
Definition startsWith (p : ascii -> bool) (s : string) : bool :=
  match s with
  | EmptyString => false
  | String c _ => p c
  end.

(** The last byte of [s] satisfies [p]. *)
Fixpoint endsWith (p : ascii -> bool) (s : string) : bool :=
  match s with
  | EmptyString => false
  | String c EmptyString => p c
  | String _ rest => endsWith p rest
  end.

(** [w'] is the receiver [w] up to the bytes held by the render buffer: the
    configuration, the subscription and the length of the buffer are those
    of [w]. *)
Definition sameReceiver (w w' : WinEventLog) : Prop :=
  w' = set_buf w (buf w') /\ len (buf w') = len (buf w).

(** [s'] continues [s]: the receiver is the same up to the bytes of the
    buffer, and the history is that of [s] followed by calls that all
    satisfy [P]. *)
Definition extendsWith (P : Call -> Prop) (s s' : State) : Prop :=
  sameReceiver (self s) (self s') /\
  exists cs, history s' = (history s ++ cs)%list /\ Forall P cs.

(** The native calls [renderEvent] makes for the handle [eventHandle]. *)
Definition isRenderingCall (eventHandle : Z) (c : Call) : Prop :=
  match c with
  | EvtRenderCall h _ => h = eventHandle
  | EvtOpenPublisherMetadataCall _ _ => True
  | EvtFormatMessageCall _ h _ _ => h = eventHandle
  | EvtCloseCall _ => True
  | _ => False
  end.

(** A formatting call for the event [eventHandle] with the publisher
    [publisherHandle]. *)
Definition isFormatCall (publisherHandle eventHandle : Z) (c : Call) : Prop :=
  match c with
  | EvtFormatMessageCall p h _ _ => p = publisherHandle /\ h = eventHandle
  | _ => False
  end.

(** The calls of a poll cycle on the subscription [subsHandle]: no call that
    creates a subscription, and pulls of five handles from [subsHandle]
    only. *)
Definition isPollCall (subsHandle : Z) (c : Call) : Prop :=
  match c with
  | CreateEventCall => False
  | CloseHandleCall _ => False
  | EvtSubscribeCall _ _ _ => False
  | EvtNextCall sub n => sub = subsHandle /\ n = 5
  | _ => True
  end.

(** The names of the fields of the record [Gather] adds for an event. *)
Definition fieldNames : gset string :=
  {[ "record_id"; "event_id"; "level"; "message"; "description"; "source";
     "created" ]}.

(** [m] is the record [Gather] adds for [event]: the measurement, the single
    tag, the seven fields with their values, and the time stamp, which is
    the parsed creation time or, when that does not parse, a reading of the
    clock. *)
Definition isRecordOf (lib : Lib) (env : Native) (event : Event) (m : Metric)
  : Prop :=
  measurement m = "win_event" /\
  tags m = {[ "eventlog_name" := Channel event ]} /\
  dom (fields m) = fieldNames /\
  fields m !! "record_id" = Some (VInt (EventRecordID event)) /\
  fields m !! "event_id" = Some (VInt (EventID event)) /\
  fields m !! "level" = Some (VInt (Level event)) /\
  fields m !! "message" = Some (VString (Message event)) /\
  fields m !! "description" =
    Some (VString (EventLog.createDescriptionFromEvent lib event)) /\
  fields m !! "source" = Some (VString (Name (Source event))) /\
  fields m !! "created" = Some (VString (SystemTime (TimeCreated_ event))) /\
  match time_Parse lib RFC3339Nano (SystemTime (TimeCreated_ event)) with
  | (timeStamp, None) => timestamp m = timeStamp
  | (_, Some _) => exists t, timestamp m = time_Now env t
  end.

(** The check the [switch] of [shouldExcludeEmptyField] makes once a pattern
    has matched: the answer for the three field types, a panic ([None]) when
    the value has another dynamic type than the field type names, and no
    answer from this pattern ([Some false] in the end) for any other field
    type. *)
Definition emptyCheck (fieldType : string) (fieldValue : Value) : option bool :=
  if String.eqb fieldType "string" then
    match fieldValue with
    | VString s => Some (isEmpty s)
    | _ => None
    end
  else if String.eqb fieldType "int" then
    match fieldValue with
    | VInt n => Some (Z.eqb n 0)
    | _ => None
    end
  else if String.eqb fieldType "uint32" then
    match fieldValue with
    | VUint32 n => Some (Z.eqb n 0)
    | _ => None
    end
  else Some false.

(** Further environments for runs of the event log plugin. *)
Module Scenario.

(** The native API refuses the subscription (access denied). *)
Definition refusedSubscription : Native :=
  let base := Sample.scripted Sample.oneEvent in
  {| CreateEvent := CreateEvent base;
     _EvtSubscribe := fun _ _ _ _ => (0, Some (Errno 5));
     _EvtNext := _EvtNext base;
     _EvtRender := _EvtRender base;
     _EvtOpenPublisherMetadata := _EvtOpenPublisherMetadata base;
     _EvtFormatMessage := _EvtFormatMessage base;
     _EvtClose := _EvtClose base;
     time_Now := time_Now base |}.

(** A receiver that has not subscribed yet. *)
Definition unsubscribed : State :=
  Sample.start (set_subscription (Sample.config true true 256) 0).

(** One batch, then a pull that fails with the invalid-handle code. *)
Definition pullFails : Sample.Script :=
  {| Sample.pulls := [ ([101], 1, None); ([], 0, Some (Errno 6)) ];
     Sample.renders := Sample.renders Sample.oneEvent;
     Sample.publishers := Sample.publishers Sample.oneEvent;
     Sample.formats := Sample.formats Sample.oneEvent;
     Sample.closes := Sample.closes Sample.oneEvent;
     Sample.clock := Sample.clock Sample.oneEvent |}.

(** An event without keyword text: the probe of the keyword formatting
    succeeds and reports that the text takes no room at all.  The other
    texts are those of [Sample.oneEvent]. *)
Definition noKeywords : Sample.Script :=
  {| Sample.pulls := [ ([101], 1, None) ];
     Sample.renders := Sample.renders Sample.oneEvent;
     Sample.publishers := Sample.publishers Sample.oneEvent;
     Sample.formats := fun h flag size =>
       match flag with
       | EvtFormatMessageKeyword => (EmptyString, 0, None)
       | _ => Sample.formats Sample.oneEvent h flag size
       end;
     Sample.closes := Sample.closes Sample.oneEvent;
     Sample.clock := Sample.clock Sample.oneEvent |}.

End Scenario.

(** ** The Windows services plugin

    The first half of [win_services.go]: [WinServices.Gather] connects to
    the service manager, lists the services its filter matches and reports
    state, startup mode and display name of each.  The manager, the
    services and the logger are an environment that answers from the
    history of calls, as for the event log. *)

Module Services.

(** The dynamic type of an [error] in the plugin: a [*ServiceErr] or any
    other error. *)
Inductive svcError : Type :=
| ServiceErr (Message Service : string) (Err : error)
| OtherErr (err : error).

(** [ServiceInfo] *)
Record ServiceInfo : Type := {
  ServiceName : string;
  DisplayName : string;
  State : Z;
  StartUpMode : Z
}.

(** [WinServices]: the configured names and the filter [Init] compiles from
    them ([nil] before [Init]). *)
Record WinServices : Type := {
  ServiceNames : list string;
  servicesFilter : option (string -> bool)
}.

(** One call of [acc.AddFields("win_services", fields, tags)]. *)
Record ServiceMetric : Type := {
  measurement : string;
  fields : gmap string Value;
  tags : gmap string string
}.

(** A call to the service manager, to a service or to the logger. *)
Inductive Call : Type :=
| ConnectCall
| DisconnectCall
| ListServicesCall
| OpenServiceCall (name : string)
| QueryCall (handle : Z)
| QueryServiceConfigCall (handle bufSize : Z)
| CloseCall (handle : Z)
| LogDebug (msg : string)
| LogError (msg : string)
| LogWarn (msg : string).

(** The service manager ([ManagerProvider], [WinServiceManager],
    [WinService]) and [windows.QueryServiceConfig], which answers with the
    display name and start type it wrote to the buffer, the number of bytes
    it needs and its error. *)
Record Manager : Type := {
  Connect : list Call -> option error;
  ListServices : list Call -> list string * option error;
  OpenService : list Call -> string -> Z * option error;
  Query : list Call -> Z -> Z * option error;
  QueryServiceConfig :
    list Call -> Z -> Z -> (string * Z) * Z * option error
}.

Inductive Result (A : Type) : Type :=
| Done (a : A) (t : list Call)
| Crash
| NoFuel.
Arguments Done {A} a t.
Arguments Crash {A}.
Arguments NoFuel {A}.

Definition SM (A : Type) : Type := list Call -> Result A.

#[global] Instance SM_ret : MRet SM := fun A a t => Done a t.

#[global] Instance SM_bind : MBind SM := fun A B f m t =>
  match m t with
  | Done a t' => f a t'
  | Crash => Crash
  | NoFuel => NoFuel
  end.

Definition crash {A : Type} : SM A := fun _ => Crash.

(** A call: the answer comes from the history, then the call is recorded. *)
Definition call {A : Type} (c : Call) (answer : list Call -> A) : SM A :=
  fun t => Done (answer t) (t ++ [c])%list.

(** A call whose result the code does not look at. *)
Definition perform (c : Call) : SM unit := call c (fun _ => tt).

Section WithManager.

(** [errorText] is the method [Error()] of the errors of the library;
    [os_IsPermission] is [os.IsPermission];
    [filter_NewIncludeExcludeFilter] compiles the filter (with its [Match]
    method as a function); [ERROR_INSUFFICIENT_BUFFER] is the constant of
    package [syscall]. *)
Variable errorText : error -> string.
Variable os_IsPermission : error -> bool.
Variable filter_NewIncludeExcludeFilter :
  list string -> list string -> option (string -> bool) * option error.
Variable env : Manager.
Variable ERROR_INSUFFICIENT_BUFFER : Z.

(** [func (e *ServiceErr) Error() string], and [Error()] in general. *)
Definition Error (err : svcError) : string :=
  match err with
  | ServiceErr Message Service Err =>
      Message ++ ": '" ++ Service ++ "': " ++ errorText Err
  | OtherErr e => errorText e
  end.

(** [func IsPermission(err error) bool] *)
Definition IsPermission (err : svcError) : bool :=
  match err with
  | ServiceErr _ _ Err => os_IsPermission Err
  | OtherErr _ => false
  end.

(** [func (m *WinServices) Init() error]: the filter field is assigned
    whatever the compilation returns. *)
Definition Init (m : WinServices) : WinServices * option error :=
  let '(f, err) := filter_NewIncludeExcludeFilter (ServiceNames m) [] in
  ({| ServiceNames := ServiceNames m; servicesFilter := f |}, err).

(** The loop of [listServices] over the names. *)
Fixpoint filterLoop (f : string -> bool) (names services : list string)
  : list string :=
  match names with
  | [] => services
  | n :: rest =>
      if f n then filterLoop f rest (services ++ [n])%list
      else filterLoop f rest services
  end.

(** [func (m *WinServices) listServices(scmgr WinServiceManager)
     ([]string, error)].  Without a filter ([Init] was not called) the call
    of [Match] on the first name is a nil dereference. *)
Definition listServices (m : WinServices) : SM (list string * option error) :=
  '(names, err) ← call ListServicesCall (ListServices env);
  match err with
  | Some e =>
      mret ([], Some (ErrorString ("Could not list services: " ++ errorText e)))
  | None =>
      match servicesFilter m, names with
      | Some f, _ => mret (filterLoop f names [], None)
      | None, [] => mret ([], None)
      | None, _ :: _ => crash
      end
  end.

(** The loop of [DisplayNameStartType]: a buffer of [n] bytes, one call of
    [windows.QueryServiceConfig], which sets [n] to the bytes needed; the
    loop ends on success, on an error that is not the insufficient-buffer
    code, and when the size needed does not exceed the buffer.  The type
    assertion [err.(syscall.Errno)] panics on any other error type. *)
Fixpoint queryConfigLoop (fuel : nat) (handle n : Z)
  : SM (string * Z * option error) :=
  match fuel with
  | O => fun _ => NoFuel
  | S fuel' =>
      let b := make_bytes n in
      _ ← (if isEmpty b then crash else mret tt);
      '(config, needed, err) ←
        call (QueryServiceConfigCall handle n)
          (fun t => QueryServiceConfig env t handle n);
      let n := uint32 needed in
      match err with
      | None => mret (fst config, uint32 (snd config), None)
      | Some (Errno code) =>
          if negb (Z.eqb code ERROR_INSUFFICIENT_BUFFER)
          then mret (EmptyString, 0, err)
          else if Z.leb n (uint32 (len b)) then mret (EmptyString, 0, err)
          else queryConfigLoop fuel' handle n
      | Some (ErrorString _) => crash
      end
  end.

(** [func DisplayNameStartType(s *mgr.Service) (string, uint32, error)] *)
Definition DisplayNameStartType (fuel : nat) (handle : Z)
  : SM (string * Z * option error) :=
  queryConfigLoop fuel handle (uint32 1024).

(** [func (m *WinServices) collectServiceInfo(scmgr, serviceName)],
    which returns a [*ServiceInfo] or an error; the deferred
    [srv.Close()] runs on every return after the service was opened.  The
    service is the [*mgr.Service] that the manager of [MgProvider] opens,
    so that the type assertion of [srv] to [*mgr.Service] holds. *)
Definition collectServiceInfo (fuel : nat) (serviceName : string)
  : SM (ServiceInfo + svcError) :=
  '(srv, err) ←
    call (OpenServiceCall serviceName)
      (fun t => OpenService env t serviceName);
  match err with
  | Some e => mret (inr (ServiceErr "could not open service" serviceName e))
  | None =>
      result ←
        ('(srvStatus, err) ← call (QueryCall srv) (fun t => Query env t srv);
         match err with
         | Some e =>
             mret (inr (ServiceErr "could not query service" serviceName e))
         | None =>
             '(displayName, startType, err) ← DisplayNameStartType fuel srv;
             displayName ←
               match err with
               | Some e =>
                   _ ← perform
                         (LogWarn
                            ("Could not get config of service " ++
                             serviceName ++ ": " ++ errorText e));
                   mret ("Could not get config of service " ++ serviceName)
               | None => mret displayName
               end;
             mret (inl {| ServiceName := serviceName;
                          DisplayName := displayName;
                          State := srvStatus;
                          StartUpMode := startType |})
         end);
      _ ← perform (CloseCall srv);
      mret result
  end.

(** The record for a service: [display_name] only when it is not empty. *)
Definition serviceMetric (service : ServiceInfo) : ServiceMetric :=
  let tags : gmap string string :=
    {[ "service_name" := ServiceName service ]} in
  let fields : gmap string Value :=
    <["state" := VInt (State service)]>
    (<["startup_mode" := VInt (StartUpMode service)]> ∅) in
  let fields :=
    if Z.ltb 0 (len (DisplayName service))
    then <["display_name" := VString (DisplayName service)]> fields
    else fields in
  {| measurement := "win_services"; fields := fields; tags := tags |}.

(** The loop of [Gather] over the service names: a service that cannot be
    collected is logged, at debug level for a permission error and at
    error level otherwise, and passed over. *)
Fixpoint gatherLoop (fuel : nat) (serviceNames : list string)
  (acc : list ServiceMetric) : SM (list ServiceMetric) :=
  match serviceNames with
  | [] => mret acc
  | srvName :: rest =>
      r ← collectServiceInfo fuel srvName;
      match r with
      | inr err =>
          _ ← perform (if IsPermission err then LogDebug (Error err)
                       else LogError (Error err));
          gatherLoop fuel rest acc
      | inl service =>
          gatherLoop fuel rest (acc ++ [serviceMetric service])%list
      end
  end.

(** [func (m *WinServices) Gather(acc telegraf.Accumulator) error]; the
    deferred [scmgr.Disconnect()] runs on every return after the
    connection. *)
Definition Gather (fuel : nat) (m : WinServices) (acc : list ServiceMetric)
  : SM (list ServiceMetric * option error) :=
  err ← call ConnectCall (Connect env);
  match err with
  | Some e =>
      mret (acc,
            Some (ErrorString
                    ("Could not open service manager: " ++ errorText e)))
  | None =>
      result ←
        ('(serviceNames, err) ← listServices m;
         match err with
         | Some e => mret (acc, Some e)
         | None =>
             acc ← gatherLoop fuel serviceNames acc;
             mret (acc, None)
         end);
      _ ← perform DisconnectCall;
      mret result
  end.

(** The sizes of the buffers handed to [windows.QueryServiceConfig]. *)
Definition bufferSizes (cs : list Call) : list Z :=
  flat_map (fun c => match c with
                     | QueryServiceConfigCall _ n => [n]
                     | _ => []
                     end) cs.

(** Each size of [sizes] exceeds the one before, the first one [n]. *)
Fixpoint increasingFrom (n : Z) (sizes : list Z) : Prop :=
  match sizes with
  | [] => True
  | m :: rest => n < m /\ increasingFrom m rest
  end.

(** The log entry [Gather] writes for a service it passes over. *)
Definition isFailureLog (c : Call) : bool :=
  match c with
  | LogDebug _ => true
  | LogError _ => true
  | _ => false
  end.

(** A call made for one service or to the logger: not a call to the
    manager as a whole. *)
Definition isPerServiceCall (c : Call) : Prop :=
  match c with
  | ConnectCall => False
  | DisconnectCall => False
  | ListServicesCall => False
  | _ => True
  end.

(** A call about the service [handle] that is not its close. *)
Definition isServiceCall (handle : Z) (c : Call) : Prop :=
  match c with
  | QueryCall h => h = handle
  | QueryServiceConfigCall h _ => h = handle
  | LogWarn _ => True
  | _ => False
  end.

(** A failure log is the text of a [*ServiceErr] for a service that could
    not be opened or queried, at debug level when the wrapped error is a
    permission error and at error level otherwise. *)
Definition isFailureLogOf (c : Call) : Prop :=
  isFailureLog c = true ->
  exists Message Service Err,
    (Message = "could not open service" \/
     Message = "could not query service") /\
    c = (if os_IsPermission Err
         then LogDebug (Error (ServiceErr Message Service Err))
         else LogError (Error (ServiceErr Message Service Err))).

End WithManager.

(** A record about one of the services [listed] that the filter, if there
    is one, matches: measurement [win_services], the single tag
    [service_name], the integer fields [state] and [startup_mode], and no
    other field but [display_name], a text that is not empty. *)
Definition isRecordOfListed (listed : list string)
  (filter : option (string -> bool)) (m : ServiceMetric) : Prop :=
  measurement m = "win_services" /\
  (exists name,
     tags m = {[ "service_name" := name ]} /\ In name listed /\
     forall f, filter = Some f -> f name = true) /\
  (exists state, fields m !! "state" = Some (VInt state)) /\
  (exists mode, fields m !! "startup_mode" = Some (VInt mode)) /\
  match fields m !! "display_name" with
  | None => True
  | Some (VString name) => isEmpty name = false
  | Some _ => False
  end /\
  dom (fields m) ⊆ {[ "state"; "startup_mode"; "display_name" ]}.

End Services.

(** A service manager with four services, and a plugin configured with the
    names of the sample configuration. *)
Module ServiceScenario.

(** The handle the manager gives for a service name. *)
Definition handleOf (name : string) : Z :=
  if String.eqb name "LanmanServer" then 11
  else if String.eqb name "WinRM" then 13
  else 17.

(** [TermService] cannot be opened (access denied); the configuration of
    [LanmanServer] needs 2048 bytes; that of [WinRM] cannot be read. *)
Definition manager : Services.Manager :=
  {| Services.Connect := fun _ => None;
     Services.ListServices := fun _ =>
       (["LanmanServer"; "Spooler"; "TermService"; "WinRM"], None);
     Services.OpenService := fun _ name =>
       if String.eqb name "TermService" then (0, Some (Errno 5))
       else (handleOf name, None);
     Services.Query := fun _ _ => (4, None);
     Services.QueryServiceConfig := fun _ handle size =>
       if Z.eqb handle 13 then ((EmptyString, 0), 0, Some (Errno 1060))
       else if Z.ltb size 2048
       then ((EmptyString, 0), 2048,
             Some (Errno Sample.ERROR_INSUFFICIENT_BUFFER))
       else (("Server", 2), 2048, None) |}.

(** A manager that cannot be reached. *)
Definition unreachable : Services.Manager :=
  {| Services.Connect := fun _ => Some (Errno 5);
     Services.ListServices := Services.ListServices manager;
     Services.OpenService := Services.OpenService manager;
     Services.Query := Services.Query manager;
     Services.QueryServiceConfig := Services.QueryServiceConfig manager |}.

Definition errorText : error -> string := Error Sample.lib.

Definition isPermission (e : error) : bool := isErrno e 5.

(** A filter that matches the names some include pattern matches. *)
Definition newFilter (include exclude : list string)
  : option (string -> bool) * option error :=
  (Some (fun name => existsb (fun p => Sample.Match p name) include), None).

Definition plugin : Services.WinServices :=
  fst (Services.Init newFilter
         {| Services.ServiceNames := ["LanmanServer"; "TermService"; "Win*"];
            Services.servicesFilter := None |}).

Definition Gather (env : Services.Manager) :=
  Services.Gather errorText isPermission env Sample.ERROR_INSUFFICIENT_BUFFER.

Definition collectServiceInfo :=
  Services.collectServiceInfo errorText manager
    Sample.ERROR_INSUFFICIENT_BUFFER.

Definition DisplayNameStartType :=
  Services.DisplayNameStartType manager Sample.ERROR_INSUFFICIENT_BUFFER.

Definition valueOf {A : Type} (o : Services.Result A) (d : A) : A :=
  match o with
  | Services.Done a _ => a
  | _ => d
  end.

Definition traceOf {A : Type} (o : Services.Result A) : list Services.Call :=
  match o with
  | Services.Done _ t => t
  | _ => []
  end.

End ServiceScenario.

(** * Properties *)

Local Open Scope list_scope.

(** ** Glob filters *)

Section FilterFacts.

Variable filepath_Match : string -> string -> bool.

Lemma shouldExclude_matchesAny (ExcludeFields : list string) (field : string) :
  Filter.shouldExclude filepath_Match ExcludeFields field =
  Filter.matchesAny filepath_Match ExcludeFields field.
Proof.
  induction ExcludeFields as [|p rest IH]; simpl; [reflexivity|].
  destruct (filepath_Match p field); simpl; [reflexivity | exact IH].
Qed.

Lemma processFieldLoop_matchesAny (EventFields ExcludeFields : list string)
  (field : string) :
  Filter.processFieldLoop filepath_Match EventFields ExcludeFields field =
  if Filter.matchesAny filepath_Match EventFields field then
    if Filter.matchesAny filepath_Match ExcludeFields field
    then (false, "excluded") else (true, "fields")
  else (false, "excluded").
Proof.
  induction EventFields as [|p rest IH]; simpl; [reflexivity|].
  destruct (filepath_Match p field); simpl.
  - now rewrite shouldExclude_matchesAny.
  - exact IH.
Qed.

(** C2. Classification looks at the tag patterns first: a name some tag
    pattern matches is [(true, "tags")] whatever the exclude patterns say;
    otherwise a name some field pattern matches is [(false, "excluded")]
    when an exclude pattern matches it and [(true, "fields")] when none
    does; a name matched by neither list is [(false, "excluded")]. *)
Theorem shouldProcessField_classification
  (EventTags EventFields ExcludeFields : list string) (field : string) :
  Filter.shouldProcessField filepath_Match EventTags EventFields ExcludeFields
    field =
  if Filter.matchesAny filepath_Match EventTags field then (true, "tags")
  else if Filter.matchesAny filepath_Match EventFields field then
    if Filter.matchesAny filepath_Match ExcludeFields field
    then (false, "excluded") else (true, "fields")
  else (false, "excluded").
Proof.
  induction EventTags as [|p rest IH]; simpl.
  - apply processFieldLoop_matchesAny.
  - destruct (filepath_Match p field); simpl; [reflexivity | exact IH].
Qed.

Lemma shouldExcludeEmptyField_unknown_type (ExcludeEmpty : list string)
  (field fieldType : string) (fieldValue : Value) :
  fieldType <> "string" -> fieldType <> "int" -> fieldType <> "uint32" ->
  Filter.shouldExcludeEmptyField filepath_Match ExcludeEmpty field fieldType
    fieldValue = Some false.
Proof.
  intros Hs Hi Hu.
  apply String.eqb_neq in Hs, Hi, Hu.
  induction ExcludeEmpty as [|p rest IH]; simpl; [reflexivity|].
  rewrite Hs, Hi, Hu. destruct (filepath_Match p field); exact IH.
Qed.

Lemma shouldExcludeEmptyField_true (ExcludeEmpty : list string)
  (field fieldType : string) (fieldValue : Value) :
  Filter.shouldExcludeEmptyField filepath_Match ExcludeEmpty field fieldType
    fieldValue = Some true ->
  Filter.matchesAny filepath_Match ExcludeEmpty field = true /\
  Filter.isZeroOf fieldType fieldValue.
Proof.
  induction ExcludeEmpty as [|p rest IH]; simpl; [discriminate|].
  destruct (filepath_Match p field) eqn:Hm; simpl; [|exact IH].
  destruct (String.eqb fieldType "string") eqn:Es.
  { apply String.eqb_eq in Es. destruct fieldValue as [s|n|n|r]; try discriminate.
    intros H. split; [reflexivity|]. left. split; [exact Es|].
    destruct s; [reflexivity|]. simpl in H. exfalso.
    injection H as H. apply Z.ltb_lt in H. unfold len in *. lia. }
  destruct (String.eqb fieldType "int") eqn:Ei.
  { apply String.eqb_eq in Ei. destruct fieldValue as [s|n|n|r]; try discriminate.
    intros H. injection H as H. apply Z.eqb_eq in H. subst n.
    split; [reflexivity|]. right. left. split; [exact Ei | reflexivity]. }
  destruct (String.eqb fieldType "uint32") eqn:Eu.
  { apply String.eqb_eq in Eu. destruct fieldValue as [s|n|n|r]; try discriminate.
    intros H. injection H as H. apply Z.eqb_eq in H. subst n.
    split; [reflexivity|]. right. right. split; [exact Eu | reflexivity]. }
  intros H. destruct (IH H) as [_ Hz]. split; [reflexivity | exact Hz].
Qed.

(** C9. [shouldExcludeEmptyField] answers [true] only for a name that an
    exclude-empty pattern matches and a value that is the zero value of its
    type (the empty string, the [int] 0, the [uint32] 0); for a field type
    other than these three it answers [false]. *)
Theorem shouldExcludeEmptyField_only_zero (ExcludeEmpty : list string)
  (field fieldType : string) (fieldValue : Value) :
  (Filter.shouldExcludeEmptyField filepath_Match ExcludeEmpty field fieldType
     fieldValue = Some true ->
   Filter.matchesAny filepath_Match ExcludeEmpty field = true /\
   Filter.isZeroOf fieldType fieldValue) /\
  (fieldType <> "string" -> fieldType <> "int" -> fieldType <> "uint32" ->
   Filter.shouldExcludeEmptyField filepath_Match ExcludeEmpty field fieldType
     fieldValue = Some false).
Proof.
  split.
  - apply shouldExcludeEmptyField_true.
  - apply shouldExcludeEmptyField_unknown_type.
Qed.

End FilterFacts.

(** An instance of C9 with the default exclude-empty patterns. *)
Lemma shouldExcludeEmptyField_only_zero_witness :
  (Filter.matchesAny Sample.Match ["*ActivityID"; "UserID"] "UserID" = true /\
   Filter.isZeroOf "string" (VString "")) /\
  Filter.shouldExcludeEmptyField Sample.Match ["*ActivityID"; "UserID"]
    "UserID" "time" (VOther "time") = Some false.
Proof.
  split.
  - apply (proj1 (shouldExcludeEmptyField_only_zero Sample.Match
                    ["*ActivityID"; "UserID"] "UserID" "string" (VString ""))).
    reflexivity.
  - apply (proj2 (shouldExcludeEmptyField_only_zero Sample.Match
                    ["*ActivityID"; "UserID"] "UserID" "time" (VOther "time")));
      discriminate.
Defined.

(** ** The pull, the batch and the poll cycle *)

Ltac run :=
  unfold mbind, M_bind, mret, M_ret, native, getSelf, putSelf, orPanic, panic;
  cbn beta iota.

Lemma after_afterAll (s : State) (c : Call) (cs : list Call) :
  afterAll (after s c) cs = afterAll s (c :: cs).
Proof.
  unfold afterAll, after; simpl. now rewrite <- app_assoc.
Qed.

Lemma afterAll_nil (s : State) : afterAll s [] = s.
Proof.
  destruct s as [w t]; unfold afterAll; simpl. now rewrite app_nil_r.
Qed.

Lemma afterAll_one (s : State) (c : Call) : afterAll s [c] = after s c.
Proof. reflexivity. Qed.

Section EventLogFacts.

Variable lib : Lib.
Variable env : Native.
Variables ERROR_INSUFFICIENT_BUFFER ERROR_NO_MORE_ITEMS : Z.
Variable ERROR_INVALID_OPERATION : Z.

Abbreviation fetchEventHandles :=
  (EventLog.fetchEventHandles env ERROR_NO_MORE_ITEMS ERROR_INVALID_OPERATION).
Abbreviation renderLoop := (EventLog.renderLoop lib env ERROR_INSUFFICIENT_BUFFER).
Abbreviation closeLoop := (EventLog.closeLoop env).
Abbreviation closesSucceed := (EventLog.closesSucceed env).
Abbreviation fetchEvents :=
  (EventLog.fetchEvents lib env ERROR_INSUFFICIENT_BUFFER ERROR_NO_MORE_ITEMS
     ERROR_INVALID_OPERATION).
Abbreviation addEvents := (EventLog.addEvents lib env).
Abbreviation gatherLoop :=
  (EventLog.gatherLoop lib env ERROR_INSUFFICIENT_BUFFER ERROR_NO_MORE_ITEMS
     ERROR_INVALID_OPERATION).
Abbreviation Gather :=
  (EventLog.Gather lib env ERROR_INSUFFICIENT_BUFFER ERROR_NO_MORE_ITEMS
     ERROR_INVALID_OPERATION).
Abbreviation iterates :=
  (EventLog.iterates lib env ERROR_INSUFFICIENT_BUFFER ERROR_NO_MORE_ITEMS
     ERROR_INVALID_OPERATION).
Abbreviation pullReportsInvalidOperation :=
  (EventLog.pullReportsInvalidOperation env ERROR_INVALID_OPERATION).

Lemma isErrno_refl (c : Z) : isErrno (Errno c) c = true.
Proof. simpl. apply Z.eqb_refl. Qed.

(** Whatever the pull answers, [fetchEventHandles] makes exactly one native
    call, [_EvtNext] for five handles. *)
Lemma fetchEventHandles_one_call (subsHandle : Z) (s : State) :
  fetchEventHandles subsHandle s = Panics \/
  exists r, fetchEventHandles subsHandle s =
            Returns r (after s (EvtNextCall subsHandle 5)).
Proof.
  unfold EventLog.fetchEventHandles, EventLog.eventsNumber. run.
  destruct (_EvtNext env (history s) subsHandle 5) as [[written evtReturned] err].
  destruct err as [e|].
  - right. destruct (isErrno e ERROR_INVALID_OPERATION && _); eauto.
  - destruct (Z.leb (uint32 evtReturned) 5); eauto.
Qed.

Lemma fetchEventHandles_end (s : State) :
  pullReportsInvalidOperation s ->
  fetchEventHandles (subscription (self s)) s =
  Returns ([], Some (Errno ERROR_NO_MORE_ITEMS))
    (after s (EvtNextCall (subscription (self s)) 5)).
Proof.
  intros (written & evtReturned & Hpull & Hzero).
  unfold EventLog.eventsNumber in Hpull.
  unfold EventLog.fetchEventHandles, EventLog.eventsNumber. run.
  rewrite Hpull, Hzero, isErrno_refl. reflexivity.
Qed.

Lemma fetchEvents_end (s : State) :
  pullReportsInvalidOperation s ->
  fetchEvents (subscription (self s)) s =
  Returns ([], Some (Errno ERROR_NO_MORE_ITEMS))
    (after s (EvtNextCall (subscription (self s)) 5)).
Proof.
  intros H. unfold EventLog.fetchEvents. run.
  rewrite (fetchEventHandles_end s H). reflexivity.
Qed.

Lemma gatherLoop_end (fuel : nat) (acc : list Metric) (s : State) :
  pullReportsInvalidOperation s ->
  gatherLoop (S fuel) acc s =
  Returns (acc, None) (after s (EvtNextCall (subscription (self s)) 5)).
Proof.
  intros H. simpl. run.
  rewrite (fetchEvents_end s H), isErrno_refl. reflexivity.
Qed.

Lemma gatherLoop_iterates (k : nat) (acc : list Metric) (s : State)
  (acc' : list Metric) (s' : State) :
  iterates k acc s acc' s' ->
  forall fuel, gatherLoop (k + fuel) acc s = gatherLoop fuel acc' s'.
Proof.
  induction 1 as [acc s | k acc s events s1 acc1 s2 acc' s' Hf Ha _ IH];
    intros fuel; [reflexivity|].
  change (S k + fuel)%nat with (S (k + fuel)). simpl. run.
  rewrite Hf, Ha. apply IH.
Qed.

Lemma Gather_subscribed (fuel : nat) (acc : list Metric) (s : State) :
  subscription (self s) <> 0 ->
  Gather fuel acc s = gatherLoop fuel acc s.
Proof.
  intros H. unfold EventLog.Gather. run.
  apply Z.eqb_neq in H. rewrite H. reflexivity.
Qed.

Lemma Gather_subscribing (fuel : nat) (acc : list Metric) (s : State)
  (subsHandle : Z) (s1 : State) :
  subscription (self s) = 0 ->
  EventLog.evtSubscribe lib env (EventlogName (self s)) (Query (self s)) s =
    Returns (subsHandle, None) s1 ->
  Gather fuel acc s =
  gatherLoop fuel acc
    {| self := set_subscription (self s) subsHandle; history := history s1 |}.
Proof.
  intros H0 Hsub. unfold EventLog.Gather. run.
  rewrite H0. simpl. run. rewrite Hsub. reflexivity.
Qed.

(** C4. A poll cycle whose pulls return batches [k] times and then report
    the invalid-operation condition with zero events returned ends there:
    the loop of [Gather] returns no error, and the accumulator holds what
    the earlier pulls added, nothing for the last one.  So does [Gather]
    itself, whether the subscription exists already or is created, without
    error, at the start of the cycle. *)
Theorem Gather_end_of_backlog (k fuel : nat) (acc : list Metric) (s : State)
  (acc' : list Metric) (s' : State) :
  iterates k acc s acc' s' ->
  pullReportsInvalidOperation s' ->
  let final := after s' (EvtNextCall (subscription (self s')) 5) in
  gatherLoop (k + S fuel) acc s = Returns (acc', None) final /\
  (subscription (self s) <> 0 ->
   Gather (k + S fuel) acc s = Returns (acc', None) final) /\
  (forall s0 s1,
     subscription (self s0) = 0 ->
     EventLog.evtSubscribe lib env (EventlogName (self s0)) (Query (self s0))
       s0 = Returns (subscription (self s), None) s1 ->
     s = {| self := set_subscription (self s0) (subscription (self s));
            history := history s1 |} ->
     Gather (k + S fuel) acc s0 = Returns (acc', None) final).
Proof.
  intros Hit Hend final.
  assert (Hloop : gatherLoop (k + S fuel) acc s = Returns (acc', None) final).
  { rewrite (gatherLoop_iterates k acc s acc' s' Hit).
    apply gatherLoop_end, Hend. }
  split; [exact Hloop|]. split.
  - intros Hsub. rewrite Gather_subscribed by exact Hsub. exact Hloop.
  - intros s0 s1 H0 Hsub Hs.
    rewrite (Gather_subscribing _ _ _ _ _ H0 Hsub), <- Hs. exact Hloop.
Qed.

Lemma closeLoop_all (eventHandles : list Z) (s : State) :
  closesSucceed (history s) eventHandles = true ->
  closeLoop eventHandles s =
  Returns None (afterAll s (map EvtCloseCall eventHandles)).
Proof.
  revert s. induction eventHandles as [|h rest IH]; intros s Hok; simpl.
  - run. now rewrite afterAll_nil.
  - simpl in Hok. run.
    destruct (_EvtClose env (history s) h) as [e|]; [discriminate|].
    rewrite (IH (after s (EvtCloseCall h)) Hok). now rewrite after_afterAll.
Qed.

Lemma closeLoop_first_failure (before : list Z) (h : Z) (rest : list Z)
  (e : error) (s : State) :
  closesSucceed (history s) before = true ->
  _EvtClose env (history s ++ map EvtCloseCall before) h = Some e ->
  closeLoop (before ++ h :: rest) s =
  Returns (Some e) (afterAll s (map EvtCloseCall (before ++ [h]))).
Proof.
  revert s. induction before as [|b before IH]; intros s Hok Hfail; simpl.
  - run. simpl in Hfail. rewrite app_nil_r in Hfail. rewrite Hfail.
    reflexivity.
  - simpl in Hok. run.
    destruct (_EvtClose env (history s) b) as [e'|]; [discriminate|].
    rewrite (IH (after s (EvtCloseCall b)) Hok).
    + now rewrite after_afterAll.
    + simpl. rewrite <- app_assoc. exact Hfail.
Qed.

(** [fetchEvents] is the pull, then the render loop, then the close loop. *)
Lemma fetchEvents_phases (subsHandle : Z) (s : State) (eventHandles : list Z)
  (s0 : State) (events : list Event) (s1 : State) :
  fetchEventHandles subsHandle s = Returns (eventHandles, None) s0 ->
  renderLoop eventHandles [] s0 = Returns events s1 ->
  fetchEvents subsHandle s =
  match closeLoop eventHandles s1 with
  | Returns err s2 => Returns (events, err) s2
  | Panics => Panics
  | OutOfFuel => OutOfFuel
  end.
Proof.
  intros Hpull Hrender. unfold EventLog.fetchEvents. run.
  rewrite Hpull, Hrender. reflexivity.
Qed.

(** C6, amended. Every pull asks [_EvtNext] for exactly five handles.  Once
    the render loop has gone through the whole batch, whatever each render
    returned, the handles of the batch are closed in order; when no close
    fails, every handle of the batch is closed and [fetchEvents] returns the
    rendered events without error. *)
Theorem fetchEvents_closes_batch (subsHandle : Z) (s : State) :
  (fetchEventHandles subsHandle s = Panics \/
   exists r, fetchEventHandles subsHandle s =
             Returns r (after s (EvtNextCall subsHandle 5))) /\
  (forall eventHandles s0 events s1,
     fetchEventHandles subsHandle s = Returns (eventHandles, None) s0 ->
     renderLoop eventHandles [] s0 = Returns events s1 ->
     closesSucceed (history s1) eventHandles = true ->
     fetchEvents subsHandle s =
     Returns (events, None) (afterAll s1 (map EvtCloseCall eventHandles))).
Proof.
  split; [apply fetchEventHandles_one_call|].
  intros eventHandles s0 events s1 Hpull Hrender Hclose.
  rewrite (fetchEvents_phases _ _ _ _ _ _ Hpull Hrender).
  now rewrite (closeLoop_all _ _ Hclose).
Qed.

(** C10, amended. When the close of a handle of the batch fails, the handles
    after it are not closed and [fetchEvents] returns the close error with
    the events rendered from the batch; [Gather] adds none of these events
    and ends the poll cycle, returning the close error, or no error when
    the close error is [ERROR_NO_MORE_ITEMS]. *)
Theorem fetchEvents_close_failure (s : State) (before : list Z) (h : Z)
  (rest : list Z) (s0 : State) (events : list Event) (s1 : State)
  (e : error) :
  fetchEventHandles (subscription (self s)) s =
    Returns (before ++ h :: rest, None) s0 ->
  renderLoop (before ++ h :: rest) [] s0 = Returns events s1 ->
  closesSucceed (history s1) before = true ->
  _EvtClose env (history s1 ++ map EvtCloseCall before) h = Some e ->
  fetchEvents (subscription (self s)) s =
    Returns (events, Some e) (afterAll s1 (map EvtCloseCall (before ++ [h]))) /\
  forall fuel acc,
    gatherLoop (S fuel) acc s =
    Returns (acc, if isErrno e ERROR_NO_MORE_ITEMS then None else Some e)
      (afterAll s1 (map EvtCloseCall (before ++ [h]))).
Proof.
  intros Hpull Hrender Hok Hfail.
  assert (Hfetch : fetchEvents (subscription (self s)) s =
    Returns (events, Some e) (afterAll s1 (map EvtCloseCall (before ++ [h])))).
  { rewrite (fetchEvents_phases _ _ _ _ _ _ Hpull Hrender).
    now rewrite (closeLoop_first_failure before h rest e s1 Hok Hfail). }
  split; [exact Hfetch|].
  intros fuel acc. simpl. run. rewrite Hfetch.
  destruct (isErrno e ERROR_NO_MORE_ITEMS); reflexivity.
Qed.

End EventLogFacts.

(** ** Sized-buffer native calls *)

Lemma length_string_of_list_ascii (l : list ascii) :
  String.length (string_of_list_ascii l) = length l.
Proof. induction l as [|c l IH]; simpl; [reflexivity | now rewrite IH]. Qed.

Lemma len_make_bytes (k : Z) : 0 <= k -> len (make_bytes k) = k.
Proof.
  intros Hk. unfold len, make_bytes.
  rewrite length_string_of_list_ascii, repeat_length. lia.
Qed.

Lemma isEmpty_len (b : string) : isEmpty b = true <-> len b = 0.
Proof.
  unfold len. destruct b; simpl; split; intros H; try reflexivity;
    try discriminate; lia.
Qed.

Lemma isEmpty_make_bytes (k : Z) : 0 < k -> isEmpty (make_bytes k) = false.
Proof.
  intros Hk. destruct (isEmpty (make_bytes k)) eqn:E; [|reflexivity].
  apply isEmpty_len in E. rewrite len_make_bytes in E; lia.
Qed.

Lemma uint32_range (x : Z) : 0 <= uint32 x < 2 ^ 32.
Proof. unfold uint32. apply Z.mod_pos_bound. lia. Qed.

Lemma uint32_small (x : Z) : 0 <= x < 2 ^ 32 -> uint32 x = x.
Proof. intros H. unfold uint32. now apply Z.mod_small. Qed.

Lemma uint32_double_even (x : Z) : uint32 (uint32 (x * 2) / 2) * 2 = uint32 (x * 2).
Proof.
  assert (Hr := uint32_range (x * 2)).
  assert (He : uint32 (x * 2) = 2 * (x mod 2 ^ 31)).
  { unfold uint32. replace (x * 2) with (2 * x) by lia.
    change (2 ^ 32) with (2 * 2 ^ 31).
    rewrite Zmult_mod_distr_l. reflexivity. }
  rewrite He in *. rewrite (Z.mul_comm 2), Z.div_mul by lia.
  rewrite uint32_small; lia.
Qed.

Lemma length_substring (s : string) (n m : nat) :
  (n + m <= String.length s)%nat -> String.length (substring n m s) = m.
Proof.
  revert n m. induction s as [|c s IH]; intros n m H; simpl in *.
  - destruct n, m; simpl; lia.
  - destruct n as [|n].
    + destruct m as [|m]; simpl; [reflexivity|]. rewrite IH; lia.
    + apply IH. lia.
Qed.

Lemma length_append (a b : string) :
  String.length (a ++ b)%string = (String.length a + String.length b)%nat.
Proof. induction a as [|c a IH]; simpl; [reflexivity | now rewrite IH]. Qed.

(** A native call does not change the length of the buffer it writes to. *)
Lemma len_overwrite (b written : string) : len (overwrite b written) = len b.
Proof.
  unfold len, overwrite. f_equal.
  set (n := String.length b). set (k := String.length written).
  apply length_substring. rewrite length_append. fold k.
  destruct (Nat.le_gt_cases k n) as [Hle|Hgt].
  - rewrite length_substring; unfold n in *; lia.
  - lia.
Qed.

Lemma sliceTo_Some (b : string) (n : Z) :
  0 <= n <= len b -> exists slice, sliceTo b n = Some slice.
Proof.
  intros [H0 H1]. unfold sliceTo.
  apply Z.leb_le in H0, H1. rewrite H0, H1. simpl. eauto.
Qed.

Lemma sameSystem_refl (a : Event) : sameSystem a a.
Proof. unfold sameSystem. repeat split. Qed.

Lemma sameSystem_trans (a b c : Event) :
  sameSystem a b -> sameSystem b c -> sameSystem a c.
Proof.
  unfold sameSystem. intros H1 H2.
  repeat match goal with H : _ /\ _ |- _ => destruct H end.
  repeat split; congruence.
Qed.

Section SizedCalls.

Variable lib : Lib.
Variable env : Native.
Variable ERROR_INSUFFICIENT_BUFFER : Z.

Abbreviation formatEventString :=
  (EventLog.formatEventString lib env ERROR_INSUFFICIENT_BUFFER).
Abbreviation openPublisherMetadata := (EventLog.openPublisherMetadata lib env).
Abbreviation populate := (EventLog.populate lib env ERROR_INSUFFICIENT_BUFFER).
Abbreviation renderEvent :=
  (EventLog.renderEvent lib env ERROR_INSUFFICIENT_BUFFER).
Abbreviation wellSized := (EventLog.wellSized env ERROR_INSUFFICIENT_BUFFER).

(** [formatEventString] as a function of the state. *)
Lemma formatEventString_eq (messageFlag : EvtFormatMessageFlag)
  (eventHandle publisherHandle : Z) (s : State) :
  formatEventString messageFlag eventHandle publisherHandle s =
  let call := EvtFormatMessageCall publisherHandle eventHandle messageFlag in
  let '(_, used1, err1) :=
    _EvtFormatMessage env (history s) publisherHandle eventHandle messageFlag
      0 in
  let s1 := after s (call 0) in
  if EventLog.isOtherThan err1 ERROR_INSUFFICIENT_BUFFER
  then Returns (EmptyString, err1) s1
  else
    let buffer := make_bytes (uint32 (used1 * 2)) in
    if isEmpty buffer then Panics
    else
      let size := uint32 (len buffer / 2) in
      let '(written, used2, err2) :=
        _EvtFormatMessage env (history s1) publisherHandle eventHandle
          messageFlag size in
      let s2 := after s1 (call size) in
      match err2 with
      | Some e => Returns (EmptyString, Some e) s2
      | None =>
          match sliceTo (overwrite buffer written) (uint32 (used2 * 2)) with
          | None => Panics
          | Some slice =>
              let '(result, err) := DecodeUTF16 lib slice in
              match err with
              | Some e => Returns (EmptyString, Some e) s2
              | None => Returns (formatted messageFlag result, None) s2
              end
          end
      end.
Proof.
  unfold EventLog.formatEventString, EventLog.addressOfFirst. run. cbv zeta.
  destruct (_EvtFormatMessage env (history s) publisherHandle eventHandle
              messageFlag 0) as [[w1 used1] err1].
  destruct (EventLog.isOtherThan err1 ERROR_INSUFFICIENT_BUFFER);
    [reflexivity|].
  destruct (isEmpty (make_bytes (uint32 (used1 * 2)))); [reflexivity|].
  cbn beta iota.
  destruct (_EvtFormatMessage env _ publisherHandle eventHandle messageFlag _)
    as [[written used2] err2].
  destruct err2 as [e|]; [reflexivity|].
  destruct (sliceTo _ _) as [slice|]; [|reflexivity].
  run.
  destruct (DecodeUTF16 lib slice) as [result [e|]]; reflexivity.
Qed.

(** [formatEventString] returns or, when the native call breaks the
    contract [wellSized], panics. *)
Lemma formatEventString_outcome (messageFlag : EvtFormatMessageFlag)
  (eventHandle publisherHandle : Z) (s : State) :
  match formatEventString messageFlag eventHandle publisherHandle s with
  | Returns _ _ => True
  | Panics => ~ wellSized
  | OutOfFuel => False
  end.
Proof.
  rewrite formatEventString_eq. cbv zeta.
  destruct (_EvtFormatMessage env (history s) publisherHandle eventHandle
              messageFlag 0) as [[w1 used1] err1] eqn:E1.
  destruct (EventLog.isOtherThan err1 ERROR_INSUFFICIENT_BUFFER) eqn:Eo;
    [exact I|].
  destruct (isEmpty (make_bytes (uint32 (used1 * 2)))) eqn:Ee.
  { intros Hw. destruct (Hw _ _ _ _ _ _ _ _ E1) as [Hp _].
    specialize (Hp eq_refl Eo).
    rewrite isEmpty_make_bytes in Ee by exact Hp. discriminate. }
  match goal with
  | |- context [_EvtFormatMessage env (history (after ?a ?b)) ?p ?h ?f ?z] =>
      destruct (_EvtFormatMessage env (history (after a b)) p h f z)
        as [[written used2] err2] eqn:E2
  end.
  destruct err2 as [e|]; [exact I|].
  destruct (sliceTo _ _) as [slice|] eqn:Es.
  { destruct (DecodeUTF16 lib slice) as [result [e|]]; exact I. }
  intros Hw. destruct (Hw _ _ _ _ _ _ _ _ E2) as [_ Hfit].
  assert (Hr := uint32_range (used1 * 2)).
  assert (Hl : len (make_bytes (uint32 (used1 * 2))) = uint32 (used1 * 2))
    by (apply len_make_bytes; lia).
  assert (Hpos : 0 < uint32 (used1 * 2)).
  { destruct (Z.eq_dec (uint32 (used1 * 2)) 0) as [Hz|Hz]; [|lia].
    rewrite Hz in Ee. discriminate. }
  rewrite Hl in *.
  assert (Hd := uint32_double_even used1).
  specialize (Hfit ltac:(lia) eq_refl).
  assert (Hu := uint32_range (used2 * 2)).
  destruct (sliceTo_Some (overwrite (make_bytes (uint32 (used1 * 2))) written)
              (uint32 (used2 * 2))) as [slice Hs].
  { rewrite len_overwrite, Hl. lia. }
  rewrite Hs in Es. discriminate.
Qed.

Lemma populate_outcome (messageFlag : EvtFormatMessageFlag)
  (eventHandle publisherHandle : Z) (set : Event -> string -> Event)
  (post : string -> string) (event : Event) (s : State) :
  (forall e v, sameSystem e (set e v)) ->
  match populate messageFlag eventHandle publisherHandle set post event s with
  | Returns event' _ => sameSystem event event'
  | Panics => ~ wellSized
  | OutOfFuel => False
  end.
Proof.
  intros Hset. unfold EventLog.populate. run.
  pose proof (formatEventString_outcome messageFlag eventHandle
                publisherHandle s) as H.
  destruct (formatEventString messageFlag eventHandle publisherHandle s)
    as [[v [e|]] s'| |]; try exact H.
  - apply sameSystem_refl.
  - apply Hset.
Qed.

Lemma sameSystem_set_Keywords e v : sameSystem e (set_Keywords e v).
Proof. unfold sameSystem. repeat split. Qed.
Lemma sameSystem_set_Message e v : sameSystem e (set_Message e v).
Proof. unfold sameSystem. repeat split. Qed.
Lemma sameSystem_set_LevelText e v : sameSystem e (set_LevelText e v).
Proof. unfold sameSystem. repeat split. Qed.
Lemma sameSystem_set_TaskText e v : sameSystem e (set_TaskText e v).
Proof. unfold sameSystem. repeat split. Qed.
Lemma sameSystem_set_OpcodeText e v : sameSystem e (set_OpcodeText e v).
Proof. unfold sameSystem. repeat split. Qed.

(** One step of the chain of [resolveText]. *)
Ltac populate_step lemma :=
  match goal with
  | |- context [populate ?f ?h ?p ?set ?post ?ev ?s] =>
      let H := fresh "Hpop" in
      pose proof (populate_outcome f h p set post ev s lemma) as H;
      destruct (populate f h p set post ev s) as [? ?| |];
      [cbn beta iota | exact H | exact H]
  end.

(** Text resolution never returns an error and never touches the System
    fields; it panics only when a formatting call breaks its contract. *)
Lemma resolveText_outcome (eventHandle publisherHandle : Z) (event : Event)
  (s : State) :
  match EventLog.resolveText lib env ERROR_INSUFFICIENT_BUFFER eventHandle
          publisherHandle event s with
  | Returns (event', err) _ => err = None /\ sameSystem event event'
  | Panics => ~ wellSized
  | OutOfFuel => False
  end.
Proof.
  unfold EventLog.resolveText. run.
  populate_step sameSystem_set_Keywords.
  populate_step sameSystem_set_Message.
  populate_step sameSystem_set_LevelText.
  populate_step sameSystem_set_TaskText.
  populate_step sameSystem_set_OpcodeText.
  split; [reflexivity|].
  repeat (eapply sameSystem_trans; [eassumption|]). apply sameSystem_refl.
Qed.

Lemma openPublisherMetadata_returns (session : Z) (publisherName : string)
  (lang : Z) (s : State) :
  exists r s', openPublisherMetadata session publisherName lang s =
               Returns r s'.
Proof.
  unfold EventLog.openPublisherMetadata.
  destruct (UTF16PtrFromString lib publisherName) as [e|]; run; [eauto|].
  destruct (_EvtOpenPublisherMetadata env (history s) publisherName lang)
    as [h [e|]]; eauto.
Qed.

(** [renderEvent] as a function of the state. *)
Lemma renderEvent_eq (eventHandle : Z) (s : State) :
  renderEvent eventHandle s =
  if isEmpty (buf (self s)) then Panics
  else
    let '(written, used, err) :=
      _EvtRender env (history s) eventHandle (uint32 (len (buf (self s)))) in
    let s1 := rendered s eventHandle written in
    match err with
    | Some e => Returns (Event_zero, Some e) s1
    | None =>
        match sliceTo (overwrite (buf (self s)) written) (uint32 used) with
        | None => Panics
        | Some slice =>
            let '(eventXML, err) := DecodeUTF16 lib slice in
            match err with
            | Some e => Returns (Event_zero, Some e) s1
            | None =>
                let '(event, err) := xml_Unmarshal lib eventXML Event_zero in
                match err with
                | Some _ => Returns (event, None) s1
                | None =>
                    match openPublisherMetadata 0 (Name (Source event))
                            (Locale (self s)) s1 with
                    | Returns (_, Some _) s2 => Returns (event, None) s2
                    | Returns (publisherHandle, None) s2 =>
                        EventLog.resolveText lib env ERROR_INSUFFICIENT_BUFFER
                          eventHandle publisherHandle event s2
                    | Panics => Panics
                    | OutOfFuel => OutOfFuel
                    end
                end
            end
        end
    end.
Proof.
  unfold EventLog.renderEvent, EventLog.addressOfFirst. run. cbv zeta.
  destruct (isEmpty (buf (self s))); [reflexivity|]. cbn beta iota.
  destruct (_EvtRender env (history s) eventHandle _) as [[written used] err].
  destruct err as [e|]; [reflexivity|]. cbn beta iota.
  destruct (sliceTo _ _) as [slice|]; [|reflexivity]. run.
  destruct (DecodeUTF16 lib slice) as [eventXML [e|]]; [reflexivity|].
  destruct (xml_Unmarshal lib eventXML Event_zero) as [event [e|]];
    [reflexivity|].
  change (openPublisherMetadata 0 (Name (Source event)) (Locale (self s))
            (rendered s eventHandle written))
    with (openPublisherMetadata 0 (Name (Source event)) (Locale (self s))
            {| self := set_buf (self s) (overwrite (buf (self s)) written);
               history :=
                 history
                   (after s
                      (EvtRenderCall eventHandle
                         (uint32 (len (buf (self s)))))) |}).
  destruct (openPublisherMetadata 0 (Name (Source event)) (Locale (self s)) _)
    as [[h [e|]] s2| |]; reflexivity.
Qed.

(** X25. What [renderEvent] does keep of an event whose native render and
    UTF-16 decoding succeed.  After a failed XML decoding it returns the
    event as far as it was decoded, and no error.  After a failed opening
    of the publisher metadata it returns the decoded event as it is, text
    fields (Message, LevelText, TaskText, OpcodeText, Keywords) included,
    and no error.  Whenever it returns, it returns no error and an event
    with the decoded System fields.  It does return under the condition
    [wellSized]: no formatting probe reports a size of zero, and no
    successful formatting call reports more than its buffer holds. *)
Theorem renderEvent_keeps_event (eventHandle : Z) (s : State)
  (written : string) (used : Z) (slice eventXML : string) (event : Event)
  (xmlErr : option error) :
  isEmpty (buf (self s)) = false ->
  _EvtRender env (history s) eventHandle (uint32 (len (buf (self s)))) =
    (written, used, None) ->
  sliceTo (overwrite (buf (self s)) written) (uint32 used) = Some slice ->
  DecodeUTF16 lib slice = (eventXML, None) ->
  xml_Unmarshal lib eventXML Event_zero = (event, xmlErr) ->
  (xmlErr <> None ->
   renderEvent eventHandle s =
   Returns (event, None) (rendered s eventHandle written)) /\
  (xmlErr = None ->
   forall h e s2,
     openPublisherMetadata 0 (Name (Source event)) (Locale (self s))
       (rendered s eventHandle written) = Returns (h, Some e) s2 ->
     renderEvent eventHandle s = Returns (event, None) s2) /\
  (forall r s',
     renderEvent eventHandle s = Returns r s' ->
     snd r = None /\ sameSystem event (fst r)) /\
  (wellSized ->
   exists event' s',
     renderEvent eventHandle s = Returns (event', None) s' /\
     sameSystem event event').
Proof.
  intros Hbuf Hrender Hslice Hdecode Hxml.
  rewrite renderEvent_eq, Hbuf, Hrender. cbn beta iota zeta.
  rewrite Hslice, Hdecode, Hxml.
  destruct xmlErr as [e|].
  { split; [reflexivity|]. split; [discriminate|]. split.
    - intros r s' H. injection H as <- _.
      split; [reflexivity | apply sameSystem_refl].
    - intros _. exists event, (rendered s eventHandle written).
      split; [reflexivity | apply sameSystem_refl]. }
  split; [congruence|].
  destruct (openPublisherMetadata_returns 0 (Name (Source event))
              (Locale (self s)) (rendered s eventHandle written))
    as ([h err] & s2 & Hopen).
  rewrite Hopen. destruct err as [e|].
  { split; [|split].
    - intros _ h' e' s2' H. now injection H as _ _ <-.
    - intros r s' H. injection H as <- _.
      split; [reflexivity | apply sameSystem_refl].
    - intros _. exists event, s2. split; [reflexivity | apply sameSystem_refl]. }
  pose proof (resolveText_outcome eventHandle h event s2) as Hres.
  destruct (EventLog.resolveText lib env ERROR_INSUFFICIENT_BUFFER eventHandle
              h event s2) as [[event' err] s3| |].
  - destruct Hres as [-> Hsame]. split; [|split].
    + intros _ h' e' s2' H. discriminate.
    + intros r s' H. injection H as <- _. split; [reflexivity | exact Hsame].
    + intros _. exists event', s3. split; [reflexivity | exact Hsame].
  - split; [|split].
    + intros _ h' e' s2' H. discriminate.
    + intros r s' H. discriminate.
    + intros Hw. contradiction.
  - contradiction.
Qed.

(** C3, amended. A message-formatting call of any kind first probes the
    native call with no buffer.  A probe error other than the
    insufficient-buffer code is returned as it is.  Otherwise, for a
    reported size [n] with [0 < n < 2^31], a buffer of exactly [n] 16-bit
    units is allocated and the native call is made exactly once more; when
    that second call fails, its error is returned as it is.  Event
    rendering makes one native call with the buffer of the receiver and
    returns any error of it, the insufficient-buffer code included, as it
    is: no reallocation, no second call. *)
Theorem sized_calls_protocol :
  (forall messageFlag eventHandle publisherHandle s w1 n err1,
     _EvtFormatMessage env (history s) publisherHandle eventHandle
       messageFlag 0 = (w1, n, err1) ->
     let call := EvtFormatMessageCall publisherHandle eventHandle
                   messageFlag in
     (EventLog.isOtherThan err1 ERROR_INSUFFICIENT_BUFFER = true ->
      formatEventString messageFlag eventHandle publisherHandle s =
      Returns (EmptyString, err1) (after s (call 0))) /\
     (EventLog.isOtherThan err1 ERROR_INSUFFICIENT_BUFFER = false ->
      0 < n < 2 ^ 31 ->
      (forall w2 used2 e,
         _EvtFormatMessage env (history s ++ [call 0]) publisherHandle
           eventHandle messageFlag n = (w2, used2, Some e) ->
         formatEventString messageFlag eventHandle publisherHandle s =
         Returns (EmptyString, Some e) (afterAll s [call 0; call n])) /\
      (forall r s',
         formatEventString messageFlag eventHandle publisherHandle s =
           Returns r s' ->
         s' = afterAll s [call 0; call n]))) /\
  (forall eventHandle s written used e,
     isEmpty (buf (self s)) = false ->
     _EvtRender env (history s) eventHandle (uint32 (len (buf (self s)))) =
       (written, used, Some e) ->
     renderEvent eventHandle s =
     Returns (Event_zero, Some e) (rendered s eventHandle written)).
Proof.
  split.
  - intros messageFlag eventHandle publisherHandle s w1 n err1 Hprobe call.
    rewrite formatEventString_eq, Hprobe. cbv zeta. split.
    + intros ->. reflexivity.
    + intros -> Hn.
      assert (H2n : uint32 (n * 2) = n * 2) by (apply uint32_small; lia).
      assert (Hsize : uint32 (len (make_bytes (uint32 (n * 2))) / 2) = n).
      { rewrite H2n, len_make_bytes, Z.div_mul by lia.
        apply uint32_small; lia. }
      rewrite Hsize, isEmpty_make_bytes by lia.
      assert (Hafter : after (after s (EvtFormatMessageCall publisherHandle
                                         eventHandle messageFlag 0))
                         (EvtFormatMessageCall publisherHandle eventHandle
                            messageFlag n) =
                       afterAll s [call 0; call n]).
      { rewrite <- afterAll_one, after_afterAll. reflexivity. }
      rewrite Hafter. split.
      * intros w2 used2 e Hretry. simpl. unfold call in Hretry.
        rewrite Hretry. reflexivity.
      * intros r s'.
        destruct (_EvtFormatMessage env _ publisherHandle eventHandle
                    messageFlag n) as [[w2 used2] [e|]].
        { intros H. now injection H as _ <-. }
        destruct (sliceTo _ _) as [slice|]; [|discriminate].
        destruct (DecodeUTF16 lib slice) as [result [e|]];
          intros H; now injection H as _ <-.
  - intros eventHandle s written used e Hbuf Hrender.
    rewrite renderEvent_eq, Hbuf, Hrender. reflexivity.
Qed.

End SizedCalls.

(** ** The scenarios of the specification, run on the code *)

Ltac not_in_history :=
  let H := fresh "H" in
  intros H; repeat (destruct H as [H|H]; [discriminate H|]); exact H.

(** C1 (the code departs from the claim). With tag patterns [["Level*"]],
    field patterns [["*"]] and no exclude pattern, [shouldProcessField]
    classifies [Level] and [LevelText] as tags, and the event is rendered
    with [Level = 2] and [LevelText = "Error"]; yet the record [Gather]
    adds has the single tag [eventlog_name], neither [Level] nor
    [LevelText], and carries the level among its seven fixed fields. *)
Theorem Gather_ignores_tag_patterns :
  let w := Sample.config true true 256 in
  let s := Sample.start w in
  let run := Sample.Gather Sample.oneEvent 2 [] s in
  let m := Sample.firstMetric run in
  (EventTags w = ["Level*"] /\ EventFields w = ["*"] /\
   ExcludeFields w = [] /\ ExcludeEmpty w = []) /\
  (Filter.shouldProcessField Sample.Match (EventTags w) (EventFields w)
     (ExcludeFields w) "Level" = (true, "tags") /\
   Filter.shouldProcessField Sample.Match (EventTags w) (EventFields w)
     (ExcludeFields w) "LevelText" = (true, "tags")) /\
  map (fun event => (Level event, LevelText event))
    (fst (Sample.valueOf (Sample.fetchEvents Sample.oneEvent 7 s) ([], None)))
    = [(2, "Error")] /\
  Sample.emitted run = Some ([m], None) /\
  map_to_list (tags m) = [("eventlog_name", "Application")] /\
  tags m !! "Level" = None /\
  tags m !! "LevelText" = None /\
  fields m !! "level" = Some (VInt 2) /\
  fields m !! "LevelText" = None /\
  size (fields m) = 7%nat.
Proof. vm_compute. repeat split. Qed.

(** C7 (the code departs from the claim). With [timestamp_from_event] set to
    false and an event whose creation time parses, the record [Gather] adds
    is stamped with the parsed creation time; the clock is not read. *)
Theorem Gather_ignores_timestamp_from_event :
  let w := Sample.config false true 256 in
  let s := Sample.start w in
  let run := Sample.Gather Sample.oneEvent 2 [] s in
  let m := Sample.firstMetric run in
  TimeStampFromEvent w = false /\
  Sample.emitted run = Some ([m], None) /\
  time_Parse Sample.lib RFC3339Nano "2020-01-01T00:00:00.000000000Z" =
    (1577836800000000000, None) /\
  timestamp m = 1577836800000000000 /\
  time_Now (Sample.scripted Sample.oneEvent) (history s) =
    1600000000000000000 /\
  ~ In NowCall (history (Sample.stateOf run s)).
Proof. vm_compute. repeat split. not_in_history. Qed.

(** C8 (the code departs from the claim). With [process_eventdata] set to
    false, the [description] field of the record [Gather] adds still holds
    the flattened values of the EventData section. *)
Theorem description_ignores_process_eventdata :
  let w := Sample.config true false 256 in
  let s := Sample.start w in
  let run := Sample.Gather Sample.oneEvent 2 [] s in
  let m := Sample.firstMetric run in
  ProcessEventData w = false /\
  Sample.emitted run = Some ([m], None) /\
  map FieldValue
    (fst (UnrollXMLFields Sample.lib
            (InnerXML (EventData_ Sample.appEvent)) ∅ "_")) =
    ["disk full"; "C:"] /\
  fields m !! "description" = Some (VString "disk full|C:").
Proof. vm_compute. repeat split. Qed.

(** C3, the claim as stated fails for event rendering. The receiver has the
    16384-byte buffer of [init]; the native render call reports the
    insufficient-buffer code and a required size of 40000 bytes.
    [renderEvent] returns that error after this single call: no call with
    a buffer of 40000 bytes follows. *)
Lemma renderEvent_insufficient_buffer_not_retried :
  let s := Sample.start (Sample.config true true 16384) in
  let run := Sample.renderEvent Sample.largeEvent 101 s in
  len (buf (self s)) = 16384 /\
  _EvtRender (Sample.scripted Sample.largeEvent) (history s) 101 16384 =
    (EmptyString, 40000, Some (Errno Sample.ERROR_INSUFFICIENT_BUFFER)) /\
  snd (Sample.valueOf run (Event_zero, None)) =
    Some (Errno Sample.ERROR_INSUFFICIENT_BUFFER) /\
  Sample.calls run = Some [EvtRenderCall 101 16384] /\
  ~ In (EvtRenderCall 101 40000) (history (Sample.stateOf run s)).
Proof. vm_compute. repeat split. not_in_history. Qed.

(** A probe that reports a size of zero leaves [formatEventString] with an
    empty buffer, and [&buffer[0]] panics. *)
Lemma formatEventString_zero_size_panics :
  Sample.formatEventString Sample.zeroProbe EvtFormatMessageLevel 101 900
    (Sample.start (Sample.config true true 256)) = Panics.
Proof. vm_compute. reflexivity. Qed.

(** C5 (the code departs from the claim). The render of the event handle
    and the UTF-16 decoding succeed, the XML decodes to the event of the
    Application channel and the publisher metadata opens.  The event has
    no keyword text: the probe of the keyword formatting succeeds and
    reports a size of zero.  [formatEventString] then allocates a buffer of
    zero bytes and takes the address of its first element: [renderEvent]
    panics, and no event is returned. *)
Theorem renderEvent_panics_on_empty_text :
  let s := Sample.start (Sample.config true true 256) in
  let env := Sample.scripted Scenario.noKeywords in
  let written := Sample.utf16 Sample.appEventXML in
  let opened :=
    after (rendered s 101 written) (EvtOpenPublisherMetadataCall "App" 0) in
  isEmpty (buf (self s)) = false /\
  _EvtRender env (history s) 101 (uint32 (len (buf (self s)))) =
    (written, 36, None) /\
  sliceTo (overwrite (buf (self s)) written) (uint32 36) = Some written /\
  DecodeUTF16 Sample.lib written = (Sample.appEventXML, None) /\
  xml_Unmarshal Sample.lib Sample.appEventXML Event_zero =
    (Sample.appEvent, None) /\
  _EvtOpenPublisherMetadata env (history (rendered s 101 written)) "App" 0 =
    (900, None) /\
  _EvtFormatMessage env (history opened) 900 101 EvtFormatMessageKeyword 0 =
    (EmptyString, 0, None) /\
  Sample.formatEventString Scenario.noKeywords EvtFormatMessageKeyword 101
    900 opened = Panics /\
  Sample.renderEvent Scenario.noKeywords 101 s = Panics.
Proof. vm_compute. repeat split. Qed.

(** An instance of C3: a formatting call whose second attempt fails, and
    a render call that reports an insufficient buffer. *)
Lemma sized_calls_protocol_witness :
  let s := Sample.start (Sample.config true true 256) in
  Sample.formatEventString Sample.retryFails EvtFormatMessageLevel 101 900 s =
    Returns (EmptyString, Some (Errno 15027))
      (afterAll s
         [EvtFormatMessageCall 900 101 EvtFormatMessageLevel 0;
          EvtFormatMessageCall 900 101 EvtFormatMessageLevel 6]) /\
  Sample.renderEvent Sample.largeEvent 101 s =
    Returns (Event_zero, Some (Errno Sample.ERROR_INSUFFICIENT_BUFFER))
      (rendered s 101 EmptyString).
Proof.
  intros s. split.
  - pose proof (proj1 (sized_calls_protocol Sample.lib
                         (Sample.scripted Sample.retryFails)
                         Sample.ERROR_INSUFFICIENT_BUFFER)
                  EvtFormatMessageLevel 101 900 s EmptyString 6
                  (Some (Errno Sample.ERROR_INSUFFICIENT_BUFFER)) eq_refl)
      as H.
    cbv zeta in H. destruct H as [_ H].
    destruct (H eq_refl ltac:(lia)) as [Hfail _].
    exact (Hfail EmptyString 0 (Errno 15027) eq_refl).
  - exact (proj2 (sized_calls_protocol Sample.lib
                    (Sample.scripted Sample.largeEvent)
                    Sample.ERROR_INSUFFICIENT_BUFFER)
             101 s EmptyString 40000
             (Errno Sample.ERROR_INSUFFICIENT_BUFFER) eq_refl eq_refl).
Defined.

(** An instance of C4: one event is pulled and added, then the pull reports
    the invalid-operation condition. *)
Lemma Gather_end_of_backlog_witness :
  let s := Sample.start (Sample.config true true 256) in
  let first := Sample.fetchEvents Sample.oneEvent 7 s in
  let events := fst (Sample.valueOf first ([], None)) in
  let s1 := Sample.stateOf first s in
  let added :=
    EventLog.addEvents Sample.lib (Sample.scripted Sample.oneEvent) events []
      s1 in
  let acc' := Sample.valueOf added [] in
  let s' := Sample.stateOf added s1 in
  length acc' = 1%nat /\
  Sample.Gather Sample.oneEvent 2 [] s =
    Returns (acc', None) (after s' (EvtNextCall (subscription (self s')) 5)).
Proof.
  intros s first events s1 added acc' s'.
  split; [vm_compute; reflexivity|].
  refine (proj1 (proj2 (Gather_end_of_backlog Sample.lib
                   (Sample.scripted Sample.oneEvent)
                   Sample.ERROR_INSUFFICIENT_BUFFER Sample.ERROR_NO_MORE_ITEMS
                   Sample.ERROR_INVALID_OPERATION 1 0 [] s acc' s' _ _)) _).
  - apply (EventLog.iterates_S _ _ _ _ _ 0%nat [] s events s1 acc' s' acc' s').
    + vm_compute. reflexivity.
    + vm_compute. reflexivity.
    + apply EventLog.iterates_O.
  - exists [], 0. split; vm_compute; reflexivity.
  - vm_compute. discriminate.
Defined.

(** The formatting call of the sample environment keeps to the contract. *)
Lemma oneEvent_wellSized :
  EventLog.wellSized (Sample.scripted Sample.oneEvent)
    Sample.ERROR_INSUFFICIENT_BUFFER.
Proof.
  intros t publisherHandle eventHandle messageFlag size written used err H.
  cbn [Sample.scripted _EvtFormatMessage Sample.formats Sample.oneEvent] in H.
  unfold Sample.sized in H.
  assert (Hlen : 0 < len (Sample.appText messageFlag) < 100)
    by (destruct messageFlag; vm_compute; split; reflexivity).
  set (n := len (Sample.appText messageFlag)) in *.
  destruct (Z.leb n size) eqn:E; injection H as _ <- <-.
  - apply Z.leb_le in E. split.
    + intros -> _. lia.
    + intros Hs _. rewrite uint32_small; lia.
  - split.
    + intros _ _. rewrite uint32_small; lia.
    + intros _ Herr. discriminate Herr.
Qed.

(** Instances of X25: a truncated document, a publisher that cannot be
    opened, and a fully resolved event. *)
Lemma renderEvent_keeps_event_witness :
  let s := Sample.start (Sample.config true true 256) in
  Sample.renderEvent Sample.truncatedEvent 101 s =
    Returns (Sample.partialEvent, None)
      (rendered s 101 (Sample.utf16 Sample.truncatedXML)) /\
  Sample.renderEvent Sample.noPublisher 101 s =
    Returns (Sample.appEvent, None)
      (after (rendered s 101 (Sample.utf16 Sample.appEventXML))
         (EvtOpenPublisherMetadataCall "App" 0)) /\
  exists event' s',
    Sample.renderEvent Sample.oneEvent 101 s = Returns (event', None) s' /\
    sameSystem Sample.appEvent event'.
Proof.
  intros s. split; [|split].
  - refine (proj1 (renderEvent_keeps_event Sample.lib
                     (Sample.scripted Sample.truncatedEvent)
                     Sample.ERROR_INSUFFICIENT_BUFFER 101 s
                     (Sample.utf16 Sample.truncatedXML) 20
                     (Sample.utf16 Sample.truncatedXML) Sample.truncatedXML
                     Sample.partialEvent
                     (Some (ErrorString "unexpected EOF")) _ _ _ _ _) _);
      try (vm_compute; reflexivity).
    discriminate.
  - refine (proj1 (proj2 (renderEvent_keeps_event Sample.lib
                     (Sample.scripted Sample.noPublisher)
                     Sample.ERROR_INSUFFICIENT_BUFFER 101 s
                     (Sample.utf16 Sample.appEventXML) 36
                     (Sample.utf16 Sample.appEventXML) Sample.appEventXML
                     Sample.appEvent None _ _ _ _ _)) eq_refl 0 (Errno 15002)
                  _ _);
      vm_compute; reflexivity.
  - refine (proj2 (proj2 (proj2 (renderEvent_keeps_event Sample.lib
                     (Sample.scripted Sample.oneEvent)
                     Sample.ERROR_INSUFFICIENT_BUFFER 101 s
                     (Sample.utf16 Sample.appEventXML) 36
                     (Sample.utf16 Sample.appEventXML) Sample.appEventXML
                     Sample.appEvent None _ _ _ _ _))) oneEvent_wellSized);
      vm_compute; reflexivity.
Defined.

(** C6, the claim as stated fails. A pull returns the batch of handles 101
    and 102; both events are rendered; the close of 101 fails with the
    invalid-handle code. [fetchEvents] returns at once: handle 102 is never
    closed. *)
Lemma fetchEvents_leaves_handle_open :
  let s := Sample.start (Sample.config true true 256) in
  let sc := Sample.closeFails (Errno 6) in
  let run := Sample.fetchEvents sc 7 s in
  _EvtNext (Sample.scripted sc) (history s) 7 5 = ([101; 102], 2, None) /\
  length (fst (Sample.valueOf run ([], None))) = 2%nat /\
  snd (Sample.valueOf run ([], None)) = Some (Errno 6) /\
  In (EvtCloseCall 101) (history (Sample.stateOf run s)) /\
  ~ In (EvtCloseCall 102) (history (Sample.stateOf run s)).
Proof.
  vm_compute. repeat split; [|not_in_history].
  repeat (first [left; reflexivity | right]).
Qed.

(** An instance of C6: a batch of one handle, closed after its render. *)
Lemma fetchEvents_closes_batch_witness :
  let s := Sample.start (Sample.config true true 256) in
  let s0 := after s (EvtNextCall 7 5) in
  let rendering :=
    EventLog.renderLoop Sample.lib (Sample.scripted Sample.oneEvent)
      Sample.ERROR_INSUFFICIENT_BUFFER [101] [] s0 in
  Sample.fetchEvents Sample.oneEvent 7 s =
    Returns (Sample.valueOf rendering [], None)
      (afterAll (Sample.stateOf rendering s0) [EvtCloseCall 101]).
Proof.
  intros s s0 rendering.
  refine (proj2 (fetchEvents_closes_batch Sample.lib
                   (Sample.scripted Sample.oneEvent)
                   Sample.ERROR_INSUFFICIENT_BUFFER Sample.ERROR_NO_MORE_ITEMS
                   Sample.ERROR_INVALID_OPERATION 7 s)
            [101] s0 (Sample.valueOf rendering [])
            (Sample.stateOf rendering s0) _ _ _);
    vm_compute; reflexivity.
Defined.

(** C10, the claim as stated fails. The close of handle 101 fails with the
    code [ERROR_NO_MORE_ITEMS]; [fetchEvents] returns that error with the
    two rendered events, and [Gather] returns no error (and adds no
    record). *)
Lemma Gather_swallows_close_error :
  let s := Sample.start (Sample.config true true 256) in
  let sc := Sample.closeFails (Errno Sample.ERROR_NO_MORE_ITEMS) in
  let pull := Sample.fetchEvents sc 7 s in
  let run := Sample.Gather sc 1 [] s in
  _EvtClose (Sample.scripted sc) (history s) 101 =
    Some (Errno Sample.ERROR_NO_MORE_ITEMS) /\
  length (fst (Sample.valueOf pull ([], None))) = 2%nat /\
  snd (Sample.valueOf pull ([], None)) =
    Some (Errno Sample.ERROR_NO_MORE_ITEMS) /\
  Sample.emitted run = Some ([], None) /\
  Sample.emitted run <> Some ([], Some (Errno Sample.ERROR_NO_MORE_ITEMS)).
Proof. vm_compute. repeat split. discriminate. Qed.

(** An instance of C10: the close of the first of two handles fails with the
    invalid-handle code. *)
Lemma fetchEvents_close_failure_witness :
  let s := Sample.start (Sample.config true true 256) in
  let sc := Sample.closeFails (Errno 6) in
  let s0 := after s (EvtNextCall 7 5) in
  let rendering :=
    EventLog.renderLoop Sample.lib (Sample.scripted sc)
      Sample.ERROR_INSUFFICIENT_BUFFER [101; 102] [] s0 in
  let s2 := afterAll (Sample.stateOf rendering s0) [EvtCloseCall 101] in
  Sample.fetchEvents sc 7 s =
    Returns (Sample.valueOf rendering [], Some (Errno 6)) s2 /\
  Sample.gatherLoop sc 1 [] s = Returns ([], Some (Errno 6)) s2.
Proof.
  intros s sc s0 rendering s2.
  destruct (fetchEvents_close_failure Sample.lib (Sample.scripted sc)
              Sample.ERROR_INSUFFICIENT_BUFFER Sample.ERROR_NO_MORE_ITEMS
              Sample.ERROR_INVALID_OPERATION s [] 101 [102] s0
              (Sample.valueOf rendering [])
              (Sample.stateOf rendering s0) (Errno 6)) as [Hfetch Hgather];
    try (vm_compute; reflexivity).
  split; [exact Hfetch | exact (Hgather 0%nat [])].
Defined.

(** ** Texts: line breaks and NULs *)

Lemma noneOf_append (p : ascii -> bool) (a b : string) :
  noneOf p (a ++ b)%string = noneOf p a && noneOf p b.
Proof.
  induction a as [|c a IH]; simpl; [reflexivity|].
  rewrite IH. now rewrite andb_assoc.
Qed.


Lemma replaceCRLF_id (s : string) :
  noneOf isCRLF s = true -> replaceCRLF false s = s.
Proof.
  induction s as [|c s IH]; simpl; [reflexivity|].
  intros H. apply andb_prop in H as [Hc Hs].
  apply negb_true_iff in Hc. rewrite Hc. now rewrite IH.
Qed.


Lemma strings_Join_noneOf (p : ascii -> bool) (elems : list string)
  (sep : string) :
  noneOf p sep = true ->
  Forall (fun e => noneOf p e = true) elems ->
  noneOf p (strings_Join elems sep) = true.
Proof.
  intros Hsep. induction 1 as [|x rest Hx Hrest IH]; simpl; [reflexivity|].
  destruct rest as [|y rest]; [exact Hx|].
  rewrite !noneOf_append, Hx, Hsep. exact IH.
Qed.

(** X2. When no unrolled EventData value contains a line break, the
    description is these values joined with ["|"], byte for byte; in
    particular it is empty when EventData unrolls to nothing. *)
Theorem description_joins_values (lib : Lib) (event : Event) :
  let values :=
    map FieldValue
      (fst (UnrollXMLFields lib (InnerXML (EventData_ event)) ∅ "_")) in
  Forall (fun v => noneOf isCRLF v = true) values ->
  EventLog.createDescriptionFromEvent lib event = strings_Join values "|" /\
  (values = [] ->
   EventLog.createDescriptionFromEvent lib event = EmptyString).
Proof.
  intros values Hvalues. unfold EventLog.createDescriptionFromEvent.
  subst values.
  destruct (UnrollXMLFields lib _ _ _) as [fieldsEventData err]. simpl in *.
  assert (H : crlfRe_ReplaceAllString
                (strings_Join (map FieldValue fieldsEventData) "|") =
              strings_Join (map FieldValue fieldsEventData) "|").
  { apply replaceCRLF_id, strings_Join_noneOf; [reflexivity | exact Hvalues]. }
  split; [exact H|]. intros Hnil. rewrite H, Hnil. reflexivity.
Qed.

Lemma description_joins_values_witness :
  EventLog.createDescriptionFromEvent Sample.lib Sample.appEvent =
  "disk full|C:".
Proof.
  apply (description_joins_values Sample.lib Sample.appEvent).
  repeat constructor.
Defined.

Lemma fieldsNUL_noneOf (cur s : string) :
  noneOf isNUL cur = true ->
  Forall (fun f => noneOf isNUL f = true) (fieldsNUL cur s).
Proof.
  revert cur. induction s as [|c s IH]; intros cur Hcur; simpl.
  - destruct (isEmpty cur); repeat constructor. exact Hcur.
  - destruct (isNUL c) eqn:E.
    + destruct (isEmpty cur); [|constructor; [exact Hcur|]]; now apply IH.
    + apply IH. rewrite noneOf_append, Hcur. simpl. now rewrite E.
Qed.

Lemma trimLeftNUL_start (s : string) :
  startsWith isNUL (trimLeftNUL s) = false.
Proof.
  induction s as [|c s IH]; simpl; [reflexivity|].
  destruct (isNUL c) eqn:E; [exact IH | simpl; exact E].
Qed.

Lemma trimRightNUL_start (s : string) :
  startsWith isNUL s = false -> startsWith isNUL (trimRightNUL s) = false.
Proof.
  destruct s as [|c s]; simpl; [reflexivity|].
  intros H. rewrite H. simpl. exact H.
Qed.

Lemma trimRightNUL_end (s : string) : endsWith isNUL (trimRightNUL s) = false.
Proof.
  induction s as [|c s IH]; simpl; [reflexivity|].
  destruct (trimRightNUL s) as [|d r] eqn:E; simpl.
  - destruct (isNUL c) eqn:Ec; simpl; [reflexivity | exact Ec].
  - rewrite andb_false_r. exact IH.
Qed.

(** X3. What [formatEventString] returns: with an error, the empty string;
    without error, for the keywords a text without any NUL byte (the
    NUL-terminated keywords joined by commas), and for the other kinds a
    text that neither starts nor ends with a NUL byte. *)
Theorem formatEventString_text (lib : Lib) (env : Native)
  (ERROR_INSUFFICIENT_BUFFER : Z) (messageFlag : EvtFormatMessageFlag)
  (eventHandle publisherHandle : Z) (s : State) (out : string)
  (err : option error) (s' : State) :
  EventLog.formatEventString lib env ERROR_INSUFFICIENT_BUFFER messageFlag
    eventHandle publisherHandle s = Returns (out, err) s' ->
  (err <> None -> out = EmptyString) /\
  (err = None -> messageFlag = EvtFormatMessageKeyword ->
   noneOf isNUL out = true) /\
  (err = None -> messageFlag <> EvtFormatMessageKeyword ->
   startsWith isNUL out = false /\ endsWith isNUL out = false).
Proof.
  rewrite formatEventString_eq. cbv zeta.
  destruct (_EvtFormatMessage env (history s) publisherHandle eventHandle
              messageFlag 0) as [[w1 used1] err1].
  destruct (EventLog.isOtherThan err1 ERROR_INSUFFICIENT_BUFFER) eqn:Eo.
  { intros H. injection H as <- <- _.
    destruct err1 as [e|]; [|discriminate Eo].
    repeat split; intros; congruence. }
  destruct (isEmpty _); [discriminate|].
  match goal with
  | |- context [_EvtFormatMessage env (history (after ?a ?b)) ?p ?h ?f ?z] =>
      destruct (_EvtFormatMessage env (history (after a b)) p h f z)
        as [[written used2] [e|]]
  end.
  { intros H. injection H as <- <- _. repeat split; intros; congruence. }
  destruct (sliceTo _ _) as [slice|]; [|discriminate].
  destruct (DecodeUTF16 lib slice) as [result [e|]]; intros H;
    injection H as <- <- _.
  { repeat split; intros; congruence. }
  split; [congruence|]. split.
  - intros _ ->. simpl.
    apply strings_Join_noneOf; [reflexivity|].
    apply fieldsNUL_noneOf. reflexivity.
  - intros _ Hflag.
    assert (Hf : formatted messageFlag result = bytes_Trim_NUL result)
      by (destruct messageFlag; try reflexivity; congruence).
    rewrite Hf. unfold bytes_Trim_NUL. split.
    + apply trimRightNUL_start, trimLeftNUL_start.
    + apply trimRightNUL_end.
Qed.

Lemma formatEventString_text_witness :
  noneOf isNUL "Classic,Audit" = true /\
  (startsWith isNUL "Error" = false /\ endsWith isNUL "Error" = false).
Proof.
  set (s := Sample.start (Sample.config true true 256)).
  split.
  - refine (proj1 (proj2 (formatEventString_text Sample.lib
                     (Sample.scripted Sample.oneEvent)
                     Sample.ERROR_INSUFFICIENT_BUFFER EvtFormatMessageKeyword
                     101 900 s "Classic,Audit" None
                     (Sample.stateOf
                        (Sample.formatEventString Sample.oneEvent
                           EvtFormatMessageKeyword 101 900 s) s) _))
              eq_refl eq_refl).
    vm_compute. reflexivity.
  - refine (proj2 (proj2 (formatEventString_text Sample.lib
                     (Sample.scripted Sample.oneEvent)
                     Sample.ERROR_INSUFFICIENT_BUFFER EvtFormatMessageLevel
                     101 900 s "Error" None
                     (Sample.stateOf
                        (Sample.formatEventString Sample.oneEvent
                           EvtFormatMessageLevel 101 900 s) s) _))
              eq_refl _).
    + vm_compute. reflexivity.
    + discriminate.
Defined.

(** ** What a run leaves of the receiver and adds to the history *)

Lemma sameReceiver_refl (w : WinEventLog) : sameReceiver w w.
Proof. split; [destruct w|]; reflexivity. Qed.

Lemma sameReceiver_trans (a b c : WinEventLog) :
  sameReceiver a b -> sameReceiver b c -> sameReceiver a c.
Proof.
  intros [Hb Lb] [Hc Lc]. split; [|congruence].
  rewrite Hc, Hb. reflexivity.
Qed.

Lemma sameReceiver_subscription (w w' : WinEventLog) :
  sameReceiver w w' -> subscription w' = subscription w.
Proof. intros [H _]. rewrite H. reflexivity. Qed.

Lemma extendsWith_refl (P : Call -> Prop) (s : State) : extendsWith P s s.
Proof.
  split; [apply sameReceiver_refl|]. exists []. split; [|constructor].
  now rewrite app_nil_r.
Qed.

Lemma extendsWith_trans (P : Call -> Prop) (a b c : State) :
  extendsWith P a b -> extendsWith P b c -> extendsWith P a c.
Proof.
  intros [Rab (cs1 & H1 & F1)] [Rbc (cs2 & H2 & F2)].
  split; [eapply sameReceiver_trans; eassumption|].
  exists (cs1 ++ cs2). split.
  - now rewrite H2, H1, app_assoc.
  - apply Forall_app. split; assumption.
Qed.

Lemma extendsWith_weaken (P Q : Call -> Prop) (s s' : State) :
  (forall c, P c -> Q c) -> extendsWith P s s' -> extendsWith Q s s'.
Proof.
  intros HPQ [R (cs & H & F)]. split; [exact R|].
  exists cs. split; [exact H|]. eapply Forall_impl; eassumption.
Qed.

Lemma extendsWith_after (P : Call -> Prop) (s : State) (c : Call) :
  P c -> extendsWith P s (after s c).
Proof.
  intros Hc. split; [apply sameReceiver_refl|].
  exists [c]. split; [reflexivity | repeat constructor; exact Hc].
Qed.

Lemma extendsWith_rendered (s : State) (eventHandle : Z) (written : string) :
  extendsWith (isRenderingCall eventHandle) s (rendered s eventHandle written).
Proof.
  split.
  - split; [reflexivity|]. simpl. apply len_overwrite.
  - eexists. split; [reflexivity|]. repeat constructor.
Qed.

Section Runs.

Variable lib : Lib.
Variable env : Native.
Variables ERROR_INSUFFICIENT_BUFFER ERROR_NO_MORE_ITEMS : Z.
Variable ERROR_INVALID_OPERATION : Z.

Abbreviation formatEventString :=
  (EventLog.formatEventString lib env ERROR_INSUFFICIENT_BUFFER).
Abbreviation populate := (EventLog.populate lib env ERROR_INSUFFICIENT_BUFFER).
Abbreviation resolveText :=
  (EventLog.resolveText lib env ERROR_INSUFFICIENT_BUFFER).
Abbreviation openPublisherMetadata := (EventLog.openPublisherMetadata lib env).
Abbreviation renderEvent :=
  (EventLog.renderEvent lib env ERROR_INSUFFICIENT_BUFFER).
Abbreviation fetchEventHandles :=
  (EventLog.fetchEventHandles env ERROR_NO_MORE_ITEMS ERROR_INVALID_OPERATION).
Abbreviation renderLoop := (EventLog.renderLoop lib env ERROR_INSUFFICIENT_BUFFER).
Abbreviation closeLoop := (EventLog.closeLoop env).
Abbreviation fetchEvents :=
  (EventLog.fetchEvents lib env ERROR_INSUFFICIENT_BUFFER ERROR_NO_MORE_ITEMS
     ERROR_INVALID_OPERATION).
Abbreviation evtSubscribe := (EventLog.evtSubscribe lib env).
Abbreviation addEvent := (EventLog.addEvent lib env).
Abbreviation addEvents := (EventLog.addEvents lib env).
Abbreviation gatherLoop :=
  (EventLog.gatherLoop lib env ERROR_INSUFFICIENT_BUFFER ERROR_NO_MORE_ITEMS
     ERROR_INVALID_OPERATION).
Abbreviation Gather :=
  (EventLog.Gather lib env ERROR_INSUFFICIENT_BUFFER ERROR_NO_MORE_ITEMS
     ERROR_INVALID_OPERATION).
Abbreviation iterates :=
  (EventLog.iterates lib env ERROR_INSUFFICIENT_BUFFER ERROR_NO_MORE_ITEMS
     ERROR_INVALID_OPERATION).

(** A formatting request makes one or two native calls, all of them
    formatting calls for its event and publisher, and leaves the receiver
    alone. *)
Lemma formatEventString_calls (messageFlag : EvtFormatMessageFlag)
  (eventHandle publisherHandle : Z) (s : State) r (s' : State) :
  formatEventString messageFlag eventHandle publisherHandle s = Returns r s' ->
  self s' = self s /\
  exists cs, history s' = history s ++ cs /\
             Forall (isFormatCall publisherHandle eventHandle) cs /\
             (length cs <= 2)%nat.
Proof.
  rewrite formatEventString_eq. cbv zeta.
  destruct (_EvtFormatMessage env (history s) publisherHandle eventHandle
              messageFlag 0) as [[w1 used1] err1].
  destruct (EventLog.isOtherThan err1 ERROR_INSUFFICIENT_BUFFER).
  { intros H. injection H as _ <-. split; [reflexivity|].
    eexists. split; [reflexivity|]. split; [|simpl; lia].
    repeat constructor. }
  destruct (isEmpty _); [discriminate|].
  match goal with
  | |- context [_EvtFormatMessage env (history (after ?a ?b)) ?p ?h ?f ?z] =>
      destruct (_EvtFormatMessage env (history (after a b)) p h f z)
        as [[written used2] err2]
  end.
  assert (Hdone : forall r0,
    Returns r0 (after (after s (EvtFormatMessageCall publisherHandle
                                  eventHandle messageFlag 0))
                  (EvtFormatMessageCall publisherHandle eventHandle messageFlag
                     (uint32 (len (make_bytes (uint32 (used1 * 2))) / 2)))) =
    Returns r s' ->
    self s' = self s /\
    exists cs, history s' = history s ++ cs /\
               Forall (isFormatCall publisherHandle eventHandle) cs /\
               (length cs <= 2)%nat).
  { intros r0 H. injection H as _ <-. split; [reflexivity|].
    eexists. split; [simpl; rewrite <- app_assoc; reflexivity|].
    split; [|simpl; lia]. repeat constructor. }
  destruct err2 as [e|]; [apply Hdone|].
  destruct (sliceTo _ _) as [slice|]; [|discriminate].
  destruct (DecodeUTF16 lib slice) as [result [e|]]; apply Hdone.
Qed.

Lemma populate_calls (messageFlag : EvtFormatMessageFlag)
  (eventHandle publisherHandle : Z) (set : Event -> string -> Event)
  (post : string -> string) (event : Event) (s : State) (event' : Event)
  (s' : State) :
  populate messageFlag eventHandle publisherHandle set post event s =
    Returns event' s' ->
  self s' = self s /\
  exists cs, history s' = history s ++ cs /\
             Forall (isFormatCall publisherHandle eventHandle) cs /\
             (length cs <= 2)%nat.
Proof.
  unfold EventLog.populate. run.
  destruct (formatEventString messageFlag eventHandle publisherHandle s)
    as [[v err] s1| |] eqn:E; try discriminate.
  intros H. apply formatEventString_calls in E.
  destruct err; injection H as _ <-; exact E.
Qed.





(** Text resolution: at most ten formatting calls, then the close of the
    publisher handle. *)
Lemma resolveText_calls (eventHandle publisherHandle : Z) (event : Event)
  (s : State) r (s' : State) :
  resolveText eventHandle publisherHandle event s = Returns r s' ->
  self s' = self s /\
  exists mid, history s' = history s ++ mid ++ [EvtCloseCall publisherHandle] /\
              Forall (isFormatCall publisherHandle eventHandle) mid /\
              (length mid <= 10)%nat.
Proof.
  unfold EventLog.resolveText. run.
  repeat match goal with
  | |- context [populate ?f ?h ?p ?set ?post ?ev ?st] =>
      let E := fresh "E" in
      destruct (populate f h p set post ev st) as [? ?| |] eqn:E;
      [apply populate_calls in E; cbn beta iota
      | discriminate | discriminate]
  end.
  intros H. injection H as _ <-. simpl.
  repeat match goal with
  | H : _ /\ _ |- _ => destruct H
  | H : exists _, _ |- _ => destruct H
  end.
  split; [congruence|].
  match goal with
  | H1 : history ?a = history s ++ ?c1,
    H2 : history ?b = history ?a ++ ?c2,
    H3 : history ?c = history ?b ++ ?c3,
    H4 : history ?d = history ?c ++ ?c4,
    H5 : history ?e = history ?d ++ ?c5 |- _ =>
      exists (c1 ++ c2 ++ c3 ++ c4 ++ c5);
      rewrite H5, H4, H3, H2, H1
  end.
  split; [now rewrite <- !app_assoc|].
  split.
  - repeat (apply Forall_app; split); assumption.
  - rewrite !length_app. lia.
Qed.

Lemma renderEvent_calls_shape (eventHandle : Z) (s : State) r (s' : State) :
  renderEvent eventHandle s = Returns r s' ->
  sameReceiver (self s) (self s') /\
  exists cs,
    history s' =
      history s ++
      EvtRenderCall eventHandle (uint32 (len (buf (self s)))) :: cs /\
    (cs = [] \/
     (exists name h e,
        cs = [EvtOpenPublisherMetadataCall name (Locale (self s))] /\
        _EvtOpenPublisherMetadata env
          (history (rendered s eventHandle EmptyString)) name
          (Locale (self s)) = (h, Some e)) \/
     (exists name publisherHandle mid,
        cs = EvtOpenPublisherMetadataCall name (Locale (self s)) ::
             mid ++ [EvtCloseCall publisherHandle] /\
        _EvtOpenPublisherMetadata env
          (history (rendered s eventHandle EmptyString)) name
          (Locale (self s)) = (publisherHandle, None) /\
        Forall (isFormatCall publisherHandle eventHandle) mid /\
        (length mid <= 10)%nat)).
Proof.
  rewrite renderEvent_eq.
  destruct (isEmpty (buf (self s))); [discriminate|].
  destruct (_EvtRender env (history s) eventHandle _) as [[written used] err].
  cbv zeta.
  assert (Hr : sameReceiver (self s) (self (rendered s eventHandle written)))
    by apply (extendsWith_rendered s eventHandle written).
  assert (Hstop : forall r0,
    Returns r0 (rendered s eventHandle written) = Returns r s' ->
    sameReceiver (self s) (self s') /\
    exists cs,
      history s' =
        history s ++
        EvtRenderCall eventHandle (uint32 (len (buf (self s)))) :: cs /\
      (cs = [] \/
       (exists name h e,
          cs = [EvtOpenPublisherMetadataCall name (Locale (self s))] /\
          _EvtOpenPublisherMetadata env
            (history (rendered s eventHandle EmptyString)) name
            (Locale (self s)) = (h, Some e)) \/
       (exists name publisherHandle mid,
          cs = EvtOpenPublisherMetadataCall name (Locale (self s)) ::
               mid ++ [EvtCloseCall publisherHandle] /\
          _EvtOpenPublisherMetadata env
            (history (rendered s eventHandle EmptyString)) name
            (Locale (self s)) = (publisherHandle, None) /\
          Forall (isFormatCall publisherHandle eventHandle) mid /\
          (length mid <= 10)%nat))).
  { intros r0 H. injection H as _ <-. split; [exact Hr|].
    exists []. split; [reflexivity | now left]. }
  destruct err as [e|]; [apply Hstop|].
  destruct (sliceTo _ _) as [slice|]; [|discriminate].
  destruct (DecodeUTF16 lib slice) as [eventXML [e|]]; [apply Hstop|].
  destruct (xml_Unmarshal lib eventXML Event_zero) as [event [e|]];
    [apply Hstop|].
  unfold EventLog.openPublisherMetadata.
  destruct (UTF16PtrFromString lib (Name (Source event))) as [e|];
    [apply Hstop|].
  run.
  change (history (rendered s eventHandle EmptyString))
    with (history (rendered s eventHandle written)).
  destruct (_EvtOpenPublisherMetadata env
              (history (rendered s eventHandle written))
              (Name (Source event)) (Locale (self s))) as [h [e|]] eqn:Eopen.
  - intros H. injection H as _ <-. split; [exact Hr|].
    eexists. split; [simpl; rewrite <- app_assoc; reflexivity|].
    right. left. eauto.
  - intros H. apply resolveText_calls in H.
    destruct H as [Hself (mid & Hhist & Hmid & Hlen)].
    split; [rewrite Hself; exact Hr|].
    eexists. split.
    + rewrite Hhist. simpl. rewrite <- !app_assoc. reflexivity.
    + right. right. exists (Name (Source event)), h, mid. auto.
Qed.

(** X4. The native calls of [renderEvent], when it returns: one render
    call with the length of the receiver's buffer; then nothing more, or
    one attempt to open the publisher metadata that fails, or the opening
    of the publisher followed by at most ten formatting calls for this
    event and this publisher and, last, the close of the publisher handle
    that was opened.  The receiver keeps its configuration and the length
    of its buffer. *)
Theorem renderEvent_calls (eventHandle : Z) (s : State) r (s' : State) :
  renderEvent eventHandle s = Returns r s' ->
  sameReceiver (self s) (self s') /\
  exists cs,
    history s' =
      history s ++
      EvtRenderCall eventHandle (uint32 (len (buf (self s)))) :: cs /\
    (cs = [] \/
     (exists name h e,
        cs = [EvtOpenPublisherMetadataCall name (Locale (self s))] /\
        _EvtOpenPublisherMetadata env
          (history (rendered s eventHandle EmptyString)) name
          (Locale (self s)) = (h, Some e)) \/
     (exists name publisherHandle mid,
        cs = EvtOpenPublisherMetadataCall name (Locale (self s)) ::
             mid ++ [EvtCloseCall publisherHandle] /\
        _EvtOpenPublisherMetadata env
          (history (rendered s eventHandle EmptyString)) name
          (Locale (self s)) = (publisherHandle, None) /\
        Forall (isFormatCall publisherHandle eventHandle) mid /\
        (length mid <= 10)%nat)).
Proof. apply renderEvent_calls_shape. Qed.

Lemma isRenderingCall_poll (eventHandle subsHandle : Z) (c : Call) :
  isRenderingCall eventHandle c -> isPollCall subsHandle c.
Proof. destruct c; simpl; tauto. Qed.

Lemma isFormatCall_rendering (publisherHandle eventHandle : Z) (c : Call) :
  isFormatCall publisherHandle eventHandle c -> isRenderingCall eventHandle c.
Proof. destruct c; simpl; tauto. Qed.

Lemma renderEvent_extends (eventHandle : Z) (s : State) r (s' : State) :
  renderEvent eventHandle s = Returns r s' ->
  extendsWith (isRenderingCall eventHandle) s s'.
Proof.
  intros H. apply renderEvent_calls_shape in H.
  destruct H as [Hr (cs & Hhist & Hcs)]. split; [exact Hr|].
  eexists. split; [exact Hhist|].
  constructor; [reflexivity|].
  destruct Hcs as [->|[(name & h & e & -> & _)|
                       (name & p & mid & -> & _ & Hmid & _)]].
  - constructor.
  - repeat constructor.
  - constructor; [exact I|]. apply Forall_app. split.
    + eapply Forall_impl; [exact Hmid|].
      intros c. apply isFormatCall_rendering.
    + repeat constructor.
Qed.

Lemma renderLoop_extends (subsHandle : Z) (eventHandles : list Z)
  (events : list Event) (s : State) (events' : list Event) (s' : State) :
  renderLoop eventHandles events s = Returns events' s' ->
  extendsWith (isPollCall subsHandle) s s' /\
  exists new, events' = events ++ new /\
              (length new <= length eventHandles)%nat.
Proof.
  revert events s. induction eventHandles as [|h rest IH]; intros events s;
    simpl.
  - run. intros H. injection H as <- <-.
    split; [apply extendsWith_refl|]. exists []. now rewrite app_nil_r.
  - destruct (Z.eqb h 0).
    + intros H. destruct (IH _ _ H) as [He (new & -> & Hl)].
      split; [exact He|]. exists new. split; [reflexivity | lia].
    + run. destruct (renderEvent h s) as [[event err] s1| |] eqn:E;
        try discriminate.
      apply renderEvent_extends in E.
      apply (extendsWith_weaken _ (isPollCall subsHandle)) in E;
        [|apply isRenderingCall_poll].
      destruct err as [e|]; intros H;
        destruct (IH _ _ H) as [He (new & -> & Hl)];
        (split; [eapply extendsWith_trans; eassumption|]).
      * exists new. split; [reflexivity | lia].
      * exists (event :: new). split; [now rewrite <- app_assoc|simpl; lia].
Qed.

(** null handles are passed over without any native call *)
Lemma renderLoop_null (n : nat) (events : list Event) (s : State) :
  renderLoop (repeat 0 n) events s = Returns events s.
Proof. induction n as [|n IH]; simpl; [reflexivity | exact IH]. Qed.

Lemma closeLoop_calls (eventHandles : list Z) (s : State)
  (err : option error) (s' : State) :
  closeLoop eventHandles s = Returns err s' ->
  self s' = self s /\
  exists k, (k <= length eventHandles)%nat /\
            history s' = history s ++ map EvtCloseCall (firstn k eventHandles) /\
            (err = None -> k = length eventHandles) /\
            (err <> None -> (0 < k)%nat).
Proof.
  revert s. induction eventHandles as [|h rest IH]; intros s; simpl; run.
  - intros H. injection H as <- <-. split; [reflexivity|].
    exists 0%nat. simpl. rewrite app_nil_r. repeat split; auto; congruence.
  - destruct (_EvtClose env (history s) h) as [e|].
    + intros H. injection H as <- <-. split; [reflexivity|].
      exists 1%nat. simpl. repeat split; try lia; congruence.
    + intros H. destruct (IH _ H) as [Hs (k & Hk & Hh & Hn & Hp)].
      split; [exact Hs|]. exists (S k). simpl in *.
      rewrite Hh, <- app_assoc. repeat split; try lia.
      intros He. now rewrite (Hn He).
Qed.

(** X5. A pull returns as many handles as the native call reports, at most
    five, after this one native call; with any error it returns no handle,
    and a reported count above five makes the slice expression panic. *)
Theorem fetchEventHandles_batch (subsHandle : Z) (s : State) :
  let '(written, evtReturned, err) := _EvtNext env (history s) subsHandle 5 in
  match err with
  | Some e =>
      exists e', fetchEventHandles subsHandle s =
                 Returns ([], Some e') (after s (EvtNextCall subsHandle 5))
  | None =>
      if Z.leb (uint32 evtReturned) 5
      then exists eventHandles,
             fetchEventHandles subsHandle s =
               Returns (eventHandles, None)
                 (after s (EvtNextCall subsHandle 5)) /\
             Z.of_nat (length eventHandles) = uint32 evtReturned /\
             forall i h, nth_error eventHandles i = Some h ->
                         h = nth i written 0
      else fetchEventHandles subsHandle s = Panics
  end.
Proof.
  unfold EventLog.fetchEventHandles, EventLog.eventsNumber. run.
  destruct (_EvtNext env (history s) subsHandle 5)
    as [[written evtReturned] err].
  destruct err as [e|].
  { destruct (isErrno e ERROR_INVALID_OPERATION && _); eauto. }
  destruct (Z.leb (uint32 evtReturned) 5) eqn:E; [|reflexivity].
  apply Z.leb_le in E. assert (Hr := uint32_range evtReturned).
  eexists. split; [reflexivity|].
  set (arr := firstn (Z.to_nat 5)
                (written ++ skipn (length written) (repeat 0 (Z.to_nat 5)))).
  assert (Hlen : length arr = 5%nat).
  { unfold arr. rewrite length_firstn, length_app, length_skipn, repeat_length.
    change (Z.to_nat 5) with 5%nat. lia. }
  split.
  - rewrite length_firstn, Hlen. lia.
  - intros i h Hi.
    assert (Hlt : (i < Z.to_nat (uint32 evtReturned))%nat).
    { assert (Hn : nth_error (firstn (Z.to_nat (uint32 evtReturned)) arr) i
                   <> None) by congruence.
      apply nth_error_Some in Hn. rewrite length_firstn in Hn. lia. }
    rewrite nth_error_firstn in Hi.
    destruct (Nat.ltb_spec i (Z.to_nat (uint32 evtReturned))); [|lia].
    unfold arr in Hi. rewrite nth_error_firstn in Hi.
    destruct (Nat.ltb_spec i (Z.to_nat 5));
      [|change (Z.to_nat 5) with 5%nat in *; lia].
    apply nth_error_nth with (d := 0) in Hi. rewrite <- Hi.
    destruct (Nat.lt_ge_cases i (length written)) as [Hw|Hw].
    + now rewrite app_nth1.
    + rewrite app_nth2 by exact Hw. rewrite (nth_overflow written) by exact Hw.
      rewrite nth_skipn.
      destruct (nth_in_or_default (length written + (i - length written))
                  (repeat 0 (Z.to_nat 5)) 0) as [Hin|Hd]; [|exact Hd].
      now apply repeat_spec in Hin.
Qed.

Lemma fetchEventHandles_returns (subsHandle : Z) (s : State)
  (eventHandles : list Z) (err : option error) (s' : State) :
  fetchEventHandles subsHandle s = Returns (eventHandles, err) s' ->
  s' = after s (EvtNextCall subsHandle 5) /\
  (length eventHandles <= 5)%nat /\
  (err <> None -> eventHandles = []).
Proof.
  unfold EventLog.fetchEventHandles, EventLog.eventsNumber. run.
  destruct (_EvtNext env (history s) subsHandle 5)
    as [[written evtReturned] [e|]].
  - destruct (isErrno e ERROR_INVALID_OPERATION && _); intros H;
      injection H as <- <- <-; repeat split; simpl; auto; lia.
  - destruct (Z.leb (uint32 evtReturned) 5) eqn:E; [|discriminate].
    intros H. injection H as <- <- <-. apply Z.leb_le in E.
    repeat split; [|congruence].
    rewrite length_firstn. assert (Hr := uint32_range evtReturned). lia.
Qed.

Lemma fetchEvents_extends (subsHandle : Z) (s : State) (events : list Event)
  (err : option error) (s' : State) :
  fetchEvents subsHandle s = Returns (events, err) s' ->
  extendsWith (isPollCall subsHandle) s s' /\ (length events <= 5)%nat.
Proof.
  unfold EventLog.fetchEvents. run.
  destruct (fetchEventHandles subsHandle s) as [[eventHandles e0] s0| |] eqn:E0;
    try discriminate.
  apply fetchEventHandles_returns in E0. destruct E0 as (-> & Hlen & Hnil).
  assert (Hpull : extendsWith (isPollCall subsHandle) s
                    (after s (EvtNextCall subsHandle 5)))
    by (apply extendsWith_after; simpl; auto).
  destruct e0 as [e|].
  { intros H. injection H as <- _ <-. split; [exact Hpull | simpl; lia]. }
  destruct (renderLoop eventHandles [] _) as [evs s1| |] eqn:E1;
    try discriminate.
  apply (renderLoop_extends subsHandle) in E1.
  destruct E1 as [He1 (new & -> & Hnew)].
  destruct (closeLoop eventHandles s1) as [cerr s2| |] eqn:E2;
    try discriminate.
  apply closeLoop_calls in E2. destruct E2 as [Hs2 (k & _ & Hh2 & _)].
  intros H. injection H as <- _ <-. split; [|simpl; lia].
  eapply extendsWith_trans; [exact Hpull|].
  eapply extendsWith_trans; [exact He1|].
  split; [rewrite Hs2; apply sameReceiver_refl|].
  eexists. split; [exact Hh2|].
  apply Forall_forall. intros c Hc. apply list_elem_of_In, in_map_iff in Hc.
  destruct Hc as (h & <- & _). exact I.
Qed.

(** X6. A pull hands on at most five events, after calls that belong to a
    poll cycle on its subscription: the pull of five handles, render,
    publisher, formatting and close calls; the receiver keeps its
    configuration, its subscription and the length of its buffer. *)
Theorem fetchEvents_at_most_five (subsHandle : Z) (s : State)
  (events : list Event) (err : option error) (s' : State) :
  fetchEvents subsHandle s = Returns (events, err) s' ->
  (length events <= 5)%nat /\ extendsWith (isPollCall subsHandle) s s'.
Proof.
  intros H. apply fetchEvents_extends in H. tauto.
Qed.

Lemma eventFields_dom (event : Event) (description : string) :
  dom (EventLog.eventFields event description) = fieldNames.
Proof.
  unfold EventLog.eventFields, fieldNames.
  rewrite !dom_insert_L, dom_empty_L. set_solver.
Qed.

Lemma addEvent_record (event : Event) (acc : list Metric) (s : State) :
  exists m s',
    addEvent event acc s = Returns (acc ++ [m]) s' /\
    isRecordOf lib env event m /\
    self s' = self s /\
    exists cs, history s' = history s ++ cs /\ Forall (eq NowCall) cs.
Proof.
  unfold EventLog.addEvent, isRecordOf.
  destruct (time_Parse lib RFC3339Nano (SystemTime (TimeCreated_ event)))
    as [timeStamp [e|]]; run.
  - eexists. eexists. split; [reflexivity|]. simpl.
    split; [|split; [reflexivity | exists [NowCall]; split;
                                    [reflexivity | repeat constructor]]].
    split; [reflexivity|]. split; [reflexivity|].
    split; [apply eventFields_dom|].
    repeat (split; [reflexivity|]). eauto.
  - eexists. eexists. split; [reflexivity|]. simpl.
    split; [|split; [reflexivity | exists []; split;
                                    [now rewrite app_nil_r | constructor]]].
    split; [reflexivity|]. split; [reflexivity|].
    split; [apply eventFields_dom|].
    repeat (split; [reflexivity|]). reflexivity.
Qed.

Lemma addEvents_records (events : list Event) (acc : list Metric) (s : State) :
  exists new s',
    addEvents events acc s = Returns (acc ++ new) s' /\
    Forall2 (isRecordOf lib env) events new /\
    self s' = self s /\
    exists cs, history s' = history s ++ cs /\ Forall (eq NowCall) cs.
Proof.
  revert acc s. induction events as [|event rest IH]; intros acc s; simpl.
  - exists [], s. run. rewrite app_nil_r.
    repeat split; [constructor|]. exists []. now rewrite app_nil_r.
  - run. destruct (addEvent_record event acc s)
      as (m & s1 & -> & Hm & Hs1 & cs1 & Hh1 & Hc1).
    destruct (IH (acc ++ [m]) s1)
      as (new & s2 & -> & Hnew & Hs2 & cs2 & Hh2 & Hc2).
    exists (m :: new), s2. rewrite <- app_assoc.
    split; [reflexivity|]. split; [constructor; assumption|].
    split; [congruence|]. exists (cs1 ++ cs2).
    split; [now rewrite Hh2, Hh1, app_assoc | now apply Forall_app].
Qed.

(** X7. For the events of a pull, in order, [Gather] adds one record each
    after the records already there, and adding never fails: the
    measurement is [win_event], the only tag is [eventlog_name] with the
    channel, the fields are exactly [record_id], [event_id], [level],
    [message], [description], [source] and [created], and the time stamp is
    the parsed creation time or, when the creation time does not parse, a
    reading of the clock.  Nothing but the clock is called. *)
Theorem Gather_adds_one_record_per_event (events : list Event)
  (acc : list Metric) (s : State) :
  exists new s',
    addEvents events acc s = Returns (acc ++ new) s' /\
    Forall2 (isRecordOf lib env) events new /\
    self s' = self s /\
    exists cs, history s' = history s ++ cs /\ Forall (eq NowCall) cs.
Proof. apply addEvents_records. Qed.

Lemma gatherLoop_extends (fuel : nat) (acc : list Metric) (s : State)
  (acc' : list Metric) (err : option error) (s' : State) :
  gatherLoop fuel acc s = Returns (acc', err) s' ->
  extendsWith (isPollCall (subscription (self s))) s s' /\
  exists new, acc' = acc ++ new /\
              Forall (fun m => measurement m = "win_event") new.
Proof.
  revert acc s. induction fuel as [|fuel IH]; intros acc s; simpl;
    [discriminate|].
  run.
  destruct (fetchEvents (subscription (self s)) s) as [[events e0] s1| |] eqn:E;
    try discriminate.
  apply fetchEvents_extends in E. destruct E as [He _].
  destruct e0 as [e|].
  { assert (Hdone : forall r, Returns (acc, r) s1 = Returns (acc', err) s' ->
      extendsWith (isPollCall (subscription (self s))) s s' /\
      exists new, acc' = acc ++ new /\
                  Forall (fun m => measurement m = "win_event") new).
    { intros r H. injection H as <- _ <-. split; [exact He|].
      exists []. split; [now rewrite app_nil_r | constructor]. }
    destruct (isErrno e ERROR_NO_MORE_ITEMS); apply Hdone. }
  destruct (addEvents_records events acc s1)
    as (new & s2 & -> & Hnew & Hs2 & cs & Hh2 & Hcs).
  intros H. apply IH in H. destruct H as [He2 (new2 & -> & Hnew2)].
  assert (Hadd : extendsWith (isPollCall (subscription (self s))) s1 s2).
  { split; [rewrite Hs2; apply sameReceiver_refl|].
    exists cs. split; [exact Hh2|].
    eapply Forall_impl; [exact Hcs|]. intros c <-. exact I. }
  assert (Hsub : subscription (self s2) = subscription (self s)).
  { rewrite Hs2. apply sameReceiver_subscription, He. }
  rewrite Hsub in He2. split.
  - eapply extendsWith_trans; [exact He|].
    eapply extendsWith_trans; eassumption.
  - exists (new ++ new2). split; [now rewrite app_assoc|].
    apply Forall_app. split; [|exact Hnew2].
    clear -Hnew. induction Hnew as [|ev m evs ms Hm _ IHn]; constructor;
      [apply Hm | exact IHn].
Qed.

(** X8. An existing subscription is kept for the whole poll cycle: [Gather]
    makes no call that creates a subscription, every pull asks this
    subscription for five handles, and when it returns the receiver has its
    configuration, its subscription and the length of its render buffer
    unchanged (the buffer is never reallocated). *)
Theorem Gather_keeps_subscription (fuel : nat) (acc : list Metric) (s : State)
  r (s' : State) :
  subscription (self s) <> 0 ->
  Gather fuel acc s = Returns r s' ->
  extendsWith (isPollCall (subscription (self s))) s s' /\
  subscription (self s') = subscription (self s) /\
  len (buf (self s')) = len (buf (self s)).
Proof.
  intros Hsub H. rewrite Gather_subscribed in H by exact Hsub.
  destruct r as [acc' err]. apply gatherLoop_extends in H.
  destruct H as [He _]. split; [exact He|].
  destruct He as [Hr _]. split.
  - now apply sameReceiver_subscription.
  - apply Hr.
Qed.

Lemma evtSubscribe_shape (logName xquery : string) (s : State) :
  exists subsHandle err s',
    evtSubscribe logName xquery s = Returns (subsHandle, err) s' /\
    self s' = self s /\
    (err <> None -> subsHandle = 0) /\
    match CreateEvent env (history s) with
    | (_, Some _) => history s' = history s ++ [CreateEventCall] /\ err <> None
    | (sigEvent, None) =>
        exists mid,
          history s' =
            history s ++ CreateEventCall :: mid ++ [CloseHandleCall sigEvent] /\
          (mid = [] \/ mid = [EvtSubscribeCall sigEvent logName xquery]) /\
          (mid = [] -> err <> None)
    end.
Proof.
  unfold EventLog.evtSubscribe. run.
  destruct (CreateEvent env (history s)) as [sigEvent [e|]].
  { do 3 eexists. split; [reflexivity|]. repeat split; congruence. }
  destruct (UTF16PtrFromString lib logName) as [e|]; run.
  { do 3 eexists. split; [reflexivity|]. split; [reflexivity|].
    split; [reflexivity|]. exists []. simpl. rewrite <- app_assoc.
    repeat split; auto; congruence. }
  destruct (UTF16PtrFromString lib xquery) as [e|]; run.
  { do 3 eexists. split; [reflexivity|]. split; [reflexivity|].
    split; [reflexivity|]. exists []. simpl. rewrite <- app_assoc.
    repeat split; auto; congruence. }
  destruct (_EvtSubscribe env _ sigEvent logName xquery) as [h [e|]];
    do 3 eexists; (split; [reflexivity|]); (split; [reflexivity|]);
    (split; [congruence|]);
    exists [EvtSubscribeCall sigEvent logName xquery]; simpl;
    rewrite <- !app_assoc; repeat split; auto; discriminate.
Qed.

(** X9. [evtSubscribe] always returns, and a failure returns the handle 0.
    When the signal event cannot be created nothing else is called;
    otherwise the signal event is closed by the last call, whether the
    subscription was created, was refused, or was not even attempted
    because a name could not be converted. *)
Theorem evtSubscribe_closes_signal_event (logName xquery : string)
  (s : State) :
  exists subsHandle err s',
    evtSubscribe logName xquery s = Returns (subsHandle, err) s' /\
    self s' = self s /\
    (err <> None -> subsHandle = 0) /\
    match CreateEvent env (history s) with
    | (_, Some _) => history s' = history s ++ [CreateEventCall] /\ err <> None
    | (sigEvent, None) =>
        exists mid,
          history s' =
            history s ++ CreateEventCall :: mid ++ [CloseHandleCall sigEvent] /\
          (mid = [] \/ mid = [EvtSubscribeCall sigEvent logName xquery]) /\
          (mid = [] -> err <> None)
    end.
Proof. apply evtSubscribe_shape. Qed.

(** X10. When the subscription cannot be created, [Gather] returns the
    error "Windows Event Log subscription error: ..." without pulling and
    without adding a record, whatever the fuel; the subscription of the
    receiver stays 0, so that the next poll cycle subscribes again. *)
Theorem Gather_subscription_failure (fuel : nat) (acc : list Metric)
  (s : State) (subsHandle : Z) (e : error) (s1 : State) :
  subscription (self s) = 0 ->
  evtSubscribe (EventlogName (self s)) (Query (self s)) s =
    Returns (subsHandle, Some e) s1 ->
  Gather fuel acc s =
    Returns
      (acc,
       Some (ErrorString
               ("Windows Event Log subscription error: " ++ Error lib e)%string))
      {| self := self s; history := history s1 |} /\
  Forall (fun c => match c with EvtNextCall _ _ => False | _ => True end)
    (skipn (length (history s)) (history s1)).
Proof.
  intros H0 Hsub.
  destruct (evtSubscribe_shape (EventlogName (self s)) (Query (self s)) s)
    as (h & err & s' & Hret & _ & Hzero & Hshape).
  rewrite Hsub in Hret. injection Hret as <- <- <-.
  assert (Hh : subsHandle = 0) by (apply Hzero; discriminate).
  subst subsHandle. split.
  - unfold EventLog.Gather. run. rewrite H0. simpl. run. rewrite Hsub.
    replace (set_subscription (self s) 0) with (self s); [reflexivity|].
    destruct (self s); simpl in *; subst; reflexivity.
  - destruct (CreateEvent env (history s)) as [sigEvent [e0|]].
    + destruct Hshape as [-> _]. rewrite skipn_app, skipn_all, Nat.sub_diag.
      repeat constructor.
    + destruct Hshape as (mid & -> & Hmid & _).
      rewrite skipn_app, skipn_all, Nat.sub_diag. simpl.
      destruct Hmid as [->| ->]; repeat constructor.
Qed.

(** X11. A pull that fails otherwise than with the invalid-operation
    condition at zero events ends the poll cycle at once, after [k] pulls
    that returned batches: nothing the failed pull may have delivered is
    rendered or closed, the records of the earlier pulls stay in the
    accumulator, and [Gather] returns the error of the pull as it is, or
    no error when that error is [ERROR_NO_MORE_ITEMS]. *)
Theorem Gather_pull_error (k fuel : nat) (acc : list Metric) (s : State)
  (acc' : list Metric) (s' : State) (written : list Z) (evtReturned : Z)
  (e : error) :
  iterates k acc s acc' s' ->
  _EvtNext env (history s') (subscription (self s')) 5 =
    (written, evtReturned, Some e) ->
  isErrno e ERROR_INVALID_OPERATION && Z.eqb (uint32 evtReturned) 0 = false ->
  gatherLoop (k + S fuel) acc s =
    Returns (acc', if isErrno e ERROR_NO_MORE_ITEMS then None else Some e)
      (after s' (EvtNextCall (subscription (self s')) 5)).
Proof.
  intros Hit Hpull Hcond.
  rewrite (gatherLoop_iterates lib env ERROR_INSUFFICIENT_BUFFER
             ERROR_NO_MORE_ITEMS ERROR_INVALID_OPERATION k acc s acc' s' Hit).
  simpl. run.
  unfold EventLog.fetchEvents, EventLog.fetchEventHandles,
    EventLog.eventsNumber. run.
  rewrite Hpull, Hcond. cbn beta iota.
  destruct (isErrno e ERROR_NO_MORE_ITEMS); reflexivity.
Qed.

(** X12. [Gather] only ever appends to the accumulator: the records that
    were there stay, in place, and every record it adds has the measurement
    [win_event]. *)
Theorem Gather_only_appends (fuel : nat) (acc : list Metric) (s : State)
  (acc' : list Metric) (err : option error) (s' : State) :
  Gather fuel acc s = Returns (acc', err) s' ->
  exists new, acc' = acc ++ new /\
              Forall (fun m => measurement m = "win_event") new.
Proof.
  unfold EventLog.Gather. run.
  destruct (Z.eqb (subscription (self s)) 0).
  - run.
    destruct (evtSubscribe (EventlogName (self s)) (Query (self s)) s)
      as [[h [e|]] s1| |]; try discriminate; cbn beta iota.
    + intros H. injection H as <- _ _. exists [].
      split; [now rewrite app_nil_r | constructor].
    + intros H. apply gatherLoop_extends in H. tauto.
  - intros H. apply gatherLoop_extends in H. tauto.
Qed.

End Runs.

(** ** The filters, whatever the order of the patterns *)

Section FilterOrder.

Variable filepath_Match : string -> string -> bool.

Lemma matchesAny_Permutation (patterns patterns' : list string)
  (field : string) :
  Permutation patterns patterns' ->
  Filter.matchesAny filepath_Match patterns field =
  Filter.matchesAny filepath_Match patterns' field.
Proof.
  unfold Filter.matchesAny.
  induction 1 as [|p l l' _ IH|p q l|l l' l'' _ IH1 _ IH2]; simpl.
  - reflexivity.
  - now rewrite IH.
  - now rewrite !orb_assoc, (orb_comm (filepath_Match q field)).
  - now rewrite IH1.
Qed.

Lemma shouldProcessField_cases
  (EventTags EventFields ExcludeFields : list string) (field : string) :
  Filter.shouldProcessField filepath_Match EventTags EventFields ExcludeFields
    field =
  if Filter.matchesAny filepath_Match EventTags field then (true, "tags")
  else Filter.processFieldLoop filepath_Match EventFields ExcludeFields field.
Proof.
  induction EventTags as [|p rest IH]; simpl; [reflexivity|].
  destruct (filepath_Match p field); simpl; [reflexivity | exact IH].
Qed.

(** X13. The classification of a field name depends only on which patterns
    the three lists contain, not on their order: permuting the tag
    patterns, the field patterns and the exclude patterns leaves the answer
    of [shouldProcessField] unchanged. *)
Theorem shouldProcessField_order_irrelevant
  (EventTags EventTags' EventFields EventFields' ExcludeFields
     ExcludeFields' : list string) (field : string) :
  Permutation EventTags EventTags' ->
  Permutation EventFields EventFields' ->
  Permutation ExcludeFields ExcludeFields' ->
  Filter.shouldProcessField filepath_Match EventTags EventFields ExcludeFields
    field =
  Filter.shouldProcessField filepath_Match EventTags' EventFields'
    ExcludeFields' field.
Proof.
  intros Ht Hf He.
  rewrite !shouldProcessField_cases, !processFieldLoop_matchesAny.
  rewrite (matchesAny_Permutation _ _ field Ht).
  rewrite (matchesAny_Permutation _ _ field Hf).
  rewrite (matchesAny_Permutation _ _ field He).
  reflexivity.
Qed.

(** X14. [shouldExcludeEmptyField] in full: a name that no exclude-empty
    pattern matches is never suppressed; for a matched name the answer is
    that of the type check alone, whichever pattern matched: emptiness for
    a [string], equality with 0 for an [int] or a [uint32], a panic when the
    value does not have the dynamic type that the field type names, and
    [false] for every other field type. *)
Theorem shouldExcludeEmptyField_full (ExcludeEmpty : list string)
  (field fieldType : string) (fieldValue : Value) :
  Filter.shouldExcludeEmptyField filepath_Match ExcludeEmpty field fieldType
    fieldValue =
  if Filter.matchesAny filepath_Match ExcludeEmpty field
  then emptyCheck fieldType fieldValue
  else Some false.
Proof.
  unfold emptyCheck.
  induction ExcludeEmpty as [|p rest IH]; simpl; [reflexivity|].
  destruct (filepath_Match p field); simpl; [|exact IH].
  destruct (String.eqb fieldType "string").
  { destruct fieldValue as [v| | |]; try reflexivity.
    destruct v; [reflexivity|]. f_equal. apply Z.ltb_ge.
    cbn [String.length isEmpty]. lia. }
  destruct (String.eqb fieldType "int"); [reflexivity|].
  destruct (String.eqb fieldType "uint32"); [reflexivity|].
  rewrite IH. now destruct (Filter.matchesAny filepath_Match rest field).
Qed.

End FilterOrder.

Lemma shouldProcessField_order_irrelevant_witness :
  Filter.shouldProcessField Sample.Match ["Source"; "Level*"] ["*"]
    ["TimeCreated"; "Binary"] "LevelText" =
  Filter.shouldProcessField Sample.Match ["Level*"; "Source"] ["*"]
    ["Binary"; "TimeCreated"] "LevelText".
Proof.
  apply shouldProcessField_order_irrelevant.
  - apply perm_swap.
  - apply Permutation_refl.
  - apply perm_swap.
Defined.

(** ** Instances on the sample environments *)


Lemma renderEvent_calls_witness :
  let s := Sample.start (Sample.config true true 256) in
  let run := Sample.renderEvent Sample.oneEvent 101 s in
  sameReceiver (self s) (self (Sample.stateOf run s)).
Proof.
  intros s run.
  refine (proj1 (renderEvent_calls Sample.lib
                   (Sample.scripted Sample.oneEvent)
                   Sample.ERROR_INSUFFICIENT_BUFFER 101 s
                   (Sample.valueOf run (Event_zero, None))
                   (Sample.stateOf run s) _)).
  vm_compute. reflexivity.
Defined.

Lemma fetchEvents_at_most_five_witness :
  let s := Sample.start (Sample.config true true 256) in
  let run := Sample.fetchEvents (Sample.closeFails (Errno 6)) 7 s in
  (length (fst (Sample.valueOf run ([], None))) <= 5)%nat.
Proof.
  intros s run.
  refine (proj1 (fetchEvents_at_most_five Sample.lib
                   (Sample.scripted (Sample.closeFails (Errno 6)))
                   Sample.ERROR_INSUFFICIENT_BUFFER Sample.ERROR_NO_MORE_ITEMS
                   Sample.ERROR_INVALID_OPERATION 7 s
                   (fst (Sample.valueOf run ([], None)))
                   (snd (Sample.valueOf run ([], None)))
                   (Sample.stateOf run s) _)).
  vm_compute. reflexivity.
Defined.

Lemma Gather_keeps_subscription_witness :
  let s := Sample.start (Sample.config true true 256) in
  let run := Sample.Gather Sample.oneEvent 2 [] s in
  subscription (self (Sample.stateOf run s)) = subscription (self s).
Proof.
  intros s run.
  refine (proj1 (proj2 (Gather_keeps_subscription Sample.lib
                   (Sample.scripted Sample.oneEvent)
                   Sample.ERROR_INSUFFICIENT_BUFFER Sample.ERROR_NO_MORE_ITEMS
                   Sample.ERROR_INVALID_OPERATION 2 [] s
                   (Sample.valueOf run ([], None))
                   (Sample.stateOf run s) _ _))).
  - vm_compute. discriminate.
  - vm_compute. reflexivity.
Defined.

Lemma Gather_subscription_failure_witness :
  EventLog.Gather Sample.lib Scenario.refusedSubscription
    Sample.ERROR_INSUFFICIENT_BUFFER Sample.ERROR_NO_MORE_ITEMS
    Sample.ERROR_INVALID_OPERATION 3 [] Scenario.unsubscribed =
  Returns ([], Some (ErrorString "Windows Event Log subscription error: errno"))
    {| self := self Scenario.unsubscribed;
       history := [CreateEventCall; EvtSubscribeCall 1 "Application" "*";
                   CloseHandleCall 1] |}.
Proof.
  refine (proj1 (Gather_subscription_failure Sample.lib
                   Scenario.refusedSubscription
                   Sample.ERROR_INSUFFICIENT_BUFFER Sample.ERROR_NO_MORE_ITEMS
                   Sample.ERROR_INVALID_OPERATION 3 [] Scenario.unsubscribed 0
                   (Errno 5)
                   (afterAll Scenario.unsubscribed
                      [CreateEventCall; EvtSubscribeCall 1 "Application" "*";
                       CloseHandleCall 1]) _ _)).
  - reflexivity.
  - vm_compute. reflexivity.
Defined.

Lemma Gather_pull_error_witness :
  let s := Sample.start (Sample.config true true 256) in
  let first := Sample.fetchEvents Scenario.pullFails 7 s in
  let events := fst (Sample.valueOf first ([], None)) in
  let s1 := Sample.stateOf first s in
  let added :=
    EventLog.addEvents Sample.lib (Sample.scripted Scenario.pullFails) events
      [] s1 in
  let acc' := Sample.valueOf added [] in
  let s' := Sample.stateOf added s1 in
  length acc' = 1%nat /\
  Sample.gatherLoop Scenario.pullFails 2 [] s =
    Returns (acc', Some (Errno 6))
      (after s' (EvtNextCall (subscription (self s')) 5)).
Proof.
  intros s first events s1 added acc' s'.
  split; [vm_compute; reflexivity|].
  refine (Gather_pull_error Sample.lib (Sample.scripted Scenario.pullFails)
            Sample.ERROR_INSUFFICIENT_BUFFER Sample.ERROR_NO_MORE_ITEMS
            Sample.ERROR_INVALID_OPERATION 1 0 [] s acc' s' [] 0 (Errno 6)
            _ _ _).
  - apply (EventLog.iterates_S _ _ _ _ _ 0%nat [] s events s1 acc' s' acc' s').
    + vm_compute. reflexivity.
    + vm_compute. reflexivity.
    + apply EventLog.iterates_O.
  - vm_compute. reflexivity.
  - reflexivity.
Defined.

Lemma Gather_only_appends_witness :
  let s := Sample.start (Sample.config true true 256) in
  let run := Sample.Gather Sample.oneEvent 2 [] s in
  exists new,
    fst (Sample.valueOf run ([], None)) = [] ++ new /\
    Forall (fun m => measurement m = "win_event") new.
Proof.
  intros s run.
  refine (Gather_only_appends Sample.lib (Sample.scripted Sample.oneEvent)
            Sample.ERROR_INSUFFICIENT_BUFFER Sample.ERROR_NO_MORE_ITEMS
            Sample.ERROR_INVALID_OPERATION 2 [] s
            (fst (Sample.valueOf run ([], None)))
            (snd (Sample.valueOf run ([], None)))
            (Sample.stateOf run s) _).
  vm_compute. reflexivity.
Defined.

(** ** The Windows services plugin *)

Ltac srun :=
  unfold mbind, Services.SM_bind, mret, Services.SM_ret, Services.call,
    Services.perform, Services.crash;
  cbn beta iota.

Section ServicesFacts.

Variable errorText : error -> string.
Variable os_IsPermission : error -> bool.
Variable env : Services.Manager.
Variable ERROR_INSUFFICIENT_BUFFER : Z.

Abbreviation queryConfigLoop :=
  (Services.queryConfigLoop env ERROR_INSUFFICIENT_BUFFER).
Abbreviation DisplayNameStartType :=
  (Services.DisplayNameStartType env ERROR_INSUFFICIENT_BUFFER).
Abbreviation collectServiceInfo :=
  (Services.collectServiceInfo errorText env ERROR_INSUFFICIENT_BUFFER).
Abbreviation listServices := (Services.listServices errorText env).
Abbreviation gatherServices :=
  (Services.gatherLoop errorText os_IsPermission env
     ERROR_INSUFFICIENT_BUFFER).
Abbreviation GatherServices :=
  (Services.Gather errorText os_IsPermission env ERROR_INSUFFICIENT_BUFFER).

Lemma queryConfigLoop_fuel (fuel : nat) (handle n : Z)
  (t : list Services.Call) :
  0 < n < 2 ^ 32 ->
  (Z.to_nat (2 ^ 32 - n) <= fuel)%nat ->
  queryConfigLoop fuel handle n t <> Services.NoFuel.
Proof.
  revert n t. induction fuel as [|fuel IH]; intros n t Hn Hfuel.
  { exfalso. lia. }
  simpl. srun. rewrite isEmpty_make_bytes by lia. cbn beta iota.
  destruct (Services.QueryServiceConfig env t handle n)
    as [[config needed] [[code|msg]|]]; try discriminate.
  destruct (negb (Z.eqb code ERROR_INSUFFICIENT_BUFFER)); [discriminate|].
  rewrite len_make_bytes, (uint32_small n) by lia.
  destruct (Z.leb (uint32 needed) n) eqn:E; [discriminate|].
  apply Z.leb_gt in E. assert (Hr := uint32_range needed).
  apply IH; lia.
Qed.

(** X15. [DisplayNameStartType] terminates: each further call of
    [windows.QueryServiceConfig] needs a strictly larger buffer, and the
    size is a [uint32], so that 2^32 - 1024 rounds of the loop are always
    enough. *)
Theorem DisplayNameStartType_terminates (extra : nat) (handle : Z)
  (t : list Services.Call) :
  DisplayNameStartType (Z.to_nat (2 ^ 32 - 1024) + extra) handle t <>
  Services.NoFuel.
Proof.
  unfold Services.DisplayNameStartType.
  apply queryConfigLoop_fuel; rewrite uint32_small; lia.
Qed.

Lemma queryConfigLoop_calls (fuel : nat) (handle n : Z)
  (t : list Services.Call) r (t' : list Services.Call) :
  0 <= n < 2 ^ 32 ->
  queryConfigLoop fuel handle n t = Services.Done r t' ->
  (exists rest,
     t' = t ++ map (Services.QueryServiceConfigCall handle) (n :: rest) /\
     Services.increasingFrom n rest /\
     Forall (fun m => 0 < m < 2 ^ 32) (n :: rest)) /\
  (snd r <> None -> r = (EmptyString, 0, snd r)).
Proof.
  revert n t. induction fuel as [|fuel IH]; intros n t Hn; simpl;
    [discriminate|].
  srun. destruct (isEmpty (make_bytes n)) eqn:Eb; [discriminate|].
  assert (Hpos : 0 < n).
  { destruct (Z.eq_dec n 0) as [->|]; [discriminate Eb | lia]. }
  cbn beta iota.
  assert (Hone : forall r0,
    Services.Done r0 (t ++ [Services.QueryServiceConfigCall handle n]) =
      Services.Done r t' ->
    exists rest,
      t' = t ++ map (Services.QueryServiceConfigCall handle) (n :: rest) /\
      Services.increasingFrom n rest /\
      Forall (fun m => 0 < m < 2 ^ 32) (n :: rest)).
  { intros r0 H. injection H as _ <-. exists []. simpl.
    repeat split; auto. repeat constructor; lia. }
  destruct (Services.QueryServiceConfig env t handle n)
    as [[config needed] [[code|msg]|]]; try discriminate.
  - destruct (negb (Z.eqb code ERROR_INSUFFICIENT_BUFFER)).
    { intros H. split; [eapply Hone; exact H|].
      injection H as <- _. reflexivity. }
    rewrite len_make_bytes, (uint32_small n) by lia.
    destruct (Z.leb (uint32 needed) n) eqn:E.
    { intros H. split; [eapply Hone; exact H|].
      injection H as <- _. reflexivity. }
    apply Z.leb_gt in E. assert (Hr := uint32_range needed).
    intros H. apply IH in H; [|lia].
    destruct H as [(rest & -> & Hinc & Hall) Herr]. split; [|exact Herr].
    exists (uint32 needed :: rest). simpl. rewrite <- app_assoc.
    repeat split; auto. constructor; [lia | exact Hall].
  - intros H. split; [eapply Hone; exact H|].
    injection H as <- _. simpl. congruence.
Qed.

Lemma DisplayNameStartType_shape (fuel : nat) (handle : Z)
  (t : list Services.Call) r (t' : list Services.Call) :
  DisplayNameStartType fuel handle t = Services.Done r t' ->
  (exists rest,
     t' = t ++ map (Services.QueryServiceConfigCall handle) (1024 :: rest) /\
     Services.increasingFrom 1024 rest /\
     Forall (fun m => 0 < m < 2 ^ 32) (1024 :: rest)) /\
  (snd r <> None -> r = (EmptyString, 0, snd r)).
Proof.
  unfold Services.DisplayNameStartType. rewrite uint32_small by lia.
  apply queryConfigLoop_calls. lia.
Qed.

(** X16. The buffers [DisplayNameStartType] hands to
    [windows.QueryServiceConfig] start at 1024 bytes and grow strictly from
    one call to the next; it makes no other call, and with an error it
    returns the empty display name and the start type 0. *)
Theorem DisplayNameStartType_buffers_grow (fuel : nat) (handle : Z)
  (t : list Services.Call) r (t' : list Services.Call) :
  DisplayNameStartType fuel handle t = Services.Done r t' ->
  (exists rest,
     t' = t ++ map (Services.QueryServiceConfigCall handle) (1024 :: rest) /\
     Services.increasingFrom 1024 rest /\
     Forall (fun m => 0 < m < 2 ^ 32) (1024 :: rest)) /\
  (snd r <> None -> r = (EmptyString, 0, snd r)).
Proof. apply DisplayNameStartType_shape. Qed.

Lemma filterLoop_filter (f : string -> bool) (names services : list string) :
  Services.filterLoop f names services =
  services ++ List.filter f names.
Proof.
  revert services. induction names as [|n rest IH]; intros services; simpl.
  - now rewrite app_nil_r.
  - destruct (f n); rewrite IH; [now rewrite <- app_assoc | reflexivity].
Qed.

(** X17. [listServices] asks the manager once.  When the manager fails it
    returns no name and the error "Could not list services: ..."; with a
    filter it returns exactly the names the filter matches, in the order
    of the manager; without a filter ([Init] not called) any name makes it
    panic. *)
Theorem listServices_filters (m : Services.WinServices)
  (t : list Services.Call) :
  match Services.ListServices env t with
  | (_, Some e) =>
      listServices m t =
      Services.Done
        ([], Some (ErrorString
                     ("Could not list services: " ++ errorText e)%string))
        (t ++ [Services.ListServicesCall])
  | (names, None) =>
      match Services.servicesFilter m with
      | Some f =>
          listServices m t =
          Services.Done (List.filter f names, None)
            (t ++ [Services.ListServicesCall])
      | None =>
          listServices m t =
          match names with
          | [] => Services.Done ([], None) (t ++ [Services.ListServicesCall])
          | _ :: _ => Services.Crash
          end
      end
  end.
Proof.
  unfold Services.listServices. srun.
  destruct (Services.ListServices env t) as [names [e|]]; [reflexivity|].
  destruct (Services.servicesFilter m) as [f|].
  - now rewrite filterLoop_filter.
  - destruct names; reflexivity.
Qed.

Lemma DisplayNameStartType_service_calls (fuel : nat) (handle : Z)
  (t : list Services.Call) r (t' : list Services.Call) :
  DisplayNameStartType fuel handle t = Services.Done r t' ->
  exists cs, t' = t ++ cs /\ Forall (Services.isServiceCall handle) cs /\
             Forall (fun c => Services.isFailureLog c = false) cs.
Proof.
  intros H. unfold Services.DisplayNameStartType in H.
  apply queryConfigLoop_calls in H; [|rewrite uint32_small; lia].
  destruct H as [(rest & -> & _) _]. eexists. split; [reflexivity|].
  split; apply Forall_forall; intros c Hc;
    apply list_elem_of_In, in_map_iff in Hc; destruct Hc as (n & <- & _);
    reflexivity.
Qed.

Lemma collectServiceInfo_shape (fuel : nat) (serviceName : string)
  (t : list Services.Call) r (t' : list Services.Call) :
  collectServiceInfo fuel serviceName t = Services.Done r t' ->
  match Services.OpenService env t serviceName with
  | (_, Some e) =>
      r = inr (Services.ServiceErr "could not open service" serviceName e) /\
      t' = t ++ [Services.OpenServiceCall serviceName]
  | (handle, None) =>
      (exists mid,
         t' = t ++ Services.OpenServiceCall serviceName ::
                   mid ++ [Services.CloseCall handle] /\
         Forall (Services.isServiceCall handle) mid /\
         Forall (fun c => Services.isFailureLog c = false) mid) /\
      match r with
      | inl service => Services.ServiceName service = serviceName
      | inr err =>
          exists e,
            err = Services.ServiceErr "could not query service" serviceName e
      end
  end.
Proof.
  unfold Services.collectServiceInfo. srun.
  destruct (Services.OpenService env t serviceName) as [handle [e|]].
  { intros H. injection H as <- <-. split; reflexivity. }
  destruct (Services.Query env _ handle) as [srvStatus [e|]].
  { intros H. injection H as <- <-. split; [|eauto].
    exists [Services.QueryCall handle]. simpl. rewrite <- !app_assoc.
    split; [reflexivity|]. split; repeat constructor. }
  destruct (DisplayNameStartType fuel handle _)
    as [[[displayName startType] err] t1| |] eqn:E; try discriminate.
  apply DisplayNameStartType_service_calls in E.
  destruct E as (cs & -> & Hcs & Hlog).
  destruct err as [e|]; srun; intros H; injection H as <- <-;
    (split; [|reflexivity]).
  - eexists (Services.QueryCall handle :: cs ++ [Services.LogWarn _]).
    simpl. rewrite <- !app_assoc. simpl. split; [reflexivity|].
    split; (constructor; [reflexivity|]); apply Forall_app;
      (split; [assumption | repeat constructor]).
  - exists (Services.QueryCall handle :: cs).
    simpl. rewrite <- !app_assoc. simpl. split; [reflexivity|].
    split; (constructor; [reflexivity | assumption]).
Qed.

(** X18. [collectServiceInfo] releases what it opens: when the service
    cannot be opened it makes no other call and returns the error "could
    not open service"; otherwise its last call closes the handle it
    opened, after calls that concern only this handle, whether it returns
    the information (under the name it was asked for) or the error "could
    not query service". *)
Theorem collectServiceInfo_closes_service (fuel : nat) (serviceName : string)
  (t : list Services.Call) r (t' : list Services.Call) :
  collectServiceInfo fuel serviceName t = Services.Done r t' ->
  match Services.OpenService env t serviceName with
  | (_, Some e) =>
      r = inr (Services.ServiceErr "could not open service" serviceName e) /\
      t' = t ++ [Services.OpenServiceCall serviceName]
  | (handle, None) =>
      (exists mid,
         t' = t ++ Services.OpenServiceCall serviceName ::
                   mid ++ [Services.CloseCall handle] /\
         Forall (Services.isServiceCall handle) mid /\
         Forall (fun c => Services.isFailureLog c = false) mid) /\
      match r with
      | inl service => Services.ServiceName service = serviceName
      | inr err =>
          exists e,
            err = Services.ServiceErr "could not query service" serviceName e
      end
  end.
Proof. apply collectServiceInfo_shape. Qed.

(** X19. A service whose configuration cannot be read is still reported:
    when the service opens and its status is read, an error of
    [DisplayNameStartType] is logged as a warning and the service is
    returned with its state, the display name "Could not get config of
    service <name>" and the startup mode 0. *)
Theorem collectServiceInfo_config_failure (fuel : nat) (serviceName : string)
  (t : list Services.Call) (handle srvStatus : Z) (displayName : string)
  (startType : Z) (e : error) (t1 : list Services.Call) :
  Services.OpenService env t serviceName = (handle, None) ->
  Services.Query env (t ++ [Services.OpenServiceCall serviceName]) handle =
    (srvStatus, None) ->
  DisplayNameStartType fuel handle
    (t ++ [Services.OpenServiceCall serviceName; Services.QueryCall handle]) =
    Services.Done (displayName, startType, Some e) t1 ->
  collectServiceInfo fuel serviceName t =
  Services.Done
    (inl {| Services.ServiceName := serviceName;
            Services.DisplayName :=
              ("Could not get config of service " ++ serviceName)%string;
            Services.State := srvStatus;
            Services.StartUpMode := 0 |})
    (t1 ++
     [Services.LogWarn
        ("Could not get config of service " ++ serviceName ++ ": " ++
         errorText e)%string;
      Services.CloseCall handle]).
Proof.
  intros Hopen Hquery Hconfig.
  assert (Hzero : startType = 0).
  { apply DisplayNameStartType_shape in Hconfig.
    destruct Hconfig as [_ H]. specialize (H ltac:(discriminate)).
    now injection H. }
  subst startType.
  unfold Services.collectServiceInfo. srun. rewrite Hopen. cbn beta iota.
  rewrite Hquery. cbn beta iota.
  replace ((t ++ [Services.OpenServiceCall serviceName]) ++
           [Services.QueryCall handle])
    with (t ++ [Services.OpenServiceCall serviceName;
                Services.QueryCall handle])
    by now rewrite <- app_assoc.
  rewrite Hconfig. srun. now rewrite <- app_assoc.
Qed.

Lemma filter_app_length (cs1 cs2 : list Services.Call) :
  length (List.filter Services.isFailureLog (cs1 ++ cs2)) =
  (length (List.filter Services.isFailureLog cs1) +
   length (List.filter Services.isFailureLog cs2))%nat.
Proof. now rewrite List.filter_app, length_app. Qed.

Lemma filter_none (cs : list Services.Call) :
  Forall (fun c => Services.isFailureLog c = false) cs ->
  List.filter Services.isFailureLog cs = [].
Proof.
  induction 1 as [|c cs Hc _ IH]; simpl; [reflexivity|]. now rewrite Hc.
Qed.

Lemma isServiceCall_perService (handle : Z) (c : Services.Call) :
  Services.isServiceCall handle c -> Services.isPerServiceCall c.
Proof. destruct c; simpl; tauto. Qed.

(** The calls of one [collectServiceInfo]: none to the manager as a whole,
    none a failure log. *)
Lemma collectServiceInfo_calls (fuel : nat) (serviceName : string)
  (t : list Services.Call) r (t' : list Services.Call) :
  collectServiceInfo fuel serviceName t = Services.Done r t' ->
  exists cs, t' = t ++ cs /\ Forall Services.isPerServiceCall cs /\
             List.filter Services.isFailureLog cs = [] /\
             match r with
             | inl service => Services.ServiceName service = serviceName
             | inr err =>
                 exists Message e,
                   (Message = "could not open service" \/
                    Message = "could not query service") /\
                   err = Services.ServiceErr Message serviceName e
             end.
Proof.
  intros H. apply collectServiceInfo_shape in H.
  destruct (Services.OpenService env t serviceName) as [handle [e|]].
  - destruct H as [-> ->]. eexists. split; [reflexivity|].
    split; [repeat constructor|]. split; [reflexivity|]. eauto.
  - destruct H as [(mid & -> & Hmid & Hlog) Hr].
    eexists. split; [reflexivity|]. split; [|split].
    + constructor; [exact I|]. apply Forall_app. split.
      * eapply Forall_impl; [exact Hmid|].
        intros c. apply isServiceCall_perService.
      * repeat constructor.
    + simpl. rewrite List.filter_app, (filter_none _ Hlog). reflexivity.
    + destruct r as [service|err]; [exact Hr|].
      destruct Hr as (e & ->). eauto.
Qed.

Lemma gatherServices_shape (fuel : nat) (serviceNames : list string)
  (acc : list Services.ServiceMetric) (t : list Services.Call)
  (acc' : list Services.ServiceMetric) (t' : list Services.Call) :
  gatherServices fuel serviceNames acc t = Services.Done acc' t' ->
  exists infos cs,
    acc' = acc ++ map Services.serviceMetric infos /\
    sublist (map Services.ServiceName infos) serviceNames /\
    t' = t ++ cs /\
    Forall Services.isPerServiceCall cs /\
    (length infos + length (List.filter Services.isFailureLog cs))%nat =
      length serviceNames.
Proof.
  revert acc t. induction serviceNames as [|name rest IH]; intros acc t;
    simpl; srun.
  - intros H. injection H as <- <-. exists [], []. simpl.
    rewrite !app_nil_r. repeat split; constructor.
  - destruct (collectServiceInfo fuel name t) as [r t1| |] eqn:E;
      try discriminate.
    apply collectServiceInfo_calls in E.
    destruct E as (cs1 & -> & Hcs1 & Hlog1 & Hname).
    destruct r as [service|err]; srun; intros H; apply IH in H;
      destruct H as (infos & cs2 & -> & Hsub & -> & Hcs2 & Hcount).
    + exists (service :: infos), (cs1 ++ cs2). simpl.
      rewrite <- !app_assoc. split; [reflexivity|].
      split; [rewrite Hname; now constructor|].
      split; [reflexivity|]. split; [now apply Forall_app|].
      rewrite filter_app_length, Hlog1. simpl. lia.
    + set (logged := if Services.IsPermission os_IsPermission err
                     then Services.LogDebug
                            (Services.Error errorText err)
                     else Services.LogError
                            (Services.Error errorText err)) in *.
      assert (Hl : Services.isFailureLog logged = true)
        by (unfold logged; destruct (Services.IsPermission _ _); reflexivity).
      assert (Hp : Services.isPerServiceCall logged)
        by (unfold logged; destruct (Services.IsPermission _ _); exact I).
      exists infos, (cs1 ++ logged :: cs2).
      rewrite <- !app_assoc. simpl. split; [reflexivity|].
      split; [now constructor|]. split; [reflexivity|].
      split; [apply Forall_app; split; [assumption | now constructor]|].
      rewrite filter_app_length, Hlog1. simpl. rewrite Hl. simpl. lia.
Qed.

(** X20. Every listed service is accounted for exactly once: when the loop
    of [Gather] over the service names returns, the number of records it
    added and the number of failures it logged (at debug or error level)
    add up to the number of names; the records are those of services
    whose names form a sublist of the names, in the same order, and come
    after the records that were already there. *)
Theorem Gather_reports_or_logs_each_service (fuel : nat)
  (serviceNames : list string) (acc : list Services.ServiceMetric)
  (t : list Services.Call) (acc' : list Services.ServiceMetric)
  (t' : list Services.Call) :
  gatherServices fuel serviceNames acc t = Services.Done acc' t' ->
  exists infos cs,
    acc' = acc ++ map Services.serviceMetric infos /\
    sublist (map Services.ServiceName infos) serviceNames /\
    t' = t ++ cs /\
    Forall Services.isPerServiceCall cs /\
    (length infos + length (List.filter Services.isFailureLog cs))%nat =
      length serviceNames.
Proof. apply gatherServices_shape. Qed.

Lemma no_failure_log_isFailureLogOf (cs : list Services.Call) :
  List.filter Services.isFailureLog cs = [] ->
  Forall (Services.isFailureLogOf errorText os_IsPermission) cs.
Proof.
  induction cs as [|c cs IH]; simpl; [constructor|].
  destruct (Services.isFailureLog c) eqn:E; [discriminate|].
  intros H. constructor; [|exact (IH H)].
  intros Hc. unfold Services.isFailureLogOf in *. congruence.
Qed.

Lemma gatherServices_logs (fuel : nat) (serviceNames : list string)
  (acc : list Services.ServiceMetric) (t : list Services.Call)
  (acc' : list Services.ServiceMetric) (t' : list Services.Call) :
  gatherServices fuel serviceNames acc t = Services.Done acc' t' ->
  exists cs, t' = t ++ cs /\
             Forall (Services.isFailureLogOf errorText os_IsPermission) cs.
Proof.
  revert acc t. induction serviceNames as [|name rest IH]; intros acc t;
    simpl; srun.
  - intros H. injection H as _ <-. exists []. rewrite app_nil_r.
    split; [reflexivity | constructor].
  - destruct (collectServiceInfo fuel name t) as [r t1| |] eqn:E;
      try discriminate.
    apply collectServiceInfo_calls in E.
    destruct E as (cs1 & -> & _ & Hlog1 & Hr).
    apply no_failure_log_isFailureLogOf in Hlog1.
    destruct r as [service|err]; srun; intros H; apply IH in H;
      destruct H as (cs2 & -> & Hcs2).
    + exists (cs1 ++ cs2). rewrite <- app_assoc.
      split; [reflexivity | now apply Forall_app].
    + destruct Hr as (Message & e & Hmsg & ->).
      eexists (cs1 ++ _ :: cs2). rewrite <- !app_assoc. simpl.
      split; [reflexivity|]. apply Forall_app. split; [exact Hlog1|].
      constructor; [|exact Hcs2].
      intros _. exists Message, name, e. split; [exact Hmsg | reflexivity].
Qed.

(** X23. What [Gather] logs for the services it passes over: every debug
    or error entry of its loop is the text of a [*ServiceErr], "could not
    open service: '<name>': <cause>" or "could not query service: ...",
    written at debug level when the cause is a permission error and at
    error level when it is not. *)
Theorem Gather_logs_failures_by_permission (fuel : nat)
  (serviceNames : list string) (acc : list Services.ServiceMetric)
  (t : list Services.Call) (acc' : list Services.ServiceMetric)
  (t' : list Services.Call) :
  gatherServices fuel serviceNames acc t = Services.Done acc' t' ->
  exists cs, t' = t ++ cs /\
             Forall (Services.isFailureLogOf errorText os_IsPermission) cs.
Proof. apply gatherServices_logs. Qed.

(** X21. The connection of [Gather]: when the manager cannot be reached,
    [Gather] returns "Could not open service manager: ..." after this one
    call and adds nothing; once connected, it lists the services next and
    disconnects with its last call, and it returns an error only when the
    listing fails ("Could not list services: ...", nothing added): a
    service that cannot be opened or queried never makes [Gather] fail. *)
Theorem Gather_services_connection (fuel : nat) (m : Services.WinServices)
  (acc : list Services.ServiceMetric) (t : list Services.Call)
  (acc' : list Services.ServiceMetric) (err : option error)
  (t' : list Services.Call) :
  GatherServices fuel m acc t = Services.Done (acc', err) t' ->
  match Services.Connect env t with
  | Some e =>
      acc' = acc /\
      err = Some (ErrorString
                    ("Could not open service manager: " ++ errorText e)%string)
      /\ t' = t ++ [Services.ConnectCall]
  | None =>
      exists mid,
        t' = t ++ Services.ConnectCall :: Services.ListServicesCall ::
                  mid ++ [Services.DisconnectCall] /\
        Forall Services.isPerServiceCall mid /\
        match Services.ListServices env (t ++ [Services.ConnectCall]) with
        | (_, Some e) =>
            acc' = acc /\ mid = [] /\
            err = Some (ErrorString
                          ("Could not list services: " ++ errorText e)%string)
        | (_, None) => err = None /\ exists new, acc' = acc ++ new
        end
  end.
Proof.
  unfold Services.Gather. srun.
  destruct (Services.Connect env t) as [e|].
  { intros H. injection H as <- <- <-. repeat split. }
  unfold Services.listServices. srun.
  destruct (Services.ListServices env (t ++ [Services.ConnectCall]))
    as [names [e|]].
  { intros H. injection H as <- <- <-. exists []. simpl.
    rewrite <- !app_assoc. repeat split. constructor. }
  destruct (Services.servicesFilter m) as [f|]; srun.
  - destruct (gatherServices fuel _ acc _) as [acc1 t1| |] eqn:E;
      try discriminate.
    apply gatherServices_shape in E.
    destruct E as (infos & cs & -> & _ & -> & Hcs & _).
    intros H. injection H as <- <- <-. exists cs.
    rewrite <- !app_assoc. simpl. repeat split; eauto.
  - destruct names; try discriminate. simpl. srun.
    intros H. injection H as <- <- <-. exists []. simpl.
    rewrite <- !app_assoc. simpl. repeat split; [constructor|].
    exists []. now rewrite app_nil_r.
Qed.

(** The record built for a service. *)
Lemma serviceMetric_shape (service : Services.ServiceInfo) :
  let m := Services.serviceMetric service in
  Services.measurement m = "win_services" /\
  Services.tags m = {[ "service_name" := Services.ServiceName service ]} /\
  Services.fields m !! "state" = Some (VInt (Services.State service)) /\
  Services.fields m !! "startup_mode" =
    Some (VInt (Services.StartUpMode service)) /\
  Services.fields m !! "display_name" =
    (if isEmpty (Services.DisplayName service) then None
     else Some (VString (Services.DisplayName service))) /\
  dom (Services.fields m) =
    (if isEmpty (Services.DisplayName service)
     then {[ "state"; "startup_mode" ]}
     else {[ "state"; "startup_mode"; "display_name" ]}).
Proof.
  unfold Services.serviceMetric. cbv zeta. simpl.
  destruct (Services.DisplayName service) as [|c d] eqn:E.
  - simpl. repeat split.
    all: rewrite !dom_insert_L, dom_empty_L; set_solver.
  - assert (Hlt : Z.ltb 0 (len (String c d)) = true).
    { apply Z.ltb_lt. unfold len. simpl. lia. }
    rewrite Hlt. simpl. repeat split.
    all: rewrite !dom_insert_L, dom_empty_L; set_solver.
Qed.

Lemma serviceMetric_listed (listed : list string)
  (filter : option (string -> bool)) (service : Services.ServiceInfo) :
  In (Services.ServiceName service) listed ->
  (forall f, filter = Some f -> f (Services.ServiceName service) = true) ->
  Services.isRecordOfListed listed filter (Services.serviceMetric service).
Proof.
  intros Hin Hf.
  destruct (serviceMetric_shape service)
    as (Hm & Htags & Hstate & Hmode & Hname & Hdom).
  cbv zeta in *. unfold Services.isRecordOfListed.
  split; [exact Hm|]. split; [eauto|]. split; [eauto|]. split; [eauto|].
  rewrite Hname, Hdom.
  destruct (isEmpty (Services.DisplayName service)) eqn:E;
    (split; [first [exact I | exact E]
            | first [reflexivity | apply union_subseteq_l]]).
Qed.

Lemma gatherServices_records (fuel : nat) (serviceNames : list string)
  (filter : option (string -> bool)) (listed : list string)
  (acc : list Services.ServiceMetric) (t : list Services.Call)
  (acc' : list Services.ServiceMetric) (t' : list Services.Call) :
  (forall name, In name serviceNames ->
     In name listed /\ forall f, filter = Some f -> f name = true) ->
  gatherServices fuel serviceNames acc t = Services.Done acc' t' ->
  exists new, acc' = acc ++ new /\
              Forall (Services.isRecordOfListed listed filter) new.
Proof.
  intros Hnames H. apply gatherServices_shape in H.
  destruct H as (infos & cs & -> & Hsub & _).
  exists (map Services.serviceMetric infos). split; [reflexivity|].
  apply Forall_forall. intros m Hm. apply list_elem_of_In in Hm.
  apply in_map_iff in Hm. destruct Hm as (service & <- & Hservice).
  assert (Hin : In (Services.ServiceName service) serviceNames).
  { apply list_elem_of_In.
    apply (elem_of_sublist (map Services.ServiceName infos)); [|exact Hsub].
    apply list_elem_of_In. now apply in_map. }
  destruct (Hnames _ Hin) as [Hlisted Hf].
  now apply serviceMetric_listed.
Qed.

(** X22. What [Gather] adds: every record it appends is about a service
    that the manager listed and that the filter of the plugin matches; it
    has the measurement [win_services], the single tag [service_name], the
    integer fields [state] and [startup_mode], and no other field but
    [display_name], which is never emitted empty.  The records that were
    there before stay in front, unchanged. *)
Theorem Gather_service_records (fuel : nat) (m : Services.WinServices)
  (acc : list Services.ServiceMetric) (t : list Services.Call)
  (acc' : list Services.ServiceMetric) (err : option error)
  (t' : list Services.Call) :
  GatherServices fuel m acc t = Services.Done (acc', err) t' ->
  exists new,
    acc' = acc ++ new /\
    Forall (Services.isRecordOfListed
              (fst (Services.ListServices env (t ++ [Services.ConnectCall])))
              (Services.servicesFilter m)) new.
Proof.
  assert (Hnone : forall listed filter,
            exists new, acc = acc ++ new /\
                        Forall (Services.isRecordOfListed listed filter) new).
  { intros listed filter. exists []. rewrite app_nil_r.
    split; [reflexivity | constructor]. }
  unfold Services.Gather. srun.
  destruct (Services.Connect env t) as [e|].
  { intros H. injection H as <- _ _. apply Hnone. }
  unfold Services.listServices. srun.
  destruct (Services.ListServices env (t ++ [Services.ConnectCall]))
    as [names [e|]].
  { intros H. injection H as <- _ _. apply Hnone. }
  destruct (Services.servicesFilter m) as [f|]; srun.
  - destruct (gatherServices fuel _ acc _) as [acc1 t1| |] eqn:E;
      try discriminate.
    intros H. injection H as <- _ _. simpl.
    apply (gatherServices_records fuel _ (Some f) names) in E; [exact E|].
    intros name Hname. rewrite filterLoop_filter in Hname. simpl in Hname.
    apply filter_In in Hname. destruct Hname as [Hin Hf].
    split; [exact Hin|]. intros f' Hf'. injection Hf' as <-. exact Hf.
  - destruct names; try discriminate. simpl. srun.
    intros H. injection H as <- _ _. apply Hnone.
Qed.

Lemma collectServiceInfo_fuel (fuel : nat) (serviceName : string)
  (t : list Services.Call) :
  (Z.to_nat (2 ^ 32 - 1024) <= fuel)%nat ->
  collectServiceInfo fuel serviceName t <> Services.NoFuel.
Proof.
  intros Hfuel. unfold Services.collectServiceInfo. srun.
  destruct (Services.OpenService env t serviceName) as [handle [e|]];
    [discriminate|].
  destruct (Services.Query env _ handle) as [srvStatus [e|]]; [discriminate|].
  assert (H := queryConfigLoop_fuel fuel handle (uint32 1024)
                 ((t ++ [Services.OpenServiceCall serviceName]) ++
                  [Services.QueryCall handle])).
  fold (DisplayNameStartType fuel handle
          ((t ++ [Services.OpenServiceCall serviceName]) ++
           [Services.QueryCall handle])) in H.
  rewrite uint32_small in H by lia. specialize (H ltac:(lia) Hfuel).
  destruct (DisplayNameStartType fuel handle _)
    as [[[displayName startType] [e|]] t1| |]; srun;
    try discriminate; congruence.
Qed.

Lemma gatherServices_fuel (fuel : nat) (serviceNames : list string)
  (acc : list Services.ServiceMetric) (t : list Services.Call) :
  (Z.to_nat (2 ^ 32 - 1024) <= fuel)%nat ->
  gatherServices fuel serviceNames acc t <> Services.NoFuel.
Proof.
  intros Hfuel. revert acc t.
  induction serviceNames as [|name rest IH]; intros acc t; simpl; srun;
    [discriminate|].
  assert (H := collectServiceInfo_fuel fuel name t Hfuel).
  destruct (collectServiceInfo fuel name t) as [[service|err] t1| |];
    srun; try discriminate; try congruence; apply IH.
Qed.

(** X24. [Gather] of the services plugin terminates: with 2^32 - 1024
    rounds for each call of [DisplayNameStartType], it never runs out of
    rounds, however many services the manager lists and whatever the
    native calls answer. *)
Theorem Gather_services_terminates (extra : nat) (m : Services.WinServices)
  (acc : list Services.ServiceMetric) (t : list Services.Call) :
  GatherServices (Z.to_nat (2 ^ 32 - 1024) + extra) m acc t <>
  Services.NoFuel.
Proof.
  unfold Services.Gather. srun.
  destruct (Services.Connect env t) as [e|]; [discriminate|].
  unfold Services.listServices. srun.
  destruct (Services.ListServices env _) as [names [e|]]; [discriminate|].
  destruct (Services.servicesFilter m) as [f|]; srun.
  - assert (H := gatherServices_fuel (Z.to_nat (2 ^ 32 - 1024) + extra)
                   (Services.filterLoop f names []) acc
                   ((t ++ [Services.ConnectCall]) ++
                    [Services.ListServicesCall]) ltac:(lia)).
    destruct (gatherServices _ _ acc _) as [acc1 t1| |];
      try discriminate; congruence.
  - destruct names; simpl; srun; discriminate.
Qed.

End ServicesFacts.

(** ** Instances for the services plugin *)

Lemma DisplayNameStartType_buffers_grow_witness :
  ServiceScenario.traceOf (ServiceScenario.DisplayNameStartType 5 11 []) =
  [Services.QueryServiceConfigCall 11 1024;
   Services.QueryServiceConfigCall 11 2048] /\
  exists rest,
    ServiceScenario.traceOf (ServiceScenario.DisplayNameStartType 5 11 []) =
      [] ++ map (Services.QueryServiceConfigCall 11) (1024 :: rest) /\
    Services.increasingFrom 1024 rest /\
    Forall (fun m => 0 < m < 2 ^ 32) (1024 :: rest).
Proof.
  split; [vm_compute; reflexivity|].
  refine (proj1 (DisplayNameStartType_buffers_grow ServiceScenario.manager
                   Sample.ERROR_INSUFFICIENT_BUFFER 5 11 []
                   (ServiceScenario.valueOf
                      (ServiceScenario.DisplayNameStartType 5 11 [])
                      (EmptyString, 0, None))
                   (ServiceScenario.traceOf
                      (ServiceScenario.DisplayNameStartType 5 11 [])) _)).
  vm_compute. reflexivity.
Defined.

Lemma collectServiceInfo_closes_service_witness :
  let run := ServiceScenario.collectServiceInfo 5 "LanmanServer" [] in
  exists mid,
    ServiceScenario.traceOf run =
      [] ++ Services.OpenServiceCall "LanmanServer" ::
            mid ++ [Services.CloseCall 11] /\
    Forall (Services.isServiceCall 11) mid /\
    Forall (fun c => Services.isFailureLog c = false) mid.
Proof.
  intros run.
  refine (proj1 (collectServiceInfo_closes_service ServiceScenario.errorText
                   ServiceScenario.manager Sample.ERROR_INSUFFICIENT_BUFFER
                   5 "LanmanServer" []
                   (ServiceScenario.valueOf run
                      (inr (Services.OtherErr (Errno 0))))
                   (ServiceScenario.traceOf run) _)).
  vm_compute. reflexivity.
Defined.

Lemma collectServiceInfo_config_failure_witness :
  ServiceScenario.collectServiceInfo 5 "WinRM" [] =
  Services.Done
    (inl {| Services.ServiceName := "WinRM";
            Services.DisplayName := "Could not get config of service WinRM";
            Services.State := 4;
            Services.StartUpMode := 0 |})
    [Services.OpenServiceCall "WinRM"; Services.QueryCall 13;
     Services.QueryServiceConfigCall 13 1024;
     Services.LogWarn "Could not get config of service WinRM: errno";
     Services.CloseCall 13].
Proof.
  refine (collectServiceInfo_config_failure ServiceScenario.errorText
            ServiceScenario.manager Sample.ERROR_INSUFFICIENT_BUFFER 5
            "WinRM" [] 13 4 EmptyString 0 (Errno 1060)
            [Services.OpenServiceCall "WinRM"; Services.QueryCall 13;
             Services.QueryServiceConfigCall 13 1024] _ _ _);
    vm_compute; reflexivity.
Defined.

Lemma Gather_reports_or_logs_each_service_witness :
  let run :=
    Services.gatherLoop ServiceScenario.errorText ServiceScenario.isPermission
      ServiceScenario.manager Sample.ERROR_INSUFFICIENT_BUFFER 5
      ["LanmanServer"; "TermService"; "WinRM"] [] [] in
  length (ServiceScenario.valueOf run []) = 2%nat /\
  In (Services.LogDebug "could not open service: 'TermService': errno")
    (ServiceScenario.traceOf run) /\
  exists infos cs,
    ServiceScenario.valueOf run [] = [] ++ map Services.serviceMetric infos /\
    sublist (map Services.ServiceName infos)
      ["LanmanServer"; "TermService"; "WinRM"] /\
    ServiceScenario.traceOf run = [] ++ cs /\
    Forall Services.isPerServiceCall cs /\
    (length infos + length (List.filter Services.isFailureLog cs))%nat =
      3%nat.
Proof.
  intros run.
  split; [vm_compute; reflexivity|].
  split; [vm_compute; repeat (first [left; reflexivity | right])|].
  refine (Gather_reports_or_logs_each_service ServiceScenario.errorText
            ServiceScenario.isPermission ServiceScenario.manager
            Sample.ERROR_INSUFFICIENT_BUFFER 5
            ["LanmanServer"; "TermService"; "WinRM"] [] []
            (ServiceScenario.valueOf run []) (ServiceScenario.traceOf run) _).
  vm_compute. reflexivity.
Defined.

Lemma Gather_services_connection_witness :
  let down :=
    ServiceScenario.Gather ServiceScenario.unreachable 5 ServiceScenario.plugin
      [] [] in
  let run :=
    ServiceScenario.Gather ServiceScenario.manager 5 ServiceScenario.plugin
      [] [] in
  snd (ServiceScenario.valueOf down ([], None)) =
    Some (ErrorString "Could not open service manager: errno") /\
  snd (ServiceScenario.valueOf run ([], None)) = None /\
  length (fst (ServiceScenario.valueOf run ([], None))) = 2%nat.
Proof.
  intros down run. split; [|split; [|vm_compute; reflexivity]].
  - pose proof (Gather_services_connection ServiceScenario.errorText
                  ServiceScenario.isPermission ServiceScenario.unreachable
                  Sample.ERROR_INSUFFICIENT_BUFFER 5 ServiceScenario.plugin
                  [] [] (fst (ServiceScenario.valueOf down ([], None)))
                  (snd (ServiceScenario.valueOf down ([], None)))
                  (ServiceScenario.traceOf down)) as H.
    assert (Hrun : ServiceScenario.Gather ServiceScenario.unreachable 5
                     ServiceScenario.plugin [] [] =
                   Services.Done
                     (fst (ServiceScenario.valueOf down ([], None)),
                      snd (ServiceScenario.valueOf down ([], None)))
                     (ServiceScenario.traceOf down))
      by (vm_compute; reflexivity).
    specialize (H Hrun). cbn beta iota in H.
    exact (proj1 (proj2 H)).
  - pose proof (Gather_services_connection ServiceScenario.errorText
                  ServiceScenario.isPermission ServiceScenario.manager
                  Sample.ERROR_INSUFFICIENT_BUFFER 5 ServiceScenario.plugin
                  [] [] (fst (ServiceScenario.valueOf run ([], None)))
                  (snd (ServiceScenario.valueOf run ([], None)))
                  (ServiceScenario.traceOf run)) as H.
    assert (Hrun : ServiceScenario.Gather ServiceScenario.manager 5
                     ServiceScenario.plugin [] [] =
                   Services.Done
                     (fst (ServiceScenario.valueOf run ([], None)),
                      snd (ServiceScenario.valueOf run ([], None)))
                     (ServiceScenario.traceOf run))
      by (vm_compute; reflexivity).
    specialize (H Hrun). cbn beta iota in H.
    destruct H as (mid & _ & _ & Herr & _). exact Herr.
Defined.

(** The two records of the sample manager: [LanmanServer] and [WinRM] are
    listed and match the filter; [TermService] cannot be opened, and
    [Spooler] does not match. *)
Lemma Gather_service_records_witness :
  let run :=
    ServiceScenario.Gather ServiceScenario.manager 5 ServiceScenario.plugin
      [] [] in
  map (fun m => map_to_list (Services.tags m))
    (fst (ServiceScenario.valueOf run ([], None))) =
    [[("service_name", "LanmanServer")]; [("service_name", "WinRM")]] /\
  exists new,
    fst (ServiceScenario.valueOf run ([], None)) = [] ++ new /\
    Forall (Services.isRecordOfListed
              (fst (Services.ListServices ServiceScenario.manager
                      ([] ++ [Services.ConnectCall])))
              (Services.servicesFilter ServiceScenario.plugin)) new.
Proof.
  intros run. split; [vm_compute; reflexivity|].
  refine (Gather_service_records ServiceScenario.errorText
            ServiceScenario.isPermission ServiceScenario.manager
            Sample.ERROR_INSUFFICIENT_BUFFER 5 ServiceScenario.plugin [] []
            (fst (ServiceScenario.valueOf run ([], None)))
            (snd (ServiceScenario.valueOf run ([], None)))
            (ServiceScenario.traceOf run) _).
  vm_compute. reflexivity.
Defined.

Lemma Gather_logs_failures_by_permission_witness :
  let run :=
    Services.gatherLoop ServiceScenario.errorText ServiceScenario.isPermission
      ServiceScenario.manager Sample.ERROR_INSUFFICIENT_BUFFER 5
      ["LanmanServer"; "TermService"; "WinRM"] [] [] in
  exists cs,
    ServiceScenario.traceOf run = [] ++ cs /\
    Forall (Services.isFailureLogOf ServiceScenario.errorText
              ServiceScenario.isPermission) cs.
Proof.
  intros run.
  refine (Gather_logs_failures_by_permission ServiceScenario.errorText
            ServiceScenario.isPermission ServiceScenario.manager
            Sample.ERROR_INSUFFICIENT_BUFFER 5
            ["LanmanServer"; "TermService"; "WinRM"] [] []
            (ServiceScenario.valueOf run []) (ServiceScenario.traceOf run) _).
  vm_compute. reflexivity.
Defined.
